(** * Trip-planning backend: access control and embedded-collection mutations

    A shallow embedding of the request handlers of
    [routers/trips_router.py], [routers/activities_router.py],
    [routers/expenses_router.py] and [routers/packing_router.py] over a
    model of the document store, together with the properties the
    specification states about them.

    What is modelled, and how:
    - the store is MongoDB reached through motor; of it, [find_one],
      [insert_one], [delete_one] and [update_one] with the operators the
      handlers use ([$push], [$pull], [$set], the positional [$]);
    - a handler is a function from the database to a result and a
      database; it takes as arguments, besides the request, what it reads
      from its environment: the value of [ObjectId()] and of
      [datetime.utcnow()];
    - [current_user] is the user [auth.get_current_user] has resolved;
    - amounts are IEEE binary64 numbers, as Python floats are;
    - a [str] is held as its UTF-8 bytes;
    - a [datetime] is taken at the store's resolution and integers within
      the eight bytes the store gives them, so that what is written is
      what is read;
    - routing is not modelled: each handler is taken as called with the
      parameters of its own signature.

    Further on come [PyObjectId.validate] of [models.py], the WebSocket
    connection manager of [main.py], the account functions of
    [services/auth_service.py] with two routes of
    [routers/auth_router.py], and the route of
    [routers/weather_router.py]. *)

From Stdlib Require Import Ascii String ZArith List Bool PrimFloat Sorting.Sorted.
From stdpp Require Import base option list gmap strings.

Local Open Scope string_scope.
Local Open Scope Z_scope.

(** ** bson.ObjectId *)

(** An [ObjectId] holds the bytes its constructor read, twelve of them
    but for the strings with blanks noted below; it is represented here
    by the lowercase hexadecimal digits that [str(oid)] prints, two for
    each byte.  Two object identifiers are equal exactly when these
    strings are. *)
Module ObjectId.

Definition t := string.

Definition is_hex_digit (c : ascii) : bool :=
  bool_decide (c ∈ list_ascii_of_string "0123456789abcdefABCDEF").

Definition lower_hex (c : ascii) : ascii :=
  if bool_decide (c ∈ list_ascii_of_string "ABCDEF")
  then ascii_of_nat (nat_of_ascii c + 32)
  else c.

Fixpoint lower (s : string) : string :=
  match s with
  | EmptyString => EmptyString
  | String c r => String (lower_hex c) (lower r)
  end.

(** ASCII whitespace: tab, line feed, vertical tab, form feed, carriage
    return and the blank. *)
Definition is_space (c : ascii) : bool :=
  bool_decide (nat_of_ascii c ∈ [9; 10; 11; 12; 13; 32]%nat).

(** [bytes.fromhex(s)], the bytes given by their hexadecimal digits in
    lower case: two digits make a byte, ASCII whitespace before a byte
    is skipped (Python 3.7 and later), and anything else is the
    [ValueError], [None] here. *)
Fixpoint fromhex (s : string) : option string :=
  match s with
  | EmptyString => Some EmptyString
  | String c r =>
      if is_space c then fromhex r
      else if is_hex_digit c
      then match r with
           | String d r' =>
               if is_hex_digit d
               then (fun bytes => String (lower_hex c) (String (lower_hex d) bytes))
                      <$> fromhex r'
               else None
           | EmptyString => None
           end
      else None
  end.

(** [ObjectId.is_valid(oid)] for a string argument: the constructor
    accepts a string of length 24 that [bytes.fromhex] reads.  That is
    24 hexadecimal digits in either case, and also a string of 24
    characters some of which are whitespace before a byte, read as fewer
    than twelve bytes. *)
Definition is_valid (s : string) : bool :=
  bool_decide (String.length s = 24%nat)
  && match fromhex s with
     | Some _ => true
     | None => false
     end.

(** [ObjectId(s)] on a valid string. *)
Definition of_string (s : string) : t := default EmptyString (fromhex s).

(** [str(oid)]. *)
Definition str (oid : t) : string := oid.

End ObjectId.

(** [PyObjectId] of [models.py]: a [str] subclass whose validator
    returns [str(ObjectId(v))]. *)
Definition PyObjectId := string.

(** [datetime] values, as the store keeps them: a count of milliseconds. *)
Definition datetime := Z.

(** ** The pydantic models of [models.py] *)

Module User.
(** The free-form [profile] dictionary is left out: no handler below
    reads it. *)
Record t := mk {
  id : PyObjectId;
  email : string;
  username : string;
  name : option string;
  hashed_password : string;
  created_at : datetime;
  profile_picture : option string
}.
End User.

Module Activity.
Record t := mk {
  id : PyObjectId;
  title : string;
  time : string;
  location : string;
  activity_type : string;
  notes : option string;
  cost : option float;
  day : Z;
  order : Z
}.

Definition with_id (v : PyObjectId) (a : t) : t :=
  mk v (title a) (time a) (location a) (activity_type a) (notes a)
     (cost a) (day a) (order a).

Definition with_order (v : Z) (a : t) : t :=
  mk (id a) (title a) (time a) (location a) (activity_type a) (notes a)
     (cost a) (day a) v.
End Activity.

Module Expense.
Record t := mk {
  id : PyObjectId;
  title : string;
  amount : float;
  category : string;
  date : datetime;
  notes : option string
}.

Definition with_id (v : PyObjectId) (e : t) : t :=
  mk v (title e) (amount e) (category e) (date e) (notes e).
End Expense.

Module PackingItem.
Record t := mk {
  id : PyObjectId;
  name : string;
  category : string;
  packed : bool;
  notes : option string
}.

Definition with_id (v : PyObjectId) (p : t) : t :=
  mk v (name p) (category p) (packed p) (notes p).

Definition with_packed (v : bool) (p : t) : t :=
  mk (id p) (name p) (category p) v (notes p).
End PackingItem.

Module Trip.
Record t := mk {
  id : PyObjectId;
  title : string;
  destination : string;
  start_date : datetime;
  end_date : datetime;
  budget : float;
  owner_id : PyObjectId;
  collaborators : list PyObjectId;
  activities : list Activity.t;
  expenses : list Expense.t;
  packing_items : list PackingItem.t;
  notes : option string;
  created_at : datetime;
  updated_at : datetime
}.
End Trip.

Module TripCreate.
Record t := mk {
  title : string;
  destination : string;
  start_date : datetime;
  end_date : datetime;
  budget : float
}.
End TripCreate.

Module TripUpdate.
Record t := mk {
  title : option string;
  destination : option string;
  start_date : option datetime;
  end_date : option datetime;
  budget : option float;
  notes : option string
}.
End TripUpdate.

(** ** The document store *)

(** An element of one of the three arrays embedded in a trip document.
    The handlers build it as [d = model.dict()] followed by
    [d["_id"] = oid]: [.dict()] dumps the model under its field names,
    so the dictionary keeps the model's own ["id"] entry next to the
    ["_id"] the handler adds. *)
Record SubDoc (A : Type) := mkSubDoc {
  _id : ObjectId.t;
  dumped : A
}.
Arguments mkSubDoc {A} _ _.
Arguments _id {A} _.
Arguments dumped {A} _.

(** A document of the [trips] collection, without its ["_id"], which is
    the key it is stored under. *)
Module TripDoc.
Record t := mk {
  title : string;
  destination : string;
  start_date : datetime;
  end_date : datetime;
  budget : float;
  owner_id : PyObjectId;
  collaborators : list PyObjectId;
  activities : list (SubDoc Activity.t);
  expenses : list (SubDoc Expense.t);
  packing_items : list (SubDoc PackingItem.t);
  notes : option string;
  created_at : datetime;
  updated_at : datetime
}.

Definition with_collaborators (v : list PyObjectId) (d : t) : t :=
  mk (title d) (destination d) (start_date d) (end_date d) (budget d)
     (owner_id d) v (activities d) (expenses d) (packing_items d)
     (notes d) (created_at d) (updated_at d).

Definition with_activities (v : list (SubDoc Activity.t)) (d : t) : t :=
  mk (title d) (destination d) (start_date d) (end_date d) (budget d)
     (owner_id d) (collaborators d) v (expenses d) (packing_items d)
     (notes d) (created_at d) (updated_at d).

Definition with_expenses (v : list (SubDoc Expense.t)) (d : t) : t :=
  mk (title d) (destination d) (start_date d) (end_date d) (budget d)
     (owner_id d) (collaborators d) (activities d) v (packing_items d)
     (notes d) (created_at d) (updated_at d).

Definition with_packing_items (v : list (SubDoc PackingItem.t)) (d : t) : t :=
  mk (title d) (destination d) (start_date d) (end_date d) (budget d)
     (owner_id d) (collaborators d) (activities d) (expenses d) v
     (notes d) (created_at d) (updated_at d).
End TripDoc.

(** A document of the separate [activities] or [expenses] collection
    that the export handlers query by ["trip_id"]. *)
Record Linked (A : Type) := mkLinked {
  trip_id_of : ObjectId.t;
  linked_doc : SubDoc A
}.
Arguments mkLinked {A} _ _.
Arguments trip_id_of {A} _.
Arguments linked_doc {A} _.

(** The database: the [trips] collection, keyed by ["_id"] (MongoDB keeps
    it unique), and the [users], [activities] and [expenses] collections
    in their natural order. *)
Record Database := mkDatabase {
  trips : gmap ObjectId.t TripDoc.t;
  users : list User.t;
  activities : list (Linked Activity.t);
  expenses : list (Linked Expense.t)
}.

Definition with_trips (v : gmap ObjectId.t TripDoc.t) (db : Database) : Database :=
  mkDatabase v (users db) (activities db) (expenses db).

(** *** Model validation: building [Activity], [Trip], ... from a stored dictionary

    The [id] fields carry the alias ["_id"] and the models set
    [populate_by_name]; validation looks a field up under its alias
    first, so when a dictionary has both keys, ["_id"] is the one read.
    The identifiers stored under ["owner_id"] and ["collaborators"] are
    users' [id]s, already in the form [PyObjectId.validate] returns, and
    pass validation unchanged. *)

Definition Activity_ (d : SubDoc Activity.t) : Activity.t :=
  Activity.with_id (ObjectId.str (_id d)) (dumped d).

Definition Expense_ (d : SubDoc Expense.t) : Expense.t :=
  Expense.with_id (ObjectId.str (_id d)) (dumped d).

Definition PackingItem_ (d : SubDoc PackingItem.t) : PackingItem.t :=
  PackingItem.with_id (ObjectId.str (_id d)) (dumped d).

Definition Trip_ (oid : ObjectId.t) (d : TripDoc.t) : Trip.t :=
  Trip.mk (ObjectId.str oid) (TripDoc.title d) (TripDoc.destination d)
          (TripDoc.start_date d) (TripDoc.end_date d) (TripDoc.budget d)
          (TripDoc.owner_id d) (TripDoc.collaborators d)
          (map Activity_ (TripDoc.activities d))
          (map Expense_ (TripDoc.expenses d))
          (map PackingItem_ (TripDoc.packing_items d))
          (TripDoc.notes d) (TripDoc.created_at d) (TripDoc.updated_at d).

(** *** Update operators on an embedded array *)

Section ArrayOperators.
Context {A : Type}.

(** [{"$push": {field: d}}] *)
Definition push (d : SubDoc A) (l : list (SubDoc A)) : list (SubDoc A) :=
  (l ++ [d])%list.

(** [{"$pull": {field: {"_id": x}}}]: every matching element goes. *)
Definition pull (x : ObjectId.t) (l : list (SubDoc A)) : list (SubDoc A) :=
  List.filter (fun e => negb (bool_decide (_id e = x))) l.

(** The positional operator: with [{"field._id": x}] in the query,
    ["field.$"] names the first element whose ["_id"] is [x]; when
    there is none the query matches no document and nothing is
    written. *)
Fixpoint positional (x : ObjectId.t) (f : SubDoc A → SubDoc A)
    (l : list (SubDoc A)) : list (SubDoc A) :=
  match l with
  | [] => []
  | e :: r =>
      if bool_decide (_id e = x) then f e :: r
      else e :: positional x f r
  end.

(** [{"$set": {"field.$": d}}] *)
Definition set_element (d : SubDoc A) : SubDoc A → SubDoc A :=
  fun _ => d.

(** [{"$set": {"field.$.key": v}}], with [g] the function that stores
    [v] under [key]. *)
Definition set_key (g : A → A) : SubDoc A → SubDoc A :=
  fun e => mkSubDoc (_id e) (g (dumped e)).

End ArrayOperators.

(** [{"$push": {"collaborators": v}}] *)
Definition push_id (v : PyObjectId) (l : list PyObjectId) : list PyObjectId :=
  (l ++ [v])%list.

Definition on_activities (f : list (SubDoc Activity.t) → list (SubDoc Activity.t))
    (d : TripDoc.t) : TripDoc.t :=
  TripDoc.with_activities (f (TripDoc.activities d)) d.

Definition on_expenses (f : list (SubDoc Expense.t) → list (SubDoc Expense.t))
    (d : TripDoc.t) : TripDoc.t :=
  TripDoc.with_expenses (f (TripDoc.expenses d)) d.

Definition on_packing_items
    (f : list (SubDoc PackingItem.t) → list (SubDoc PackingItem.t))
    (d : TripDoc.t) : TripDoc.t :=
  TripDoc.with_packing_items (f (TripDoc.packing_items d)) d.

Definition on_collaborators (f : list PyObjectId → list PyObjectId)
    (d : TripDoc.t) : TripDoc.t :=
  TripDoc.with_collaborators (f (TripDoc.collaborators d)) d.

(** ** Handlers as computations over the database

    A handler reads and writes the database and either returns a value
    or raises [HTTPException(status_code, detail)]. *)

Inductive Result (A : Type) : Type :=
  | Ok (a : A)
  | HTTPException (status_code : Z) (detail : string).
Arguments Ok {A} _.
Arguments HTTPException {A} _ _.

Definition Handler (A : Type) : Type := Database → Result A * Database.

Definition ret {A} (a : A) : Handler A := fun db => (Ok a, db).

Definition bind {A B} (c : Handler A) (k : A → Handler B) : Handler B :=
  fun db =>
    match c db with
    | (Ok a, db') => k a db'
    | (HTTPException s d, db') => (HTTPException s d, db')
    end.

Definition raise {A} (status_code : Z) (detail : string) : Handler A :=
  fun db => (HTTPException status_code detail, db).

(** [if cond: raise HTTPException(status_code, detail)] *)
Definition raise_if (cond : bool) (status_code : Z) (detail : string) : Handler unit :=
  if cond then raise status_code detail else ret tt.

Declare Scope handler_scope.
Delimit Scope handler_scope with handler.
Notation "x <- c ;; k" := (bind c (fun x => k))
  (at level 100, c at next level, right associativity) : handler_scope.
Notation "c ;;; k" := (bind c (fun _ => k))
  (at level 100, right associativity) : handler_scope.
Local Open Scope handler_scope.

(** [await db.trips.find_one({"_id": oid})] *)
Definition find_one_trip (oid : ObjectId.t) : Handler (option TripDoc.t) :=
  fun db => (Ok (trips db !! oid), db).

(** [await db.trips.update_one({"_id": oid}, update)] *)
Definition update_one_trip (oid : ObjectId.t) (update : TripDoc.t → TripDoc.t)
    : Handler unit :=
  fun db => (Ok tt, with_trips (alter update oid (trips db)) db).

(** [await db.trips.delete_one({"_id": oid})] *)
Definition delete_one_trip (oid : ObjectId.t) : Handler unit :=
  fun db => (Ok tt, with_trips (delete oid (trips db)) db).

(** [await db.trips.insert_one(doc)], the driver having drawn [oid] for
    the new document. *)
Definition insert_one_trip (oid : ObjectId.t) (doc : TripDoc.t) : Handler unit :=
  fun db => (Ok tt, with_trips (<[oid := doc]> (trips db)) db).

(** [await db.users.find_one({"email": e})] *)
Definition find_one_user_by_email (e : string) : Handler (option User.t) :=
  fun db => (Ok (List.find (fun u => bool_decide (User.email u = e)) (users db)), db).

(** [db.activities.find({"trip_id": oid})] and its like on
    [db.expenses], each read to the end and validated. *)
Definition find_activities_of (oid : ObjectId.t) : Handler (list Activity.t) :=
  fun db =>
    (Ok (map (fun a => Activity_ (linked_doc a))
             (List.filter (fun a => bool_decide (trip_id_of a = oid)) (activities db))),
     db).

Definition find_expenses_of (oid : ObjectId.t) : Handler (list Expense.t) :=
  fun db =>
    (Ok (map (fun e => Expense_ (linked_doc e))
             (List.filter (fun e => bool_decide (trip_id_of e = oid)) (expenses db))),
     db).

(** [cursor.sort("created_at", -1)]: by insertion, latest first. *)
Fixpoint insert_latest_first (p : ObjectId.t * TripDoc.t)
    (l : list (ObjectId.t * TripDoc.t)) : list (ObjectId.t * TripDoc.t) :=
  match l with
  | [] => [p]
  | q :: r =>
      if TripDoc.created_at (snd q) <=? TripDoc.created_at (snd p)
      then p :: q :: r
      else q :: insert_latest_first p r
  end.

Definition sort_latest_first (l : list (ObjectId.t * TripDoc.t))
    : list (ObjectId.t * TripDoc.t) :=
  fold_right insert_latest_first [] l.

(** [db.trips.find(query).sort("created_at", -1)], read to the end;
    [query] is given as the test it makes of a document.  The order the
    store would return the documents in without the sort is not
    specified; it is taken to be that of [map_to_list]. *)
Definition find_trips_latest_first (query : TripDoc.t → bool)
    : Handler (list (ObjectId.t * TripDoc.t)) :=
  fun db =>
    (Ok (sort_latest_first
           (List.filter (fun p => query (snd p)) (map_to_list (trips db)))),
     db).

(** The test every handler of a trip's readers and sub-resource writers
    makes before it proceeds:
    [trip_obj.owner_id != current_user.id and
     current_user.id not in trip_obj.collaborators]. *)
Definition access_denied (trip_obj : Trip.t) (current_user : User.t) : bool :=
  negb (bool_decide (Trip.owner_id trip_obj = User.id current_user))
  && negb (bool_decide (User.id current_user ∈ Trip.collaborators trip_obj)).

(** The test of the owner-only handlers:
    [trip_obj.owner_id != current_user.id]. *)
Definition not_owner (trip_obj : Trip.t) (current_user : User.t) : bool :=
  negb (bool_decide (Trip.owner_id trip_obj = User.id current_user)).

(** ** [routers/trips_router.py] *)

(** [datetime.utcnow()] is read twice by [create_trip]; the two readings
    and the identifier [insert_one] reports are inputs of the model.
    The answer is built from the dictionary the handler holds, not from
    the store: its datetimes are Python's, the request's and the two
    readings to the microsecond, where the store keeps the millisecond.
    A [datetime] here has the store's resolution only, so of the
    answer's four datetimes the model holds what the store keeps and not
    the digits below the millisecond by which the answer differs from a
    later read. *)
Definition create_trip (trip : TripCreate.t) (current_user : User.t)
    (now1 now2 : datetime) (inserted_id : ObjectId.t) : Handler Trip.t :=
  let trip_dict :=
    TripDoc.mk (TripCreate.title trip) (TripCreate.destination trip)
               (TripCreate.start_date trip) (TripCreate.end_date trip)
               (TripCreate.budget trip) (User.id current_user)
               [] [] [] [] (Some EmptyString) now1 now2 in
  insert_one_trip inserted_id trip_dict ;;;
  ret (Trip_ inserted_id trip_dict).

(** The query of [get_user_trips]:
    [{"$or": [{"owner_id": id}, {"collaborators": id}]}]; on an array
    field, equality with a value holds when the array contains it. *)
Definition owner_or_collaborator (id : PyObjectId) (d : TripDoc.t) : bool :=
  bool_decide (TripDoc.owner_id d = id)
  || bool_decide (id ∈ TripDoc.collaborators d).

Definition get_user_trips (current_user : User.t) : Handler (list Trip.t) :=
  found <- find_trips_latest_first (owner_or_collaborator (User.id current_user)) ;;
  ret (map (fun trip => Trip_ (fst trip) (snd trip)) found).

Definition get_trip (trip_id : string) (current_user : User.t) : Handler Trip.t :=
  raise_if (negb (ObjectId.is_valid trip_id)) 400 "Invalid trip ID" ;;;
  trip <- find_one_trip (ObjectId.of_string trip_id) ;;
  match trip with
  | None => raise 404 "Trip not found"
  | Some trip =>
      let trip_obj := Trip_ (ObjectId.of_string trip_id) trip in
      raise_if (access_denied trip_obj current_user) 403 "Access denied" ;;;
      ret trip_obj
  end.

(** [update_data]: the fields of the request that are not [None]. *)
Definition update_data_is_empty (trip_update : TripUpdate.t) : bool :=
  match trip_update with
  | TripUpdate.mk None None None None None None => true
  | _ => false
  end.

(** [{"$set": update_data}], [update_data] carrying ["updated_at"]. *)
Definition set_update_data (trip_update : TripUpdate.t) (now : datetime)
    (d : TripDoc.t) : TripDoc.t :=
  TripDoc.mk
    (default (TripDoc.title d) (TripUpdate.title trip_update))
    (default (TripDoc.destination d) (TripUpdate.destination trip_update))
    (default (TripDoc.start_date d) (TripUpdate.start_date trip_update))
    (default (TripDoc.end_date d) (TripUpdate.end_date trip_update))
    (default (TripDoc.budget d) (TripUpdate.budget trip_update))
    (TripDoc.owner_id d)
    (TripDoc.collaborators d)
    (TripDoc.activities d)
    (TripDoc.expenses d)
    (TripDoc.packing_items d)
    (match TripUpdate.notes trip_update with
     | Some n => Some n
     | None => TripDoc.notes d
     end)
    (TripDoc.created_at d)
    now.

(** The closing [Trip] of [update_trip] and [join_trip] is built from a
    second [find_one]; were it to return [None], the construction would
    fail and the framework would answer 500. *)
Definition reload_trip (oid : ObjectId.t) : Handler Trip.t :=
  updated_trip <- find_one_trip oid ;;
  match updated_trip with
  | None => raise 500 "Internal Server Error"
  | Some updated_trip => ret (Trip_ oid updated_trip)
  end.

Definition update_trip (trip_id : string) (trip_update : TripUpdate.t)
    (current_user : User.t) (now : datetime) : Handler Trip.t :=
  raise_if (negb (ObjectId.is_valid trip_id)) 400 "Invalid trip ID" ;;;
  trip <- find_one_trip (ObjectId.of_string trip_id) ;;
  match trip with
  | None => raise 404 "Trip not found"
  | Some trip =>
      let trip_obj := Trip_ (ObjectId.of_string trip_id) trip in
      raise_if (not_owner trip_obj current_user)
               403 "Only trip owner can update trip details" ;;;
      (if update_data_is_empty trip_update then ret tt
       else update_one_trip (ObjectId.of_string trip_id)
                            (set_update_data trip_update now)) ;;;
      reload_trip (ObjectId.of_string trip_id)
  end.

Definition delete_trip (trip_id : string) (current_user : User.t) : Handler string :=
  raise_if (negb (ObjectId.is_valid trip_id)) 400 "Invalid trip ID" ;;;
  trip <- find_one_trip (ObjectId.of_string trip_id) ;;
  match trip with
  | None => raise 404 "Trip not found"
  | Some trip =>
      let trip_obj := Trip_ (ObjectId.of_string trip_id) trip in
      raise_if (not_owner trip_obj current_user)
               403 "Only trip owner can delete trip" ;;;
      delete_one_trip (ObjectId.of_string trip_id) ;;;
      ret "Trip deleted successfully"
  end.

Definition add_collaborator (trip_id : string) (user_email : string)
    (current_user : User.t) : Handler string :=
  raise_if (negb (ObjectId.is_valid trip_id)) 400 "Invalid trip ID" ;;;
  trip <- find_one_trip (ObjectId.of_string trip_id) ;;
  match trip with
  | None => raise 404 "Trip not found"
  | Some trip =>
      let trip_obj := Trip_ (ObjectId.of_string trip_id) trip in
      raise_if (not_owner trip_obj current_user)
               403 "Only trip owner can add collaborators" ;;;
      user <- find_one_user_by_email user_email ;;
      match user with
      | None => raise 404 "User not found"
      | Some user_obj =>
          (if negb (bool_decide (User.id user_obj ∈ Trip.collaborators trip_obj))
           then update_one_trip (ObjectId.of_string trip_id)
                                (on_collaborators (push_id (User.id user_obj)))
           else ret tt) ;;;
          ret "Collaborator added successfully"
      end
  end.

Definition join_trip (trip_id : string) (current_user : User.t) : Handler Trip.t :=
  raise_if (negb (ObjectId.is_valid trip_id)) 400 "Invalid trip ID" ;;;
  trip <- find_one_trip (ObjectId.of_string trip_id) ;;
  match trip with
  | None => raise 404 "Trip not found"
  | Some trip =>
      let trip_obj := Trip_ (ObjectId.of_string trip_id) trip in
      raise_if (bool_decide (Trip.owner_id trip_obj = User.id current_user))
               400 "You are already the owner of this trip" ;;;
      raise_if (bool_decide (User.id current_user ∈ Trip.collaborators trip_obj))
               400 "You are already a collaborator of this trip" ;;;
      update_one_trip (ObjectId.of_string trip_id)
                      (on_collaborators (push_id (User.id current_user))) ;;;
      reload_trip (ObjectId.of_string trip_id)
  end.

(** *** The export handlers

    What [services/export_service.py] renders is taken as given: the
    three rendering functions are fields of [ExportService], and the two
    switches the handlers consult are those of [config.Settings]. *)

Record Settings := mkSettings {
  enable_pdf_export : bool;
  enable_calendar_export : bool
}.

Record ExportService := mkExportService {
  generate_trip_pdf : Trip.t → list Activity.t → list Expense.t → string;
  generate_calendar_ics : Trip.t → list Activity.t → string;
  export_trip_data : Trip.t → list Activity.t → list Expense.t → string
}.

(** [Response(content=..., media_type=..., headers={"Content-Disposition": ...})] *)
Record Response := mkResponse {
  content : string;
  media_type : string;
  content_disposition : string
}.

(** Whether [v.encode("latin-1")] succeeds: every character of [v] is
    at most U+00FF.  Among the UTF-8 bytes of a string, a character
    above U+00FF shows as a byte of 0xC4 or more. *)
Definition latin_1 (v : string) : bool :=
  forallb (fun c => (nat_of_ascii c <? 196)%nat) (list_ascii_of_string v).

(** [s.replace(' ', '_')] *)
Fixpoint replace_spaces (s : string) : string :=
  match s with
  | EmptyString => EmptyString
  | String c r =>
      String (if bool_decide (c = " "%char) then "_"%char else c) (replace_spaces r)
  end.

(** Building the response.  Starlette encodes each header value as
    latin-1 when [Response(...)] is called; the [UnicodeEncodeError] of
    a value that has no such encoding leaves the handler, and the
    framework answers 500. *)
Definition Response_ (content media_type content_disposition : string)
    : Handler Response :=
  raise_if (negb (latin_1 content_disposition)) 500 "Internal Server Error" ;;;
  ret (mkResponse content media_type content_disposition).

Definition export_trip_pdf (settings : Settings) (export_service : ExportService)
    (trip_id : string) (current_user : User.t) : Handler Response :=
  raise_if (negb (enable_pdf_export settings)) 403 "PDF export is disabled" ;;;
  raise_if (negb (ObjectId.is_valid trip_id)) 400 "Invalid trip ID" ;;;
  trip <- find_one_trip (ObjectId.of_string trip_id) ;;
  match trip with
  | None => raise 404 "Trip not found"
  | Some trip =>
      let trip_obj := Trip_ (ObjectId.of_string trip_id) trip in
      raise_if (access_denied trip_obj current_user) 403 "Access denied" ;;;
      activities <- find_activities_of (ObjectId.of_string trip_id) ;;
      expenses <- find_expenses_of (ObjectId.of_string trip_id) ;;
      let pdf_data := generate_trip_pdf export_service trip_obj activities expenses in
      Response_ pdf_data "application/pdf"
                ("attachment; filename=" ++ replace_spaces (Trip.title trip_obj)
                 ++ "_report.pdf")
  end.

Definition export_trip_calendar (settings : Settings) (export_service : ExportService)
    (trip_id : string) (current_user : User.t) : Handler Response :=
  raise_if (negb (enable_calendar_export settings)) 403 "Calendar export is disabled" ;;;
  raise_if (negb (ObjectId.is_valid trip_id)) 400 "Invalid trip ID" ;;;
  trip <- find_one_trip (ObjectId.of_string trip_id) ;;
  match trip with
  | None => raise 404 "Trip not found"
  | Some trip =>
      let trip_obj := Trip_ (ObjectId.of_string trip_id) trip in
      raise_if (access_denied trip_obj current_user) 403 "Access denied" ;;;
      activities <- find_activities_of (ObjectId.of_string trip_id) ;;
      let ics_content := generate_calendar_ics export_service trip_obj activities in
      Response_ ics_content "text/calendar"
                ("attachment; filename=" ++ replace_spaces (Trip.title trip_obj)
                 ++ "_calendar.ics")
  end.

Definition export_trip_json (export_service : ExportService)
    (trip_id : string) (current_user : User.t) : Handler Response :=
  raise_if (negb (ObjectId.is_valid trip_id)) 400 "Invalid trip ID" ;;;
  trip <- find_one_trip (ObjectId.of_string trip_id) ;;
  match trip with
  | None => raise 404 "Trip not found"
  | Some trip =>
      let trip_obj := Trip_ (ObjectId.of_string trip_id) trip in
      raise_if (access_denied trip_obj current_user) 403 "Access denied" ;;;
      activities <- find_activities_of (ObjectId.of_string trip_id) ;;
      expenses <- find_expenses_of (ObjectId.of_string trip_id) ;;
      let json_data := export_trip_data export_service trip_obj activities expenses in
      Response_ json_data "application/json"
                ("attachment; filename=" ++ replace_spaces (Trip.title trip_obj)
                 ++ "_data.json")
  end.

(** ** [routers/activities_router.py]

    [new_id] stands for the value of the handler's call [ObjectId()]. *)

Definition create_activity (trip_id : string) (activity : Activity.t)
    (current_user : User.t) (new_id : ObjectId.t) : Handler Activity.t :=
  raise_if (negb (ObjectId.is_valid trip_id)) 400 "Invalid trip ID" ;;;
  trip <- find_one_trip (ObjectId.of_string trip_id) ;;
  match trip with
  | None => raise 404 "Trip not found"
  | Some trip =>
      let trip_obj := Trip_ (ObjectId.of_string trip_id) trip in
      raise_if (access_denied trip_obj current_user) 403 "Access denied" ;;;
      let activity_dict := mkSubDoc new_id activity in
      update_one_trip (ObjectId.of_string trip_id)
                      (on_activities (push activity_dict)) ;;;
      ret (Activity_ activity_dict)
  end.

Definition get_trip_activities (trip_id : string) (current_user : User.t)
    : Handler (list Activity.t) :=
  raise_if (negb (ObjectId.is_valid trip_id)) 400 "Invalid trip ID" ;;;
  trip <- find_one_trip (ObjectId.of_string trip_id) ;;
  match trip with
  | None => raise 404 "Trip not found"
  | Some trip =>
      let trip_obj := Trip_ (ObjectId.of_string trip_id) trip in
      raise_if (access_denied trip_obj current_user) 403 "Access denied" ;;;
      ret (Trip.activities trip_obj)
  end.

Definition update_activity (trip_id activity_id : string)
    (activity_update : Activity.t) (current_user : User.t) : Handler Activity.t :=
  raise_if (negb (ObjectId.is_valid trip_id) || negb (ObjectId.is_valid activity_id))
           400 "Invalid ID" ;;;
  trip <- find_one_trip (ObjectId.of_string trip_id) ;;
  match trip with
  | None => raise 404 "Trip not found"
  | Some trip =>
      let trip_obj := Trip_ (ObjectId.of_string trip_id) trip in
      raise_if (access_denied trip_obj current_user) 403 "Access denied" ;;;
      let activity_dict := mkSubDoc (ObjectId.of_string activity_id) activity_update in
      update_one_trip (ObjectId.of_string trip_id)
        (on_activities (positional (ObjectId.of_string activity_id)
                                   (set_element activity_dict))) ;;;
      ret (Activity_ activity_dict)
  end.

Definition delete_activity (trip_id activity_id : string)
    (current_user : User.t) : Handler string :=
  raise_if (negb (ObjectId.is_valid trip_id) || negb (ObjectId.is_valid activity_id))
           400 "Invalid ID" ;;;
  trip <- find_one_trip (ObjectId.of_string trip_id) ;;
  match trip with
  | None => raise 404 "Trip not found"
  | Some trip =>
      let trip_obj := Trip_ (ObjectId.of_string trip_id) trip in
      raise_if (access_denied trip_obj current_user) 403 "Access denied" ;;;
      update_one_trip (ObjectId.of_string trip_id)
        (on_activities (pull (ObjectId.of_string activity_id))) ;;;
      ret "Activity deleted successfully"
  end.

(** One entry of the body of a reorder request; [activity_id] is
    [order_data.get("activity_id")], [None] when it is missing or not a
    string, and the entry is taken to carry an integer under ["order"]. *)
Record OrderData := mkOrderData {
  activity_id : option string;
  order : Z
}.

(** [for x in l: body(x)] *)
Fixpoint for_each {A} (l : list A) (body : A → Handler unit) : Handler unit :=
  match l with
  | [] => ret tt
  | x :: r => body x ;;; for_each r body
  end.

Definition reorder_activities (trip_id : string) (activity_orders : list OrderData)
    (current_user : User.t) : Handler string :=
  raise_if (negb (ObjectId.is_valid trip_id)) 400 "Invalid trip ID" ;;;
  trip <- find_one_trip (ObjectId.of_string trip_id) ;;
  match trip with
  | None => raise 404 "Trip not found"
  | Some trip =>
      let trip_obj := Trip_ (ObjectId.of_string trip_id) trip in
      raise_if (access_denied trip_obj current_user) 403 "Access denied" ;;;
      for_each activity_orders (fun order_data =>
        let new_order := order order_data in
        match activity_id order_data with
        | Some activity_id =>
            if ObjectId.is_valid activity_id
            then update_one_trip (ObjectId.of_string trip_id)
                   (on_activities (positional (ObjectId.of_string activity_id)
                                     (set_key (Activity.with_order new_order))))
            else ret tt
        | None => ret tt
        end) ;;;
      ret "Activities reordered successfully"
  end.

(** ** [routers/expenses_router.py] *)

Definition create_expense (trip_id : string) (expense : Expense.t)
    (current_user : User.t) (new_id : ObjectId.t) : Handler Expense.t :=
  raise_if (negb (ObjectId.is_valid trip_id)) 400 "Invalid trip ID" ;;;
  trip <- find_one_trip (ObjectId.of_string trip_id) ;;
  match trip with
  | None => raise 404 "Trip not found"
  | Some trip =>
      let trip_obj := Trip_ (ObjectId.of_string trip_id) trip in
      raise_if (access_denied trip_obj current_user) 403 "Access denied" ;;;
      let expense_dict := mkSubDoc new_id expense in
      update_one_trip (ObjectId.of_string trip_id)
                      (on_expenses (push expense_dict)) ;;;
      ret (Expense_ expense_dict)
  end.

Definition get_trip_expenses (trip_id : string) (current_user : User.t)
    : Handler (list Expense.t) :=
  raise_if (negb (ObjectId.is_valid trip_id)) 400 "Invalid trip ID" ;;;
  trip <- find_one_trip (ObjectId.of_string trip_id) ;;
  match trip with
  | None => raise 404 "Trip not found"
  | Some trip =>
      let trip_obj := Trip_ (ObjectId.of_string trip_id) trip in
      raise_if (access_denied trip_obj current_user) 403 "Access denied" ;;;
      ret (Trip.expenses trip_obj)
  end.

Definition update_expense (trip_id expense_id : string)
    (expense_update : Expense.t) (current_user : User.t) : Handler Expense.t :=
  raise_if (negb (ObjectId.is_valid trip_id) || negb (ObjectId.is_valid expense_id))
           400 "Invalid ID" ;;;
  trip <- find_one_trip (ObjectId.of_string trip_id) ;;
  match trip with
  | None => raise 404 "Trip not found"
  | Some trip =>
      let trip_obj := Trip_ (ObjectId.of_string trip_id) trip in
      raise_if (access_denied trip_obj current_user) 403 "Access denied" ;;;
      let expense_dict := mkSubDoc (ObjectId.of_string expense_id) expense_update in
      update_one_trip (ObjectId.of_string trip_id)
        (on_expenses (positional (ObjectId.of_string expense_id)
                                 (set_element expense_dict))) ;;;
      ret (Expense_ expense_dict)
  end.

Definition delete_expense (trip_id expense_id : string)
    (current_user : User.t) : Handler string :=
  raise_if (negb (ObjectId.is_valid trip_id) || negb (ObjectId.is_valid expense_id))
           400 "Invalid ID" ;;;
  trip <- find_one_trip (ObjectId.of_string trip_id) ;;
  match trip with
  | None => raise 404 "Trip not found"
  | Some trip =>
      let trip_obj := Trip_ (ObjectId.of_string trip_id) trip in
      raise_if (access_denied trip_obj current_user) 403 "Access denied" ;;;
      update_one_trip (ObjectId.of_string trip_id)
        (on_expenses (pull (ObjectId.of_string expense_id))) ;;;
      ret "Expense deleted successfully"
  end.

(** [sum(expense.amount for expense in trip_obj.expenses)]: Python's
    [sum] starts from 0 and adds from the left. *)
Definition sum_amounts (expenses : list Expense.t) : float :=
  fold_left (fun acc expense => (acc + Expense.amount expense)%float) expenses 0%float.

(** The body of the loop that fills [category_totals]. *)
Definition add_to_category (category_totals : gmap string float)
    (expense : Expense.t) : gmap string float :=
  let category := Expense.category expense in
  match category_totals !! category with
  | Some total => <[category := (total + Expense.amount expense)%float]> category_totals
  | None => <[category := Expense.amount expense]> category_totals
  end.

Definition category_totals (expenses : list Expense.t) : gmap string float :=
  fold_left add_to_category expenses ∅.

Record ExpenseSummary := mkExpenseSummary {
  summary_budget : float;
  total_spent : float;
  remaining : float;
  category_breakdown : gmap string float
}.

Definition get_expense_summary (trip_id : string) (current_user : User.t)
    : Handler ExpenseSummary :=
  raise_if (negb (ObjectId.is_valid trip_id)) 400 "Invalid trip ID" ;;;
  trip <- find_one_trip (ObjectId.of_string trip_id) ;;
  match trip with
  | None => raise 404 "Trip not found"
  | Some trip =>
      let trip_obj := Trip_ (ObjectId.of_string trip_id) trip in
      raise_if (access_denied trip_obj current_user) 403 "Access denied" ;;;
      let total_spent := sum_amounts (Trip.expenses trip_obj) in
      let budget := Trip.budget trip_obj in
      let remaining := (budget - total_spent)%float in
      ret (mkExpenseSummary budget total_spent remaining
                            (category_totals (Trip.expenses trip_obj)))
  end.

(** ** [routers/packing_router.py] *)

Definition create_packing_item (trip_id : string) (item : PackingItem.t)
    (current_user : User.t) (new_id : ObjectId.t) : Handler PackingItem.t :=
  raise_if (negb (ObjectId.is_valid trip_id)) 400 "Invalid trip ID" ;;;
  trip <- find_one_trip (ObjectId.of_string trip_id) ;;
  match trip with
  | None => raise 404 "Trip not found"
  | Some trip =>
      let trip_obj := Trip_ (ObjectId.of_string trip_id) trip in
      raise_if (access_denied trip_obj current_user) 403 "Access denied" ;;;
      let item_dict := mkSubDoc new_id item in
      update_one_trip (ObjectId.of_string trip_id)
                      (on_packing_items (push item_dict)) ;;;
      ret (PackingItem_ item_dict)
  end.

Definition get_trip_packing_items (trip_id : string) (current_user : User.t)
    : Handler (list PackingItem.t) :=
  raise_if (negb (ObjectId.is_valid trip_id)) 400 "Invalid trip ID" ;;;
  trip <- find_one_trip (ObjectId.of_string trip_id) ;;
  match trip with
  | None => raise 404 "Trip not found"
  | Some trip =>
      let trip_obj := Trip_ (ObjectId.of_string trip_id) trip in
      raise_if (access_denied trip_obj current_user) 403 "Access denied" ;;;
      ret (Trip.packing_items trip_obj)
  end.

Definition update_packing_item (trip_id item_id : string)
    (item_update : PackingItem.t) (current_user : User.t) : Handler PackingItem.t :=
  raise_if (negb (ObjectId.is_valid trip_id) || negb (ObjectId.is_valid item_id))
           400 "Invalid ID" ;;;
  trip <- find_one_trip (ObjectId.of_string trip_id) ;;
  match trip with
  | None => raise 404 "Trip not found"
  | Some trip =>
      let trip_obj := Trip_ (ObjectId.of_string trip_id) trip in
      raise_if (access_denied trip_obj current_user) 403 "Access denied" ;;;
      let item_dict := mkSubDoc (ObjectId.of_string item_id) item_update in
      update_one_trip (ObjectId.of_string trip_id)
        (on_packing_items (positional (ObjectId.of_string item_id)
                                      (set_element item_dict))) ;;;
      ret (PackingItem_ item_dict)
  end.

Definition delete_packing_item (trip_id item_id : string)
    (current_user : User.t) : Handler string :=
  raise_if (negb (ObjectId.is_valid trip_id) || negb (ObjectId.is_valid item_id))
           400 "Invalid ID" ;;;
  trip <- find_one_trip (ObjectId.of_string trip_id) ;;
  match trip with
  | None => raise 404 "Trip not found"
  | Some trip =>
      let trip_obj := Trip_ (ObjectId.of_string trip_id) trip in
      raise_if (access_denied trip_obj current_user) 403 "Access denied" ;;;
      update_one_trip (ObjectId.of_string trip_id)
        (on_packing_items (pull (ObjectId.of_string item_id))) ;;;
      ret "Packing item deleted successfully"
  end.

(** The loop of [toggle_packing_item] returns at the first item whose
    [str(item.id)] equals the path parameter as it was sent. *)
Definition toggle_packing_item (trip_id item_id : string)
    (current_user : User.t) : Handler bool :=
  raise_if (negb (ObjectId.is_valid trip_id) || negb (ObjectId.is_valid item_id))
           400 "Invalid ID" ;;;
  trip <- find_one_trip (ObjectId.of_string trip_id) ;;
  match trip with
  | None => raise 404 "Trip not found"
  | Some trip =>
      let trip_obj := Trip_ (ObjectId.of_string trip_id) trip in
      raise_if (access_denied trip_obj current_user) 403 "Access denied" ;;;
      match List.find (fun item => bool_decide (PackingItem.id item = item_id))
                      (Trip.packing_items trip_obj) with
      | Some item =>
          let new_packed_status := negb (PackingItem.packed item) in
          update_one_trip (ObjectId.of_string trip_id)
            (on_packing_items (positional (ObjectId.of_string item_id)
                                 (set_key (PackingItem.with_packed new_packed_status)))) ;;;
          ret new_packed_status
      | None => raise 404 "Packing item not found"
      end
  end.

Record PackingCategory := mkPackingCategory {
  items : list PackingItem.t;
  packed_count : Z;
  total_count : Z
}.

(** The body of the loop that groups the items. *)
Definition add_to_group (categories : gmap string PackingCategory)
    (item : PackingItem.t) : gmap string PackingCategory :=
  let category := PackingItem.category item in
  let group := default (mkPackingCategory [] 0 0) (categories !! category) in
  <[category := mkPackingCategory
                  (items group ++ [item])%list
                  (if PackingItem.packed item then packed_count group + 1
                   else packed_count group)
                  (total_count group + 1)]> categories.

Definition get_packing_categories (trip_id : string) (current_user : User.t)
    : Handler (gmap string PackingCategory) :=
  raise_if (negb (ObjectId.is_valid trip_id)) 400 "Invalid trip ID" ;;;
  trip <- find_one_trip (ObjectId.of_string trip_id) ;;
  match trip with
  | None => raise 404 "Trip not found"
  | Some trip =>
      let trip_obj := Trip_ (ObjectId.of_string trip_id) trip in
      raise_if (access_denied trip_obj current_user) 403 "Access denied" ;;;
      ret (fold_left add_to_group (Trip.packing_items trip_obj) ∅)
  end.

(** * The specification's vocabulary, and examples *)

(** [canAccess] and [canManage] are the specification's two predicates,
    written as it words them. *)

Definition canAccess (T : Trip.t) (U : PyObjectId) : Prop :=
  U = Trip.owner_id T ∨ U ∈ Trip.collaborators T.

Definition canManage (T : Trip.t) (U : PyObjectId) : Prop :=
  U = Trip.owner_id T.

(** Sums of amounts.  Floating-point addition is not associative, so a
    sum is read in the order of the list: from 0 for a whole list, and
    from its first amount for the non-empty list of one category. *)
Definition float_sum (l : list float) : float :=
  fold_left PrimFloat.add l 0%float.

Definition float_sum_from_first (l : list float) : option float :=
  match l with
  | [] => None
  | a :: r => Some (fold_left PrimFloat.add r a)
  end.

Definition amounts_in_category (c : string) (expenses : list Expense.t) : list float :=
  map Expense.amount
      (List.filter (fun e => bool_decide (Expense.category e = c)) expenses).

(** The trip, the user and the database of the specification's example:
    three expenses of 100 and 50 on food and 30 on transport, against a
    budget of 500. *)
Module SummaryExample.
Definition trip_id : string := "64b7f3a2c9e1d4f5a6b7c8d9".
Definition owner : User.t :=
  User.mk "64b7f3a2c9e1d4f5a6b7c801" "ana@example.org" "ana" None "h" 0 None.
Definition expenses : list (SubDoc Expense.t) :=
  [ mkSubDoc "64b7f3a2c9e1d4f5a6b7c811"
      (Expense.mk "64b7f3a2c9e1d4f5a6b7c8a1" "lunch" 100%float "food" 1 (Some EmptyString));
    mkSubDoc "64b7f3a2c9e1d4f5a6b7c812"
      (Expense.mk "64b7f3a2c9e1d4f5a6b7c8a2" "snack" 50%float "food" 2 (Some EmptyString));
    mkSubDoc "64b7f3a2c9e1d4f5a6b7c813"
      (Expense.mk "64b7f3a2c9e1d4f5a6b7c8a3" "bus" 30%float "transport" 3 None) ].
Definition trip : TripDoc.t :=
  TripDoc.mk "Lisbon" "Lisbon" 10 20 500%float (User.id owner) [] []
             expenses [] (Some EmptyString) 5 5.
Definition db : Database :=
  mkDatabase {[ ObjectId.of_string trip_id := trip ]} [owner] [] [].
Definition summary : ExpenseSummary :=
  mkExpenseSummary 500%float 180%float 320%float
    (<["food" := 150%float]> (<["transport" := 30%float]> ∅)).
End SummaryExample.

(** What a caller sees of a failure: the status code and the detail. *)
Definition error_of {A} (r : Result A * Database) : option (Z * string) :=
  match fst r with
  | Ok _ => None
  | HTTPException status_code detail => Some (status_code, detail)
  end.

(** The handlers that read a trip or one of its embedded collections, or
    write to one of the collections, each with the arguments it takes
    besides the trip identifier and the user. *)
Inductive GuardedCall : Type :=
  | GetTrip
  | ExportTripPdf
  | ExportTripCalendar
  | ExportTripJson
  | CreateActivity (activity : Activity.t) (new_id : ObjectId.t)
  | GetTripActivities
  | UpdateActivity (activity_id : string) (activity_update : Activity.t)
  | DeleteActivity (activity_id : string)
  | ReorderActivities (activity_orders : list OrderData)
  | CreateExpense (expense : Expense.t) (new_id : ObjectId.t)
  | GetTripExpenses
  | UpdateExpense (expense_id : string) (expense_update : Expense.t)
  | DeleteExpense (expense_id : string)
  | GetExpenseSummary
  | CreatePackingItem (item : PackingItem.t) (new_id : ObjectId.t)
  | GetTripPackingItems
  | UpdatePackingItem (item_id : string) (item_update : PackingItem.t)
  | DeletePackingItem (item_id : string)
  | TogglePackingItem (item_id : string)
  | GetPackingCategories.

(** The failure, if any, and the database a call leaves. *)
Definition observe {A} (r : Result A * Database) : option (Z * string) * Database :=
  (error_of r, snd r).

Definition run_guarded (settings : Settings) (export_service : ExportService)
    (c : GuardedCall) (trip_id : string) (current_user : User.t)
    (db : Database) : option (Z * string) * Database :=
  match c with
  | GetTrip => observe (get_trip trip_id current_user db)
  | ExportTripPdf =>
      observe (export_trip_pdf settings export_service trip_id current_user db)
  | ExportTripCalendar =>
      observe (export_trip_calendar settings export_service trip_id current_user db)
  | ExportTripJson => observe (export_trip_json export_service trip_id current_user db)
  | CreateActivity a n => observe (create_activity trip_id a current_user n db)
  | GetTripActivities => observe (get_trip_activities trip_id current_user db)
  | UpdateActivity x a => observe (update_activity trip_id x a current_user db)
  | DeleteActivity x => observe (delete_activity trip_id x current_user db)
  | ReorderActivities l => observe (reorder_activities trip_id l current_user db)
  | CreateExpense e n => observe (create_expense trip_id e current_user n db)
  | GetTripExpenses => observe (get_trip_expenses trip_id current_user db)
  | UpdateExpense x e => observe (update_expense trip_id x e current_user db)
  | DeleteExpense x => observe (delete_expense trip_id x current_user db)
  | GetExpenseSummary => observe (get_expense_summary trip_id current_user db)
  | CreatePackingItem p n => observe (create_packing_item trip_id p current_user n db)
  | GetTripPackingItems => observe (get_trip_packing_items trip_id current_user db)
  | UpdatePackingItem x p => observe (update_packing_item trip_id x p current_user db)
  | DeletePackingItem x => observe (delete_packing_item trip_id x current_user db)
  | TogglePackingItem x => observe (toggle_packing_item trip_id x current_user db)
  | GetPackingCategories => observe (get_packing_categories trip_id current_user db)
  end.

(** The identifier of the sub-resource a call names in its path, if it
    names one. *)
Definition path_sub_id (c : GuardedCall) : option string :=
  match c with
  | UpdateActivity x _ | DeleteActivity x
  | UpdateExpense x _ | DeleteExpense x
  | UpdatePackingItem x _ | DeletePackingItem x | TogglePackingItem x => Some x
  | _ => None
  end.

(** The sub-resource identifier in the path, if there is one, is well
    formed. *)
Definition sub_id_well_formed (c : GuardedCall) : bool :=
  match path_sub_id c with
  | Some x => ObjectId.is_valid x
  | None => true
  end.

(** The export a call asks for, if it asks for one, is switched on. *)
Definition export_enabled (settings : Settings) (c : GuardedCall) : bool :=
  match c with
  | ExportTripPdf => enable_pdf_export settings
  | ExportTripCalendar => enable_calendar_export settings
  | _ => true
  end.

(** The owner-only handlers and the detail each gives when it refuses. *)
Inductive OwnerCall : Type :=
  | UpdateTrip (trip_update : TripUpdate.t) (now : datetime)
  | DeleteTrip
  | AddCollaborator (user_email : string).

Definition run_owner_only (c : OwnerCall) (trip_id : string) (current_user : User.t)
    (db : Database) : option (Z * string) * Database :=
  match c with
  | UpdateTrip u now => observe (update_trip trip_id u current_user now db)
  | DeleteTrip => observe (delete_trip trip_id current_user db)
  | AddCollaborator e => observe (add_collaborator trip_id e current_user db)
  end.


(** A small world for examples: Ana owns a trip to Lisbon, Ben is a
    collaborator, Cy is neither. *)
Module Sample.
Definition ana : User.t :=
  User.mk "64b7f3a2c9e1d4f5a6b7c801" "ana@example.org" "ana" None "h1" 1 None.
Definition ben : User.t :=
  User.mk "64b7f3a2c9e1d4f5a6b7c802" "ben@example.org" "ben" (Some "Ben") "h2" 2 None.
Definition cy : User.t :=
  User.mk "64b7f3a2c9e1d4f5a6b7c803" "cy@example.org" "cy" None "h3" 3 None.
Definition trip_id : string := "64b7f3a2c9e1d4f5a6b7c8d9".
Definition museum : SubDoc Activity.t :=
  mkSubDoc "64b7f3a2c9e1d4f5a6b7c821"
    (Activity.mk "64b7f3a2c9e1d4f5a6b7c8b1" "Museum" "10:00" "Belem" "activity"
                 (Some EmptyString) (Some 12%float) 1 0).
Definition dinner : SubDoc Activity.t :=
  mkSubDoc "64b7f3a2c9e1d4f5a6b7c822"
    (Activity.mk "64b7f3a2c9e1d4f5a6b7c8b2" "Dinner" "20:00" "Alfama" "food"
                 None (Some 40%float) 1 1).
Definition passport : SubDoc PackingItem.t :=
  mkSubDoc "64b7f3a2c9e1d4f5a6b7c831"
    (PackingItem.mk "64b7f3a2c9e1d4f5a6b7c8c1" "Passport" "documents" false (Some EmptyString)).
Definition trip : TripDoc.t :=
  TripDoc.mk "Lisbon" "Lisbon" 10 20 500%float (User.id ana) [User.id ben]
             [museum; dinner] SummaryExample.expenses [passport] (Some EmptyString) 5 5.
Definition db : Database :=
  mkDatabase {[ ObjectId.of_string trip_id := trip ]} [ana; ben; cy] [] [].
Definition settings : Settings := mkSettings true true.
Definition export_service : ExportService :=
  mkExportService (fun _ _ _ => "pdf") (fun _ _ => "ics") (fun _ _ _ => "json").
(** The database before any trip exists, and the trip Ana creates in it. *)
Definition db0 : Database := mkDatabase ∅ [ana; ben; cy] [] [].
Definition lisbon : TripCreate.t := TripCreate.mk "Lisbon" "Lisbon" 10 20 500%float.
End Sample.

(** Databases related trip by trip: the same users and side
    collections, the same trip identifiers, and each trip related to
    itself by [R].  Every handler's write is an [update_one] on one trip
    document, so a relation every such update respects is respected by
    the handler. *)
Definition preserved (R : TripDoc.t → TripDoc.t → Prop) (db db' : Database) : Prop :=
  users db' = users db
  ∧ activities db' = activities db
  ∧ expenses db' = expenses db
  ∧ ∀ oid, option_Forall2 R (trips db !! oid) (trips db' !! oid).

(** The function the loop of [reorder_activities] applies, entry by
    entry, to the stored array. *)
Definition apply_order (l : list (SubDoc Activity.t)) (order_data : OrderData)
    : list (SubDoc Activity.t) :=
  match activity_id order_data with
  | Some activity_id =>
      if ObjectId.is_valid activity_id
      then positional (ObjectId.of_string activity_id)
                      (set_key (Activity.with_order (order order_data))) l
      else l
  | None => l
  end.

Definition apply_orders (activity_orders : list OrderData)
    (l : list (SubDoc Activity.t)) : list (SubDoc Activity.t) :=
  fold_left apply_order activity_orders l.

Inductive Collection : Type := Activities | Expenses | PackingItems.

(** The embedded collection a call may write to; [None] for the calls
    that only read. *)
Definition written_collection (c : GuardedCall) : option Collection :=
  match c with
  | CreateActivity _ _ | UpdateActivity _ _ | DeleteActivity _
  | ReorderActivities _ => Some Activities
  | CreateExpense _ _ | UpdateExpense _ _ | DeleteExpense _ => Some Expenses
  | CreatePackingItem _ _ | UpdatePackingItem _ _ | DeletePackingItem _
  | TogglePackingItem _ => Some PackingItems
  | _ => None
  end.

(** [d'] is [d] outside the collection [coll]: every scalar field is the
    same and so is every embedded collection other than [coll]. *)
Definition same_outside (coll : option Collection) (d d' : TripDoc.t) : Prop :=
  TripDoc.title d' = TripDoc.title d
  ∧ TripDoc.destination d' = TripDoc.destination d
  ∧ TripDoc.start_date d' = TripDoc.start_date d
  ∧ TripDoc.end_date d' = TripDoc.end_date d
  ∧ TripDoc.budget d' = TripDoc.budget d
  ∧ TripDoc.owner_id d' = TripDoc.owner_id d
  ∧ TripDoc.collaborators d' = TripDoc.collaborators d
  ∧ TripDoc.notes d' = TripDoc.notes d
  ∧ TripDoc.created_at d' = TripDoc.created_at d
  ∧ TripDoc.updated_at d' = TripDoc.updated_at d
  ∧ (coll ≠ Some Activities → TripDoc.activities d' = TripDoc.activities d)
  ∧ (coll ≠ Some Expenses → TripDoc.expenses d' = TripDoc.expenses d)
  ∧ (coll ≠ Some PackingItems → TripDoc.packing_items d' = TripDoc.packing_items d).

Definition same_updated_at (d d' : TripDoc.t) : Prop :=
  TripDoc.updated_at d' = TripDoc.updated_at d.

(** The three public operations on an existing trip's details and
    membership, with their arguments. *)
Inductive PublicOp : Type :=
  | OpUpdateTrip (trip_id : string) (trip_update : TripUpdate.t)
                 (current_user : User.t) (now : datetime)
  | OpAddCollaborator (trip_id user_email : string) (current_user : User.t)
  | OpJoinTrip (trip_id : string) (current_user : User.t).

Definition run_public (db : Database) (op : PublicOp) : Database :=
  match op with
  | OpUpdateTrip trip_id trip_update current_user now =>
      snd (update_trip trip_id trip_update current_user now db)
  | OpAddCollaborator trip_id user_email current_user =>
      snd (add_collaborator trip_id user_email current_user db)
  | OpJoinTrip trip_id current_user =>
      snd (join_trip trip_id current_user db)
  end.

Definition run_sequence (ops : list PublicOp) (db : Database) : Database :=
  fold_left run_public ops db.

Definition same_owner (d d' : TripDoc.t) : Prop :=
  TripDoc.owner_id d' = TripDoc.owner_id d.

(** The entry carries a well-formed identifier, and it denotes [x]. *)
Definition names (order_data : OrderData) (x : ObjectId.t) : bool :=
  match activity_id order_data with
  | Some s => ObjectId.is_valid s && bool_decide (x = ObjectId.of_string s)
  | None => false
  end.

(** The new order a request pairs with [x]: that of the last entry that
    names [x], if any does. *)
Definition paired_order (activity_orders : list OrderData) (x : ObjectId.t) : option Z :=
  fold_left (fun acc o => if names o x then Some (order o) else acc)
            activity_orders None.

(** [a'] is [a] in every field but [order]. *)
Definition same_but_order (a a' : Activity.t) : Prop :=
  Activity.id a' = Activity.id a
  ∧ Activity.title a' = Activity.title a
  ∧ Activity.time a' = Activity.time a
  ∧ Activity.location a' = Activity.location a
  ∧ Activity.activity_type a' = Activity.activity_type a
  ∧ Activity.notes a' = Activity.notes a
  ∧ Activity.cost a' = Activity.cost a
  ∧ Activity.day a' = Activity.day a.

Definition reordered (activity_orders : list OrderData) (e : SubDoc Activity.t)
    : SubDoc Activity.t :=
  match paired_order activity_orders (_id e) with
  | Some n => set_key (Activity.with_order n) e
  | None => e
  end.

(** The identifiers within each embedded collection of a trip are
    distinct. *)
Definition distinct_ids (d : TripDoc.t) : Prop :=
  NoDup (map _id (TripDoc.activities d))
  ∧ NoDup (map _id (TripDoc.expenses d))
  ∧ NoDup (map _id (TripDoc.packing_items d)).

(** The identifier a create call has drawn is not in use in the
    collection of [d] it would be added to. *)
Definition draws_fresh (c : GuardedCall) (d : TripDoc.t) : Prop :=
  match c with
  | CreateActivity _ new_id => new_id ∉ map _id (TripDoc.activities d)
  | CreateExpense _ new_id => new_id ∉ map _id (TripDoc.expenses d)
  | CreatePackingItem _ new_id => new_id ∉ map _id (TripDoc.packing_items d)
  | _ => True
  end.

(** A reorder request against the sample trip: the dinner first, an
    entry with a malformed identifier, the museum second (its identifier
    in capitals), an entry without identifier, and an entry for an
    identifier the trip does not hold. *)
Definition sample_orders : list OrderData :=
  [ mkOrderData (Some "64b7f3a2c9e1d4f5a6b7c822") 0;
    mkOrderData (Some "not-an-id") 7;
    mkOrderData (Some "64B7F3A2C9E1D4F5A6B7C821") 1;
    mkOrderData None 3;
    mkOrderData (Some "64b7f3a2c9e1d4f5a6b7c8ff") 9 ].

(** * More of the code, and more vocabulary *)

(** The items of a list that carry a category, in the list's order. *)
Definition in_category (c : string) (l : list PackingItem.t) : list PackingItem.t :=
  List.filter (fun item => bool_decide (PackingItem.category item = c)) l.

(** The calls served under [GET]. *)
Definition is_get (c : GuardedCall) : bool :=
  match c with
  | GetTrip | ExportTripPdf | ExportTripCalendar | ExportTripJson
  | GetTripActivities | GetTripExpenses | GetExpenseSummary
  | GetTripPackingItems | GetPackingCategories => true
  | _ => false
  end.

(** ** [models.py]: [PyObjectId.validate]

    The value handed to the validator is an [ObjectId], a [str], or
    something else; [None] stands for the [ValueError] it raises. *)

Inductive PyValue : Type :=
  | OfObjectId (oid : ObjectId.t)
  | OfStr (s : string)
  | OfOther.

#[global] Instance PyValue_eq_dec : EqDecision PyValue.
Proof. solve_decision. Defined.

Definition validate (v : PyValue) : option PyObjectId :=
  match v with
  | OfObjectId oid => Some (ObjectId.str oid)
  | OfStr s =>
      if ObjectId.is_valid s then Some (ObjectId.str (ObjectId.of_string s)) else None
  | OfOther => None
  end.

(** ** [main.py]: the WebSocket connection manager

    A [WebSocket] is an object compared by identity (starlette keeps
    [object.__eq__] for it); it is represented by a number.  The
    manager's state is its dictionary [active_connections].  Sending is
    the environment's: [fails c] tells whether [c.send_text] raises.
    Each method is taken as run to its end with no other coroutine
    touching the dictionary meanwhile, and [websocket.accept()] as
    succeeding. *)

Module ConnectionManager.

Definition WebSocket := nat.

(** [Dict[str, List[WebSocket]]] *)
Abbreviation t := (gmap string (list WebSocket)).

(** [ConnectionManager()] *)
Definition init : t := ∅.

(** [l.remove(x)]: the first element equal to [x] goes; [None] is the
    [ValueError] raised when there is none. *)
Fixpoint remove (x : WebSocket) (l : list WebSocket) : option (list WebSocket) :=
  match l with
  | [] => None
  | y :: r => if bool_decide (y = x) then Some r else cons y <$> remove x r
  end.

Definition connect (websocket : WebSocket) (trip_id : string) (self : t) : t :=
  let self :=
    if bool_decide (self !! trip_id = None) then <[trip_id := []]> self else self in
  alter (fun l => l ++ [websocket])%list trip_id self.

(** [None] is the [ValueError] that [remove] lets through. *)
Definition disconnect (websocket : WebSocket) (trip_id : string) (self : t) : option t :=
  match self !! trip_id with
  | Some l =>
      match remove websocket l with
      | None => None
      | Some l' =>
          if bool_decide (l' = []) then Some (delete trip_id self)
          else Some (<[trip_id := l']> self)
      end
  | None => Some self
  end.

(** How a run of [broadcast_to_trip] ends: it returns, or the
    [ValueError] of [remove] leaves it; [OutOfFuel] is the model's own,
    for a loop cut short. *)
Inductive Status : Type :=
  | Returned
  | RaisedValueError
  | OutOfFuel.

(** [for connection in l: ...] with [l] changed under the iterator: the
    iterator keeps an index [i] into the list as it is now, and stops
    when the index is past its end.  The result is how the loop ends,
    the list as it leaves it, and what was sent, each message with the
    connection it went to, in order. *)
Fixpoint broadcast_loop (fuel : nat) (fails : WebSocket → bool) (message : string)
    (i : nat) (l : list WebSocket) (sent : list (WebSocket * string))
    : Status * list WebSocket * list (WebSocket * string) :=
  match fuel with
  | O => (OutOfFuel, l, sent)
  | S fuel =>
      match l !! i with
      | None => (Returned, l, sent)
      | Some connection =>
          if fails connection
          then match remove connection l with
               | None => (RaisedValueError, l, sent)
               | Some l' => broadcast_loop fuel fails message (S i) l' sent
               end
          else broadcast_loop fuel fails message (S i) l
                              (sent ++ [(connection, message)])%list
      end
  end.

(** The list is changed in place, so the dictionary holds it as the loop
    leaves it.  A list of [n] connections is gone through in at most
    [n] rounds, and one more finds the end. *)
Definition broadcast_to_trip (fails : WebSocket → bool) (message : string)
    (trip_id : string) (self : t) : Status * t * list (WebSocket * string) :=
  match self !! trip_id with
  | Some l =>
      let '(status, l', sent) := broadcast_loop (S (length l)) fails message 0 l [] in
      (status, <[trip_id := l']> self, sent)
  | None => (Returned, self, [])
  end.

(** What the loop comes to on a list of distinct connections, told by
    recursion on the list: the connections that stay and those the
    message goes to.  A working connection is sent to and stays; one
    that fails goes, the next one moves into its place under the
    iterator, and is passed over: it stays and is not tried. *)
Fixpoint passes (fails : WebSocket → bool) (l : list WebSocket)
    : list WebSocket * list WebSocket :=
  match l with
  | [] => ([], [])
  | connection :: r =>
      if fails connection
      then match r with
           | [] => ([], [])
           | next :: r' => let '(kept, to) := passes fails r' in (next :: kept, to)
           end
      else let '(kept, to) := passes fails r in (connection :: kept, connection :: to)
  end.

End ConnectionManager.

(** ** [services/auth_service.py]

    The service works on the [users] and [password_resets] collections.
    A stored user carries its ["_id"] as the store has it, an [ObjectId]
    or a string, since the service queries by both; e-mail addresses are
    taken in the form [EmailStr] validation returns, so that a stored
    address passes validation unchanged.  [passlib]'s context is taken
    as given: [hash] with the salt it draws, and [verify].  The other
    environment inputs are arguments too: the identifier the driver
    draws, the reset token, and the clock, in milliseconds as the store
    keeps it.  A collection is the list of its documents in the order
    they were inserted, which is the order [find_one] looks through, and
    each function is taken as run to its end before the next starts. *)

Module AuthService.

(** What a function of the service raises: an [HTTPException], or the
    error of a model that fails to validate. *)
Inductive Raised : Type :=
  | HTTP (status_code : Z) (detail : string)
  | ValidationError.

Inductive Outcome (A : Type) : Type :=
  | Returns (a : A)
  | Raises (e : Raised).
Arguments Returns {A} _.
Arguments Raises {A} _.

Record CryptContext := mkCryptContext {
  hash : string → string → string;
  verify : string → string → bool
}.

Record UserCreate := mkUserCreate {
  create_email : string;
  create_username : string;
  create_name : option string;
  create_password : string
}.

(** A document of [users]. *)
Record UserDoc := mkUserDoc {
  user_id : PyValue;
  user_email : string;
  user_username : string;
  user_name : option string;
  user_hashed_password : string;
  user_created_at : datetime;
  user_profile : list (string * string);
  user_profile_picture : option string
}.

(** A document of [password_resets]. *)
Record PasswordReset := mkPasswordReset {
  reset_email : string;
  reset_token : string;
  reset_created_at : datetime;
  reset_expires_at : datetime
}.

Record Store := mkStore {
  users : list UserDoc;
  password_resets : list PasswordReset
}.

(** The [User] model built from a stored document; [None] is the
    validation error. *)
Definition User_ (doc : UserDoc) : option User.t :=
  id ← validate (user_id doc);
  Some (User.mk id (user_email doc) (user_username doc) (user_name doc)
                (user_hashed_password doc) (user_created_at doc)
                (user_profile_picture doc)).

(** [update_one(query, update)] and [delete_one(query)] on a collection:
    the first document the query matches. *)
Fixpoint update_one {A} (query : A → bool) (update : A → A) (l : list A) : list A :=
  match l with
  | [] => []
  | d :: r => if query d then update d :: r else d :: update_one query update r
  end.

Fixpoint delete_one {A} (query : A → bool) (l : list A) : list A :=
  match l with
  | [] => []
  | d :: r => if query d then r else d :: delete_one query r
  end.

Definition with_hashed_password (v : string) (d : UserDoc) : UserDoc :=
  mkUserDoc (user_id d) (user_email d) (user_username d) (user_name d) v
            (user_created_at d) (user_profile d) (user_profile_picture d).

Definition by_email (email : string) (d : UserDoc) : bool :=
  bool_decide (user_email d = email).

Definition validated {A} (v : option A) : Outcome A :=
  match v with
  | Some a => Returns a
  | None => Raises ValidationError
  end.

Definition authenticate_user (pwd_context : CryptContext) (email password : string)
    (store : Store) : Outcome (option User.t) :=
  match List.find (by_email email) (users store) with
  | None => Returns None
  | Some user =>
      if negb (verify pwd_context password (user_hashed_password user)) then Returns None
      else match User_ user with
           | Some u => Returns (Some u)
           | None => Raises ValidationError
           end
  end.

Definition get_user_by_email (email : string) (store : Store) : Outcome (option User.t) :=
  match List.find (by_email email) (users store) with
  | None => Returns None
  | Some user =>
      match User_ user with
      | Some u => Returns (Some u)
      | None => Raises ValidationError
      end
  end.

Definition create_user (pwd_context : CryptContext) (user : UserCreate)
    (salt : string) (now : datetime) (inserted_id : ObjectId.t) (store : Store)
    : Outcome User.t * Store :=
  match List.find (by_email (create_email user)) (users store) with
  | Some _ => (Raises (HTTP 400 "Email already registered"), store)
  | None =>
      let user_dict :=
        mkUserDoc (OfObjectId inserted_id) (create_email user) (create_username user)
                  (create_name user) (hash pwd_context (create_password user) salt)
                  now [] None in
      (validated (User_ user_dict),
       mkStore (users store ++ [user_dict]) (password_resets store))
  end.

Definition create_oauth_user (email username provider provider_id : string)
    (now : datetime) (inserted_id : ObjectId.t) (store : Store) : Outcome User.t * Store :=
  match List.find (by_email email) (users store) with
  | Some existing_user => (validated (User_ existing_user), store)
  | None =>
      let user_dict :=
        mkUserDoc (OfObjectId inserted_id) email username None EmptyString now
                  [("oauth_provider", provider); ("oauth_id", provider_id)] None in
      (validated (User_ user_dict),
       mkStore (users store ++ [user_dict]) (password_resets store))
  end.

(** [timedelta(hours=24)] *)
Definition hours_24 : Z := 24 * 60 * 60 * 1000.

(** [now1] and [now2] are the two readings of the clock. *)
Definition create_password_reset_request (email : string) (token : string)
    (now1 now2 : datetime) (store : Store) : Outcome string * Store :=
  match get_user_by_email email store with
  | Raises e => (Raises e, store)
  | Returns None => (Raises (HTTP 404 "User not found"), store)
  | Returns (Some _) =>
      let expiry := now1 + hours_24 in
      (Returns token,
       mkStore (users store)
               (password_resets store ++ [mkPasswordReset email token now2 expiry]))
  end.

Definition reset_password (pwd_context : CryptContext) (token new_password : string)
    (now : datetime) (salt : string) (store : Store) : Outcome bool * Store :=
  match List.find (fun r => bool_decide (reset_token r = token)
                            && bool_decide (now < reset_expires_at r))
                  (password_resets store) with
  | None => (Raises (HTTP 400 "Invalid or expired reset token"), store)
  | Some reset_request =>
      let hashed_password := hash pwd_context new_password salt in
      (Returns true,
       mkStore (update_one (by_email (reset_email reset_request))
                           (with_hashed_password hashed_password) (users store))
               (delete_one (fun r => bool_decide (reset_token r = token))
                           (password_resets store)))
  end.

(** What the router hands to [update_user_profile]: the two keys of
    [UserUpdateRequest], each absent, null, or set. [None] here is
    absent or null, which the function drops alike. *)
Record UpdateData := mkUpdateData {
  update_name : option string;
  update_profile_picture : option string
}.

Definition set_update_data (update_data : UpdateData) (d : UserDoc) : UserDoc :=
  mkUserDoc (user_id d) (user_email d) (user_username d)
            (match update_name update_data with
             | Some n => Some n
             | None => user_name d
             end)
            (user_hashed_password d) (user_created_at d) (user_profile d)
            (match update_profile_picture update_data with
             | Some p => Some p
             | None => user_profile_picture d
             end).

(** The filter [{"_id": user_id}] with [user_id] a [str]: it matches a
    document whose ["_id"] is that string. *)
Definition by_id (user_id : string) (d : UserDoc) : bool :=
  bool_decide (AuthService.user_id d = OfStr user_id).

Definition update_user_profile (user_id : string) (update_data : UpdateData)
    (store : Store) : Outcome User.t * Store :=
  match update_data with
  | mkUpdateData None None => (Raises (HTTP 400 "No data to update"), store)
  | _ =>
      match List.find (by_id user_id) (users store) with
      | None => (Raises (HTTP 404 "User not found"), store)
      | Some _ =>
          let store' :=
            mkStore (update_one (by_id user_id) (set_update_data update_data) (users store))
                    (password_resets store) in
          (match List.find (by_id user_id) (users store') with
           | Some updated_user => validated (User_ updated_user)
           | None => Raises ValidationError
           end, store')
      end
  end.

(** [result.modified_count > 0]: a document was matched and its stored
    hash was not the new one already. *)
Definition update_user_password (pwd_context : CryptContext) (user_id new_password : string)
    (salt : string) (store : Store) : bool * Store :=
  let hashed_password := hash pwd_context new_password salt in
  match List.find (by_id user_id) (users store) with
  | None => (false, store)
  | Some user =>
      (negb (bool_decide (user_hashed_password user = hashed_password)),
       mkStore (update_one (by_id user_id) (with_hashed_password hashed_password)
                           (users store))
               (password_resets store))
  end.

(** *** [routers/auth_router.py]

    [str_of] is what [str] gives for the exception caught. *)

(** [except Exception as e: raise HTTPException(status_code, prefix + str(e))] *)
Definition except_Exception {A} (str_of : Raised → string) (status_code : Z)
    (prefix : string) (body : Outcome A) : Outcome A :=
  match body with
  | Returns a => Returns a
  | Raises e => Raises (HTTP status_code (prefix ++ str_of e))
  end.

(** The same with [except HTTPException: raise] before it. *)
Definition except_other {A} (str_of : Raised → string) (status_code : Z)
    (prefix : string) (body : Outcome A) : Outcome A :=
  match body with
  | Returns a => Returns a
  | Raises (HTTP s d) => Raises (HTTP s d)
  | Raises e => Raises (HTTP status_code (prefix ++ str_of e))
  end.

Definition update_profile (str_of : Raised → string) (user_update : UpdateData)
    (current_user : User.t) (store : Store) : Outcome User.t * Store :=
  let '(updated_user, store) :=
    update_user_profile (User.id current_user) user_update store in
  (except_Exception str_of 400 "Failed to update profile: " updated_user, store).

Record PasswordChangeRequest := mkPasswordChangeRequest {
  current_password : string;
  new_password : string
}.

Definition change_password (pwd_context : CryptContext) (str_of : Raised → string)
    (password_data : PasswordChangeRequest) (current_user : User.t) (salt : string)
    (store : Store) : Outcome string * Store :=
  match authenticate_user pwd_context (User.email current_user)
                          (current_password password_data) store with
  | Raises e =>
      (except_other str_of 400 "Failed to change password: " (Raises e), store)
  | Returns None => (Raises (HTTP 400 "Current password is incorrect"), store)
  | Returns (Some _) =>
      let '(success, store) :=
        update_user_password pwd_context (User.id current_user)
                             (new_password password_data) salt store in
      (if success then Returns "Password updated successfully"
       else Raises (HTTP 400 "Failed to update password"), store)
  end.

End AuthService.

(** ** [routers/weather_router.py]

    [weather_service.get_weather_forecast] catches every exception and
    returns a dictionary or [None]; what it returns is the handler's
    input here, a dictionary being the list of its items.  [str_of] is
    what [str] gives for the exception caught. *)

(** [try: body except Exception as e: raise HTTPException(status_code, prefix + str(e))];
    an [HTTPException] is an [Exception]. *)
Definition try_except_Exception {A} (str_of : Z → string → string) (status_code : Z)
    (prefix : string) (body : Result A) : Result A :=
  match body with
  | Ok a => Ok a
  | HTTPException s d => HTTPException status_code (prefix ++ str_of s d)
  end.

Definition get_weather_forecast {V} (str_of : Z → string → string)
    (forecast : option (list (string * V))) : Result (list (string * V)) :=
  try_except_Exception str_of 500 "Failed to get weather forecast: "
    (match forecast with
     | Some (item :: items) => Ok (item :: items)
     | Some [] | None =>
         HTTPException 404 "Weather forecast not available for this location"
     end).

(** * Properties *)

(** ** The handlers' tests and the specification's predicates *)

Lemma access_denied_true_iff T current_user :
  access_denied T current_user = true ↔ ¬ canAccess T (User.id current_user).
Proof.
  unfold access_denied, canAccess.
  rewrite andb_true_iff, !negb_true_iff, !bool_decide_eq_false.
  split.
  - intros [Ho Hc] [H|H]; [apply Ho; symmetry; exact H | exact (Hc H)].
  - intros H. split; intros H'; apply H; [left; symmetry; exact H' | right; exact H'].
Qed.

Lemma access_denied_false_iff T current_user :
  access_denied T current_user = false ↔ canAccess T (User.id current_user).
Proof.
  unfold access_denied, canAccess.
  rewrite andb_false_iff, !negb_false_iff, !bool_decide_eq_true.
  split; (intros [H|H]; [left; symmetry; exact H | right; exact H]).
Qed.


Lemma with_trips_id db : with_trips (trips db) db = db.
Proof. destruct db; reflexivity. Qed.

Lemma Trip__owner_id oid d : Trip.owner_id (Trip_ oid d) = TripDoc.owner_id d.
Proof. reflexivity. Qed.

Lemma Trip__collaborators oid d : Trip.collaborators (Trip_ oid d) = TripDoc.collaborators d.
Proof. reflexivity. Qed.

(** ** Expense summary *)

Lemma sum_amounts_from acc (expenses : list Expense.t) :
  fold_left (fun a e => (a + Expense.amount e)%float) expenses acc
  = fold_left PrimFloat.add (map Expense.amount expenses) acc.
Proof.
  revert acc. induction expenses as [|e es IH]; intros acc; simpl.
  - reflexivity.
  - apply IH.
Qed.

Lemma sum_amounts_float_sum expenses :
  sum_amounts expenses = float_sum (map Expense.amount expenses).
Proof. apply sum_amounts_from. Qed.

(** The loop invariant of the category breakdown: what the dictionary
    holds for [c] after the loop has run over [expenses] from [m]. *)
Lemma category_loop_lookup (expenses : list Expense.t) (m : gmap string float) c :
  fold_left add_to_category expenses m !! c
  = match m !! c with
    | Some v => Some (fold_left PrimFloat.add (amounts_in_category c expenses) v)
    | None => float_sum_from_first (amounts_in_category c expenses)
    end.
Proof.
  revert m. induction expenses as [|e es IH]; intros m.
  - simpl. destruct (m !! c); reflexivity.
  - cbn [fold_left]. rewrite IH. unfold add_to_category, amounts_in_category.
    cbn [List.filter].
    destruct (decide (Expense.category e = c)) as [Heq|Hne].
    + rewrite (bool_decide_eq_true_2 _ Heq). cbn [map]. subst c.
      destruct (m !! Expense.category e) as [v|]; cbv zeta;
        rewrite lookup_insert_eq; reflexivity.
    + rewrite (bool_decide_eq_false_2 _ Hne).
      destruct (m !! Expense.category e) as [v|]; cbv zeta;
        rewrite lookup_insert_ne by assumption; reflexivity.
Qed.

Lemma category_totals_lookup expenses c :
  category_totals expenses !! c
  = float_sum_from_first (amounts_in_category c expenses).
Proof.
  unfold category_totals. rewrite category_loop_lookup, lookup_empty. reflexivity.
Qed.

(** C6. For a trip the user may access, the expense summary reports
    [total_spent] as the sum of the amounts of the trip's expenses,
    [remaining] as the budget minus it, and [category_breakdown] as the
    map that sends each category occurring among the expenses to the sum
    of the amounts of the expenses of that category (and no other
    category to anything); on the example of three expenses 100 and 50
    (food) and 30 (transport) with budget 500 it is
    total_spent 180, remaining 320, food 150, transport 30. *)
Theorem expense_summary_spec :
  (∀ trip_id current_user db trip,
      ObjectId.is_valid trip_id = true →
      trips db !! ObjectId.of_string trip_id = Some trip →
      canAccess (Trip_ (ObjectId.of_string trip_id) trip) (User.id current_user) →
      let T := Trip_ (ObjectId.of_string trip_id) trip in
      ∃ s, get_expense_summary trip_id current_user db = (Ok s, db)
           ∧ total_spent s = float_sum (map Expense.amount (Trip.expenses T))
           ∧ remaining s = (Trip.budget T - total_spent s)%float
           ∧ ∀ c, category_breakdown s !! c
                  = float_sum_from_first (amounts_in_category c (Trip.expenses T)))
  ∧ get_expense_summary SummaryExample.trip_id SummaryExample.owner SummaryExample.db
    = (Ok SummaryExample.summary, SummaryExample.db).
Proof.
  split.
  - intros trip_id current_user db trip Hvalid Hfind Hacc%access_denied_false_iff T.
    eexists. split.
    + unfold get_expense_summary, bind, raise_if, find_one_trip, ret.
      rewrite Hvalid. cbn [negb]. rewrite Hfind, Hacc. reflexivity.
    + cbn [total_spent remaining category_breakdown]. split; [|split].
      * apply sum_amounts_float_sum.
      * reflexivity.
      * intros c. apply category_totals_lookup.
  - vm_compute. reflexivity.
Qed.

Lemma expense_summary_spec_witness :
  ∃ s, get_expense_summary SummaryExample.trip_id SummaryExample.owner SummaryExample.db
       = (Ok s, SummaryExample.db)
       ∧ total_spent s = 180%float
       ∧ remaining s = 320%float
       ∧ category_breakdown s !! "food" = Some 150%float
       ∧ category_breakdown s !! "transport" = Some 30%float
       ∧ category_breakdown s !! "accommodation" = None.
Proof.
  destruct (proj1 expense_summary_spec SummaryExample.trip_id SummaryExample.owner
              SummaryExample.db SummaryExample.trip)
    as (s & Hs & Ht & Hr & Hc).
  - vm_compute. reflexivity.
  - vm_compute. reflexivity.
  - left. reflexivity.
  - exists s. split; [exact Hs|]. rewrite Hr, Ht, !Hc. vm_compute. repeat split.
Defined.

(** ** Access control *)

Lemma elem_of_insert_latest_first p q l :
  q ∈ insert_latest_first p l ↔ q = p ∨ q ∈ l.
Proof.
  induction l as [|x r IH]; cbn [insert_latest_first].
  - rewrite list_elem_of_singleton, elem_of_nil. tauto.
  - destruct (_ <=? _).
    + rewrite elem_of_cons. tauto.
    + rewrite !elem_of_cons, IH. tauto.
Qed.

Lemma elem_of_sort_latest_first q l : q ∈ sort_latest_first l ↔ q ∈ l.
Proof.
  induction l as [|x r IH]; cbn [sort_latest_first fold_right]; [tauto|].
  rewrite elem_of_insert_latest_first, elem_of_cons.
  unfold sort_latest_first in IH. rewrite IH. tauto.
Qed.

(** [get_user_trips] lists exactly the stored trips the user owns or
    collaborates on. *)
Lemma get_user_trips_lists current_user db :
  ∃ listed, get_user_trips current_user db = (Ok listed, db)
    ∧ ∀ T, T ∈ listed
           ↔ ∃ oid d, trips db !! oid = Some d ∧ T = Trip_ oid d
                      ∧ canAccess T (User.id current_user).
Proof.
  eexists. split; [reflexivity|]. intros T.
  rewrite list_elem_of_fmap. split.
  - intros ([oid d] & -> & Hin). exists oid, d.
    apply elem_of_sort_latest_first, list_elem_of_In, filter_In in Hin as [Hin Hq].
    apply list_elem_of_In, elem_of_map_to_list in Hin.
    split; [exact Hin|]. split; [reflexivity|].
    cbn [fst snd] in *. unfold owner_or_collaborator in Hq. unfold canAccess.
    rewrite Trip__owner_id, Trip__collaborators.
    apply orb_true_iff in Hq as [Hq|Hq]; apply bool_decide_eq_true in Hq;
      [left; symmetry; exact Hq | right; exact Hq].
  - intros (oid & d & Hd & -> & Hacc). exists (oid, d). split; [reflexivity|].
    apply elem_of_sort_latest_first, list_elem_of_In, filter_In. split.
    + apply list_elem_of_In, elem_of_map_to_list. exact Hd.
    + cbn [snd]. unfold owner_or_collaborator, canAccess in *.
      rewrite Trip__owner_id, Trip__collaborators in Hacc.
      apply orb_true_iff. destruct Hacc as [H|H]; [left|right];
        apply bool_decide_eq_true; [symmetry; exact H | exact H].
Qed.

(** The loop of [reorder_activities] never raises. *)
Lemma reorder_loop_ok oid (activity_orders : list OrderData) db :
  ∃ db',
    for_each activity_orders (fun order_data =>
      let new_order := order order_data in
      match activity_id order_data with
      | Some activity_id =>
          if ObjectId.is_valid activity_id
          then update_one_trip oid
                 (on_activities (positional (ObjectId.of_string activity_id)
                                   (set_key (Activity.with_order new_order))))
          else ret tt
      | None => ret tt
      end) db = (Ok tt, db').
Proof.
  revert db. induction activity_orders as [|o l IH]; intros db.
  - exists db. reflexivity.
  - cbn [for_each]. unfold bind at 1.
    destruct (activity_id o) as [x|]; [destruct (ObjectId.is_valid x)|];
      cbv zeta; unfold update_one_trip, ret; apply IH.
Qed.

Ltac unfold_handlers :=
  unfold get_trip, export_trip_pdf, export_trip_calendar, export_trip_json,
    create_activity, get_trip_activities, update_activity,
    delete_activity, reorder_activities, create_expense, get_trip_expenses,
    update_expense, delete_expense, get_expense_summary, create_packing_item,
    get_trip_packing_items, update_packing_item, delete_packing_item,
    toggle_packing_item, get_packing_categories,
    update_trip, delete_trip, add_collaborator, join_trip;
  unfold Response_.

(** Runs a handler up to the point where it has loaded the trip. *)
Ltac enter_handler Hvalid Hsub Hfind :=
  unfold bind, raise_if, find_one_trip, raise, ret;
  rewrite Hvalid;
  lazymatch type of Hsub with
  | true = true => idtac
  | _ => rewrite Hsub
  end;
  cbn [negb orb];
  rewrite Hfind.

Section Guarded.
Context (settings : Settings) (export_service : ExportService).
Context (trip_id : string) (current_user : User.t) (db : Database) (trip : TripDoc.t).
Hypothesis Hvalid : ObjectId.is_valid trip_id = true.
Hypothesis Hfind : trips db !! ObjectId.of_string trip_id = Some trip.


Lemma guarded_call_granted c :
  sub_id_well_formed c = true →
  export_enabled settings c = true →
  access_denied (Trip_ (ObjectId.of_string trip_id) trip) current_user = false →
  fst (run_guarded settings export_service c trip_id current_user db)
  ≠ Some (403, "Access denied").
Proof.
  unfold sub_id_well_formed. intros Hsub Hen Hden.
  destruct c; cbn [path_sub_id] in Hsub; cbn [export_enabled] in Hen;
    cbn [run_guarded]; unfold_handlers;
    try rewrite Hen; enter_handler Hvalid Hsub Hfind; rewrite Hden.
  all: try discriminate.
  all: try (destruct (negb (latin_1 _)); discriminate).
  - destruct (reorder_loop_ok (ObjectId.of_string trip_id) activity_orders db)
      as [db' Hloop].
    unfold ret in Hloop. rewrite Hloop. discriminate.
  - destruct (find _ _); discriminate.
Qed.



End Guarded.



(** ** Collaboration *)

(** C8. On an existing trip, [join_trip] by the owner fails with "already
    owner"; by a collaborator (the owner's case apart) it fails with
    "already collaborator"; in both cases the database is left as it
    was; and by anyone else it appends exactly that user to the trip's
    collaborators, changes nothing else, and returns the trip as updated. *)
Theorem join_trip_spec trip_id current_user db trip :
  ObjectId.is_valid trip_id = true →
  trips db !! ObjectId.of_string trip_id = Some trip →
  let oid := ObjectId.of_string trip_id in
  let U := User.id current_user in
  (U = TripDoc.owner_id trip →
     join_trip trip_id current_user db
     = (HTTPException 400 "You are already the owner of this trip", db))
  ∧ (U ≠ TripDoc.owner_id trip → U ∈ TripDoc.collaborators trip →
     join_trip trip_id current_user db
     = (HTTPException 400 "You are already a collaborator of this trip", db))
  ∧ (U ≠ TripDoc.owner_id trip → U ∉ TripDoc.collaborators trip →
     let updated := TripDoc.with_collaborators (TripDoc.collaborators trip ++ [U]) trip in
     join_trip trip_id current_user db
     = (Ok (Trip_ oid updated), with_trips (<[oid := updated]> (trips db)) db)).
Proof.
  intros Hvalid Hfind. cbv zeta.
  unfold join_trip, bind, raise_if, find_one_trip, raise, ret.
  rewrite Hvalid. cbn [negb]. rewrite Hfind.
  rewrite Trip__owner_id, Trip__collaborators.
  split; [|split].
  - intros Ho. rewrite bool_decide_eq_true_2 by (symmetry; exact Ho). reflexivity.
  - intros Ho Hc. rewrite bool_decide_eq_false_2 by (intros H; apply Ho; symmetry; exact H).
    rewrite (bool_decide_eq_true_2 _ Hc). reflexivity.
  - intros Ho Hc. rewrite bool_decide_eq_false_2 by (intros H; apply Ho; symmetry; exact H).
    rewrite (bool_decide_eq_false_2 _ Hc).
    unfold update_one_trip, reload_trip, bind, find_one_trip, ret.
    cbn [trips with_trips]. rewrite lookup_alter_eq, Hfind. cbn [fmap option_fmap option_map].
    unfold on_collaborators, push_id.
    rewrite <- (insert_id _ _ _ Hfind) at 1. rewrite alter_insert_eq.
    destruct db; reflexivity.
Qed.

Lemma join_trip_spec_witness :
  join_trip Sample.trip_id Sample.ana Sample.db
  = (HTTPException 400 "You are already the owner of this trip", Sample.db)
  ∧ join_trip Sample.trip_id Sample.ben Sample.db
    = (HTTPException 400 "You are already a collaborator of this trip", Sample.db)
  ∧ Trip.collaborators <$> (match fst (join_trip Sample.trip_id Sample.cy Sample.db) with
                           | Ok T => Some T
                           | HTTPException _ _ => None
                           end)
    = Some [User.id Sample.ben; User.id Sample.cy].
Proof.
  destruct (join_trip_spec Sample.trip_id Sample.ana Sample.db Sample.trip)
    as (Ha & _ & _); [vm_compute; reflexivity | vm_compute; reflexivity |].
  destruct (join_trip_spec Sample.trip_id Sample.ben Sample.db Sample.trip)
    as (_ & Hb & _); [vm_compute; reflexivity | vm_compute; reflexivity |].
  destruct (join_trip_spec Sample.trip_id Sample.cy Sample.db Sample.trip)
    as (_ & _ & Hc); [vm_compute; reflexivity | vm_compute; reflexivity |].
  split; [|split].
  - apply Ha. reflexivity.
  - apply Hb; [discriminate | apply list_elem_of_here].
  - rewrite Hc.
    + reflexivity.
    + discriminate.
    + intros H. apply list_elem_of_singleton in H. discriminate H.
Defined.

(** [add_collaborator] by the owner, for a user already listed, is a
    successful no-op. *)
Lemma add_collaborator_member trip_id user_email current_user db trip V :
  ObjectId.is_valid trip_id = true →
  trips db !! ObjectId.of_string trip_id = Some trip →
  TripDoc.owner_id trip = User.id current_user →
  List.find (fun u => bool_decide (User.email u = user_email)) (users db) = Some V →
  User.id V ∈ TripDoc.collaborators trip →
  add_collaborator trip_id user_email current_user db
  = (Ok "Collaborator added successfully", db).
Proof.
  intros Hvalid Hfind Ho Hu Hin.
  unfold add_collaborator, bind, raise_if, find_one_trip, find_one_user_by_email,
    raise, ret, not_owner.
  rewrite Hvalid. cbn [negb]. rewrite Hfind, Trip__owner_id, Trip__collaborators.
  rewrite (bool_decide_eq_true_2 _ Ho). cbn [negb]. rewrite Hu.
  rewrite (bool_decide_eq_true_2 _ Hin). reflexivity.
Qed.

(** [add_collaborator] by the owner, for a user not yet listed, appends
    the user. *)
Lemma add_collaborator_new trip_id user_email current_user db trip V :
  ObjectId.is_valid trip_id = true →
  trips db !! ObjectId.of_string trip_id = Some trip →
  TripDoc.owner_id trip = User.id current_user →
  List.find (fun u => bool_decide (User.email u = user_email)) (users db) = Some V →
  User.id V ∉ TripDoc.collaborators trip →
  add_collaborator trip_id user_email current_user db
  = (Ok "Collaborator added successfully",
     with_trips (<[ObjectId.of_string trip_id :=
                     TripDoc.with_collaborators (TripDoc.collaborators trip ++ [User.id V]) trip]>
                   (trips db)) db).
Proof.
  intros Hvalid Hfind Ho Hu Hin.
  unfold add_collaborator, bind, raise_if, find_one_trip, find_one_user_by_email,
    raise, ret, not_owner.
  rewrite Hvalid. cbn [negb]. rewrite Hfind, Trip__owner_id, Trip__collaborators.
  rewrite (bool_decide_eq_true_2 _ Ho). cbn [negb]. rewrite Hu.
  rewrite (bool_decide_eq_false_2 _ Hin). cbn [negb].
  unfold update_one_trip, on_collaborators, push_id.
  rewrite <- (insert_id _ _ _ Hfind) at 1. rewrite alter_insert_eq.
  reflexivity.
Qed.

(** C7. When the owner adds by e-mail a user who is already one of the
    trip's collaborators, [add_collaborator] succeeds and changes
    nothing; hence a second call with the same e-mail succeeds and leaves
    the database, and so the collaborators, as the first call left them. *)
Theorem add_collaborator_idempotent trip_id user_email current_user db trip V :
  ObjectId.is_valid trip_id = true →
  trips db !! ObjectId.of_string trip_id = Some trip →
  canManage (Trip_ (ObjectId.of_string trip_id) trip) (User.id current_user) →
  List.find (fun u => bool_decide (User.email u = user_email)) (users db) = Some V →
  (User.id V ∈ TripDoc.collaborators trip →
     add_collaborator trip_id user_email current_user db
     = (Ok "Collaborator added successfully", db))
  ∧ (let once := add_collaborator trip_id user_email current_user db in
     let twice := add_collaborator trip_id user_email current_user (snd once) in
     fst once = Ok "Collaborator added successfully"
     ∧ twice = (Ok "Collaborator added successfully", snd once)).
Proof.
  intros Hvalid Hfind Hman Hu. unfold canManage in Hman. rewrite Trip__owner_id in Hman.
  symmetry in Hman. split.
  - intros Hin. eapply add_collaborator_member; eassumption.
  - cbv zeta. destruct (decide (User.id V ∈ TripDoc.collaborators trip)) as [Hin|Hin].
    + rewrite (add_collaborator_member _ _ _ _ _ _ Hvalid Hfind Hman Hu Hin).
      split; [reflexivity|]. cbn [snd].
      eapply add_collaborator_member; eassumption.
    + rewrite (add_collaborator_new _ _ _ _ _ _ Hvalid Hfind Hman Hu Hin).
      split; [reflexivity|]. cbn [snd].
      eapply add_collaborator_member.
      * exact Hvalid.
      * cbn [trips with_trips]. apply lookup_insert_eq.
      * exact Hman.
      * exact Hu.
      * cbn [TripDoc.collaborators TripDoc.with_collaborators].
        apply elem_of_app. right. apply list_elem_of_here.
Qed.

Lemma add_collaborator_idempotent_witness :
  add_collaborator Sample.trip_id "ben@example.org" Sample.ana Sample.db
  = (Ok "Collaborator added successfully", Sample.db)
  ∧ (let once := add_collaborator Sample.trip_id "cy@example.org" Sample.ana Sample.db in
     add_collaborator Sample.trip_id "cy@example.org" Sample.ana (snd once)
     = (Ok "Collaborator added successfully", snd once)).
Proof.
  destruct (add_collaborator_idempotent Sample.trip_id "ben@example.org" Sample.ana
              Sample.db Sample.trip Sample.ben) as [Hben _];
    [vm_compute; reflexivity | vm_compute; reflexivity | reflexivity
    | vm_compute; reflexivity |].
  destruct (add_collaborator_idempotent Sample.trip_id "cy@example.org" Sample.ana
              Sample.db Sample.trip Sample.cy) as [_ [_ Hcy]];
    [vm_compute; reflexivity | vm_compute; reflexivity | reflexivity
    | vm_compute; reflexivity |].
  split.
  - apply Hben. apply list_elem_of_here.
  - exact Hcy.
Defined.

(** ** What a write leaves alone *)

Section Preserved.
Context (R : TripDoc.t → TripDoc.t → Prop).
Context (R_refl : ∀ d, R d d) (R_trans : ∀ d1 d2 d3, R d1 d2 → R d2 d3 → R d1 d3).

Lemma preserved_refl db : preserved R db db.
Proof.
  repeat split. intros oid. destruct (trips db !! oid); constructor. apply R_refl.
Qed.

Lemma preserved_trans db1 db2 db3 :
  preserved R db1 db2 → preserved R db2 db3 → preserved R db1 db3.
Proof.
  intros (Hu & Ha & He & Ht) (Hu' & Ha' & He' & Ht').
  repeat split; try congruence.
  intros oid. specialize (Ht oid). specialize (Ht' oid).
  destruct Ht as [x y Hxy|]; inversion Ht' as [y' z Hyz|]; subst; constructor.
  eapply R_trans; eassumption.
Qed.

Lemma preserved_alter oid f db :
  (∀ d, R d (f d)) →
  preserved R db (with_trips (alter f oid (trips db)) db).
Proof.
  intros Hf. repeat split. intros k. cbn [trips with_trips].
  rewrite lookup_alter. case_decide as Hk.
  - subst k. destruct (trips db !! oid); constructor. apply Hf.
  - destruct (trips db !! k); constructor. apply R_refl.
Qed.

End Preserved.

Lemma on_activities_same d : on_activities (fun l => l) d = d.
Proof. destruct d; reflexivity. Qed.

Lemma reorder_loop_result oid (activity_orders : list OrderData) db :
  for_each activity_orders (fun order_data =>
    let new_order := order order_data in
    match activity_id order_data with
    | Some activity_id =>
        if ObjectId.is_valid activity_id
        then update_one_trip oid
               (on_activities (positional (ObjectId.of_string activity_id)
                                 (set_key (Activity.with_order new_order))))
        else ret tt
    | None => ret tt
    end) db
  = (Ok tt,
     with_trips (alter (on_activities (apply_orders activity_orders)) oid (trips db)) db).
Proof.
  revert db. induction activity_orders as [|o l IH]; intros db.
  - cbn [for_each]. unfold ret, apply_orders. cbn [fold_left].
    rewrite alter_id by (intros; apply on_activities_same).
    rewrite with_trips_id. reflexivity.
  - cbn [for_each]. unfold bind at 1.
    assert (Hstep : ∀ db1 : Database,
      trips db1 = alter (on_activities (fun x => apply_order x o)) oid (trips db) →
      users db1 = users db → activities db1 = activities db → expenses db1 = expenses db →
      for_each l (fun order_data =>
        let new_order := order order_data in
        match activity_id order_data with
        | Some activity_id =>
            if ObjectId.is_valid activity_id
            then update_one_trip oid
                   (on_activities (positional (ObjectId.of_string activity_id)
                                     (set_key (Activity.with_order new_order))))
            else ret tt
        | None => ret tt
        end) db1
      = (Ok tt, with_trips (alter (on_activities (apply_orders (o :: l))) oid (trips db)) db)).
    { intros db1 Ht Hu Ha He. rewrite IH, Ht, alter_alter_eq.
      unfold with_trips. rewrite Hu, Ha, He. reflexivity. }
    unfold apply_order in Hstep.
    destruct (activity_id o) as [x|]; [destruct (ObjectId.is_valid x)|]; cbv zeta.
    + unfold update_one_trip at 1. apply Hstep; reflexivity.
    + unfold ret at 1. apply Hstep; try reflexivity.
      symmetry. apply alter_id. intros; apply on_activities_same.
    + unfold ret at 1. apply Hstep; try reflexivity.
      symmetry. apply alter_id. intros; apply on_activities_same.
Qed.

(** ** The frame of a sub-resource mutation *)

Lemma same_outside_refl coll d : same_outside coll d d.
Proof. unfold same_outside. repeat split. Qed.

Lemma same_outside_activities f d : same_outside (Some Activities) d (on_activities f d).
Proof. unfold same_outside. repeat split; intros H; try reflexivity; congruence. Qed.

Lemma same_outside_expenses f d : same_outside (Some Expenses) d (on_expenses f d).
Proof. unfold same_outside. repeat split; intros H; try reflexivity; congruence. Qed.

Lemma same_outside_packing_items f d :
  same_outside (Some PackingItems) d (on_packing_items f d).
Proof. unfold same_outside. repeat split; intros H; try reflexivity; congruence. Qed.

(** Splits a handler applied to an arbitrary request into its paths. *)
Ltac handler_paths :=
  unfold_handlers; unfold reload_trip;
  unfold bind, raise_if, find_one_trip, find_one_user_by_email, find_activities_of,
    find_expenses_of, update_one_trip, delete_one_trip, raise, ret;
  repeat (case_match; simplify_eq; cbn [fst snd] in *).

Lemma guarded_call_frame settings export_service c trip_id current_user db :
  preserved (same_outside (written_collection c)) db
    (snd (run_guarded settings export_service c trip_id current_user db)).
Proof.
  destruct c; cbn [run_guarded observe snd written_collection].
  all: try (handler_paths;
            first [ apply preserved_refl; apply same_outside_refl
                  | apply preserved_alter;
                    first [ apply same_outside_refl | apply same_outside_activities
                          | apply same_outside_expenses | apply same_outside_packing_items ] ]).
  (* reorder_activities *)
  unfold reorder_activities, bind, raise_if, find_one_trip, raise.
  destruct (negb (ObjectId.is_valid trip_id));
    [apply preserved_refl, same_outside_refl|].
  unfold ret at 1.
  destruct (trips db !! ObjectId.of_string trip_id);
    [|apply preserved_refl, same_outside_refl].
  destruct (access_denied _ _); [apply preserved_refl, same_outside_refl|].
  unfold ret at 1. rewrite reorder_loop_result. unfold ret. cbn [snd].
  apply preserved_alter; [apply same_outside_refl | apply same_outside_activities].
Qed.

Lemma collaboration_keeps_updated_at trip_id user_email current_user db :
  preserved same_updated_at db (snd (add_collaborator trip_id user_email current_user db))
  ∧ preserved same_updated_at db (snd (join_trip trip_id current_user db)).
Proof.
  split; handler_paths;
    first [ apply preserved_refl; intros ?; reflexivity
          | apply preserved_alter; intros ?; reflexivity ].
Qed.

Lemma update_trip_refreshes trip_id trip_update current_user now db trip :
  ObjectId.is_valid trip_id = true →
  trips db !! ObjectId.of_string trip_id = Some trip →
  TripDoc.owner_id trip = User.id current_user →
  update_data_is_empty trip_update = false →
  TripDoc.updated_at <$> trips (snd (update_trip trip_id trip_update current_user now db))
                           !! ObjectId.of_string trip_id
  = Some now.
Proof.
  intros Hvalid Hfind Ho Hne.
  unfold update_trip, bind, raise_if, find_one_trip, raise, ret, not_owner.
  rewrite Hvalid. cbn [negb]. rewrite Hfind, Trip__owner_id.
  rewrite (bool_decide_eq_true_2 _ Ho). cbn [negb]. rewrite Hne.
  unfold update_one_trip, reload_trip, bind, find_one_trip, ret.
  cbn [trips with_trips]. rewrite lookup_alter_eq, Hfind.
  cbn [fmap option_fmap option_map snd trips with_trips].
  rewrite lookup_alter_eq, Hfind. reflexivity.
Qed.

(** C10. A single add, update, delete, reorder or toggle on one of the
    three embedded collections (and, all the more, a read) leaves every
    trip in place with its title, destination, dates, budget, owner,
    collaborators, notes, [created_at] and [updated_at] as they were, and
    with its other two collections as they were; adding a collaborator
    and joining leave [updated_at] alone too, and a trip update by the
    owner that carries at least one field sets it. *)
Theorem sub_resource_frame :
  (∀ settings export_service c trip_id current_user db oid,
     let db' := snd (run_guarded settings export_service c trip_id current_user db) in
     match trips db !! oid with
     | Some d => ∃ d', trips db' !! oid = Some d'
                       ∧ same_outside (written_collection c) d d'
     | None => trips db' !! oid = None
     end)
  ∧ (∀ trip_id user_email current_user db oid d,
       trips db !! oid = Some d →
       (∃ d', trips (snd (add_collaborator trip_id user_email current_user db)) !! oid
              = Some d' ∧ TripDoc.updated_at d' = TripDoc.updated_at d)
       ∧ (∃ d', trips (snd (join_trip trip_id current_user db)) !! oid
                = Some d' ∧ TripDoc.updated_at d' = TripDoc.updated_at d))
  ∧ (∀ trip_id trip_update current_user now db trip,
       ObjectId.is_valid trip_id = true →
       trips db !! ObjectId.of_string trip_id = Some trip →
       TripDoc.owner_id trip = User.id current_user →
       update_data_is_empty trip_update = false →
       TripDoc.updated_at
         <$> trips (snd (update_trip trip_id trip_update current_user now db))
               !! ObjectId.of_string trip_id
       = Some now).
Proof.
  split; [|split].
  - intros settings export_service c trip_id current_user db oid db'.
    destruct (guarded_call_frame settings export_service c trip_id current_user db)
      as (_ & _ & _ & Ht).
    specialize (Ht oid). fold db' in Ht.
    inversion Ht as [d d' Hdd' Hd Hd'|Hd Hd'].
    + exists d'. split; [reflexivity | exact Hdd'].
    + reflexivity.
  - intros trip_id user_email current_user db oid d Hd.
    destruct (collaboration_keeps_updated_at trip_id user_email current_user db)
      as [(_ & _ & _ & Ha) (_ & _ & _ & Hj)].
    specialize (Ha oid). specialize (Hj oid). rewrite Hd in Ha, Hj.
    inversion Ha as [x d1 H1 E1 E1'|]; inversion Hj as [y d2 H2 E2 E2'|]; subst.
    split; [exists d1 | exists d2]; split; first [reflexivity | assumption].
  - apply update_trip_refreshes.
Qed.

Lemma sub_resource_frame_witness :
  TripDoc.updated_at
    <$> trips (snd (update_trip Sample.trip_id
                      (TripUpdate.mk (Some "Porto") None None None None None)
                      Sample.ana 99 Sample.db))
          !! ObjectId.of_string Sample.trip_id
  = Some 99.
Proof.
  apply (proj2 (proj2 sub_resource_frame) Sample.trip_id _ Sample.ana 99 Sample.db
           Sample.trip).
  - vm_compute. reflexivity.
  - vm_compute. reflexivity.
  - reflexivity.
  - reflexivity.
Defined.

(** ** The owner of a trip *)

Lemma run_public_same_owner db op : preserved same_owner db (run_public db op).
Proof.
  destruct op; cbn [run_public]; handler_paths;
    first [ apply preserved_refl; intros ?; reflexivity
          | apply preserved_alter; intros ?; reflexivity ].
Qed.

(** X7. The part of the invariant that holds: no sequence of trip updates,
    collaborator additions and joins removes a trip or changes its
    [owner_id]. *)
Lemma owner_id_immutable ops db oid d :
  trips db !! oid = Some d →
  ∃ d', trips (run_sequence ops db) !! oid = Some d'
        ∧ TripDoc.owner_id d' = TripDoc.owner_id d.
Proof.
  intros Hd.
  assert (H : preserved same_owner db (run_sequence ops db)).
  { clear Hd. revert db. induction ops as [|op ops IH]; intros db.
    - apply preserved_refl. intros ?; reflexivity.
    - cbn [run_sequence fold_left].
      eapply preserved_trans.
      + unfold same_owner. intros; congruence.
      + apply (run_public_same_owner db op).
      + apply (IH (run_public db op)). }
  destruct H as (_ & _ & _ & Ht). specialize (Ht oid). rewrite Hd in Ht.
  inversion Ht as [x d' Hdd' E E'|]; subst. exists d'. split; [reflexivity | exact Hdd'].
Qed.

(** C2. The other part of the invariant is broken: Ana creates a trip
    and then adds a collaborator by her own e-mail address;
    [add_collaborator] answers with success and her identifier, the
    trip's [owner_id], is now listed among the trip's collaborators.
    ([join_trip] refuses the owner; [add_collaborator] makes no such
    test.) *)
Theorem owner_becomes_collaborator :
  let oid := ObjectId.of_string Sample.trip_id in
  let db1 := snd (create_trip Sample.lisbon Sample.ana 5 5 oid Sample.db0) in
  let r := add_collaborator Sample.trip_id (User.email Sample.ana) Sample.ana db1 in
  fst r = Ok "Collaborator added successfully"
  ∧ ∃ d, trips (snd r) !! oid = Some d
         ∧ TripDoc.owner_id d = User.id Sample.ana
         ∧ TripDoc.collaborators d = [User.id Sample.ana]
         ∧ TripDoc.owner_id d ∈ TripDoc.collaborators d.
Proof.
  cbv zeta. split; [vm_compute; reflexivity|].
  eexists. split; [vm_compute; reflexivity|].
  split; [reflexivity|]. split; [reflexivity|].
  apply list_elem_of_here.
Qed.

(** ** Updating and deleting by identifier *)

Section Arrays.
Context {A : Type}.
Implicit Types (l : list (SubDoc A)) (x : ObjectId.t).

Lemma pull_absent x l : x ∉ map _id l → pull x l = l.
Proof.
  induction l as [|e r IH]; intros Hx; [reflexivity|].
  unfold pull in *. cbn [List.filter].
  rewrite bool_decide_eq_false_2.
  - cbn [negb]. f_equal. apply IH. intros H. apply Hx. cbn [map]. right. exact H.
  - intros He. apply Hx. cbn [map]. rewrite He. left.
Qed.

Lemma positional_absent x f l : x ∉ map _id l → positional x f l = l.
Proof.
  induction l as [|e r IH]; intros Hx; [reflexivity|].
  cbn [positional].
  rewrite bool_decide_eq_false_2.
  - f_equal. apply IH. intros H. apply Hx. cbn [map]. right. exact H.
  - intros He. apply Hx. cbn [map]. rewrite He. left.
Qed.

(** With distinct identifiers in the array, the positional operator
    reaches the one element that carries the identifier. *)
Lemma positional_NoDup x f l :
  NoDup (map _id l) →
  positional x f l = map (fun e => if bool_decide (_id e = x) then f e else e) l.
Proof.
  induction l as [|e r IH]; intros Hnd; [reflexivity|].
  cbn [map] in Hnd. apply NoDup_cons in Hnd as [Hnotin Hnd].
  cbn [positional map]. case_bool_decide as He.
  - f_equal. subst x. clear IH Hnd.
    induction r as [|e' r IH]; [reflexivity|].
    cbn [map]. rewrite bool_decide_eq_false_2.
    + f_equal. apply IH. intros H. apply Hnotin. cbn [map]. right. exact H.
    + intros He'. apply Hnotin. cbn [map]. rewrite He'. left.
  - f_equal. apply IH. exact Hnd.
Qed.

Lemma map_id_positional x f l :
  (∀ e, _id e = x → _id (f e) = x) → map _id (positional x f l) = map _id l.
Proof.
  intros Hf. induction l as [|e r IH]; [reflexivity|].
  cbn [positional]. case_bool_decide as He; cbn [map].
  - rewrite (Hf e He), He. reflexivity.
  - rewrite IH. reflexivity.
Qed.

Lemma NoDup_pull x l : NoDup (map _id l) → NoDup (map _id (pull x l)).
Proof.
  induction l as [|e r IH]; intros Hnd; [exact Hnd|].
  cbn [map] in Hnd. apply NoDup_cons in Hnd as [Hnotin Hnd].
  unfold pull in *. cbn [List.filter]. destruct (negb _); [|apply IH, Hnd].
  cbn [map]. apply NoDup_cons. split; [|apply IH, Hnd].
  intros Hin. apply Hnotin.
  apply list_elem_of_In, in_map_iff in Hin as (e' & He' & Hin).
  apply filter_In in Hin as [Hin _].
  apply list_elem_of_In, in_map_iff. exists e'. split; assumption.
Qed.

Lemma NoDup_push d l :
  _id d ∉ map _id l → NoDup (map _id l) → NoDup (map _id (push d l)).
Proof.
  intros Hfresh Hnd. unfold push. rewrite map_app. cbn [map].
  apply NoDup_app. split; [exact Hnd|]. split.
  - intros y Hy Hy'. apply list_elem_of_singleton in Hy'. subst y. exact (Hfresh Hy).
  - apply NoDup_singleton.
Qed.

End Arrays.

Lemma map_id_apply_orders os l : map _id (apply_orders os l) = map _id l.
Proof.
  revert l. induction os as [|o os IH]; intros l; [reflexivity|].
  unfold apply_orders in *. cbn [fold_left]. rewrite IH. unfold apply_order.
  destruct (activity_id o) as [s|]; [destruct (ObjectId.is_valid s)|]; try reflexivity.
  apply map_id_positional. intros e He. exact He.
Qed.

(** X8. Distinctness of identifiers is kept by every call, provided the
    identifier a create call has drawn is in use in no trip. *)
Lemma distinct_ids_kept settings export_service c trip_id current_user db :
  (∀ oid d, trips db !! oid = Some d → draws_fresh c d ∧ distinct_ids d) →
  ∀ oid d',
    trips (snd (run_guarded settings export_service c trip_id current_user db)) !! oid
    = Some d' →
    distinct_ids d'.
Proof.
  intros Hdb oid d'.
  assert (H : preserved (fun d d' => draws_fresh c d → distinct_ids d → distinct_ids d')
                db (snd (run_guarded settings export_service c trip_id current_user db))).
  { clear Hdb oid d'.
    destruct c; cbn [run_guarded observe snd draws_fresh].
    all: try (handler_paths;
              first [ apply preserved_refl; intros ?; cbv beta; intros _ ?; assumption
                    | apply preserved_alter; [intros ?; cbv beta; intros _ ?; assumption|];
                      intros ?; cbv beta; intros ? (? & ? & ?); repeat split;
                      cbn [on_activities on_expenses on_packing_items
                             TripDoc.activities TripDoc.expenses TripDoc.packing_items
                             TripDoc.with_activities TripDoc.with_expenses
                             TripDoc.with_packing_items];
                      first [ assumption
                            | apply NoDup_push; assumption
                            | apply NoDup_pull; assumption
                            | rewrite map_id_positional; [assumption|];
                              intros ? ?; first [reflexivity | assumption] ] ]).
    unfold reorder_activities, bind, raise_if, find_one_trip, raise.
    destruct (negb (ObjectId.is_valid trip_id));
      [apply preserved_refl; intros ?; cbv beta; intros _ ?; assumption|].
    unfold ret at 1.
    destruct (trips db !! ObjectId.of_string trip_id);
      [|apply preserved_refl; intros ?; cbv beta; intros _ ?; assumption].
    destruct (access_denied _ _); [apply preserved_refl; intros ?; cbv beta; intros _ ?; assumption|].
    unfold ret at 1. rewrite reorder_loop_result. unfold ret. cbn [snd].
    apply preserved_alter; [intros ?; cbv beta; intros _ ?; assumption|].
    intros d; cbv beta; intros _ (Ha & He & Hp). repeat split; try assumption.
    cbn [on_activities TripDoc.activities TripDoc.with_activities].
    rewrite map_id_apply_orders. exact Ha. }
  destruct H as (_ & _ & _ & Ht). specialize (Ht oid).
  intros Hd'. rewrite Hd' in Ht. inversion Ht as [d x Hdd' Hd E|]; subst.
  symmetry in Hd. destruct (Hdb oid d Hd) as [Hfresh Hdist]. exact (Hdd' Hfresh Hdist).
Qed.

Lemma map_PackingItem_id l :
  map PackingItem.id (map PackingItem_ l) = map _id l.
Proof. induction l as [|e r IH]; [reflexivity|]. cbn [map]. rewrite IH. reflexivity. Qed.

Lemma map_Activity_id l : map Activity.id (map Activity_ l) = map _id l.
Proof. induction l as [|e r IH]; [reflexivity|]. cbn [map]. rewrite IH. reflexivity. Qed.

(** C4. On a trip the user may access, deleting a packing item whose
    well-formed identifier none of the trip's packing items carries
    succeeds and leaves the database, and so the collection, exactly as
    it was; deleting a trip whose well-formed identifier no stored trip
    carries fails with 404 "Trip not found". *)
Theorem delete_absent_item_and_trip :
  (∀ trip_id item_id current_user db trip,
     ObjectId.is_valid trip_id = true →
     ObjectId.is_valid item_id = true →
     trips db !! ObjectId.of_string trip_id = Some trip →
     let T := Trip_ (ObjectId.of_string trip_id) trip in
     canAccess T (User.id current_user) →
     ObjectId.str (ObjectId.of_string item_id)
       ∉ map PackingItem.id (Trip.packing_items T) →
     delete_packing_item trip_id item_id current_user db
     = (Ok "Packing item deleted successfully", db))
  ∧ (∀ trip_id current_user db,
       ObjectId.is_valid trip_id = true →
       trips db !! ObjectId.of_string trip_id = None →
       delete_trip trip_id current_user db
       = (HTTPException 404 "Trip not found", db)).
Proof.
  split.
  - intros trip_id item_id current_user db trip Hvalid Hitem Hfind T Hacc Habs.
    apply access_denied_false_iff in Hacc.
    unfold delete_packing_item, bind, raise_if, find_one_trip, raise, ret.
    rewrite Hvalid, Hitem. cbn [negb orb]. rewrite Hfind. fold T. rewrite Hacc.
    unfold update_one_trip.
    subst T. cbn [Trip.packing_items Trip_] in Habs.
    rewrite map_PackingItem_id in Habs. unfold ObjectId.str in Habs.
    rewrite alter_id.
    + rewrite with_trips_id. reflexivity.
    + intros d Hd. rewrite Hfind in Hd. injection Hd as <-.
      unfold on_packing_items. rewrite (pull_absent _ _ Habs).
      destruct trip; reflexivity.
  - intros trip_id current_user db Hvalid Hfind.
    unfold delete_trip, bind, raise_if, find_one_trip, raise, ret.
    rewrite Hvalid. cbn [negb]. rewrite Hfind. reflexivity.
Qed.

Lemma delete_absent_item_and_trip_witness :
  delete_packing_item Sample.trip_id "64b7f3a2c9e1d4f5a6b7c8ff" Sample.ben Sample.db
  = (Ok "Packing item deleted successfully", Sample.db)
  ∧ delete_trip "64b7f3a2c9e1d4f5a6b7c8ff" Sample.ana Sample.db
    = (HTTPException 404 "Trip not found", Sample.db).
Proof.
  split.
  - apply (proj1 delete_absent_item_and_trip _ _ _ _ Sample.trip).
    + vm_compute. reflexivity.
    + vm_compute. reflexivity.
    + vm_compute. reflexivity.
    + right. apply list_elem_of_here.
    + intros H. vm_compute in H. apply list_elem_of_singleton in H. discriminate H.
  - apply (proj2 delete_absent_item_and_trip).
    + vm_compute. reflexivity.
    + vm_compute. reflexivity.
Defined.

(** Updating by an identifier the collection does not hold: the three
    update handlers answer with the value they were sent, as if it had
    been stored, and write nothing. *)
Lemma update_absent_succeeds trip_id x current_user db trip :
  ObjectId.is_valid trip_id = true →
  ObjectId.is_valid x = true →
  trips db !! ObjectId.of_string trip_id = Some trip →
  canAccess (Trip_ (ObjectId.of_string trip_id) trip) (User.id current_user) →
  (∀ v, ObjectId.of_string x ∉ map _id (TripDoc.activities trip) →
        update_activity trip_id x v current_user db
        = (Ok (Activity.with_id (ObjectId.of_string x) v), db))
  ∧ (∀ v, ObjectId.of_string x ∉ map _id (TripDoc.expenses trip) →
          update_expense trip_id x v current_user db
          = (Ok (Expense.with_id (ObjectId.of_string x) v), db))
  ∧ (∀ v, ObjectId.of_string x ∉ map _id (TripDoc.packing_items trip) →
          update_packing_item trip_id x v current_user db
          = (Ok (PackingItem.with_id (ObjectId.of_string x) v), db)).
Proof.
  intros Hvalid Hx Hfind Hacc%access_denied_false_iff.
  split; [|split]; intros v Habs;
    unfold update_activity, update_expense, update_packing_item,
      bind, raise_if, find_one_trip, raise, ret;
    rewrite Hvalid, Hx; cbn [negb orb]; rewrite Hfind, Hacc;
    unfold update_one_trip;
    (rewrite alter_id;
     [ rewrite with_trips_id; reflexivity
     | intros d Hd; rewrite Hfind in Hd; injection Hd as <-;
       unfold on_activities, on_expenses, on_packing_items;
       rewrite (positional_absent _ _ _ Habs); destruct trip; reflexivity ]).
Qed.

Lemma Trip__activities_on oid f d :
  Trip.activities (Trip_ oid (on_activities f d)) = map Activity_ (f (TripDoc.activities d)).
Proof. reflexivity. Qed.

Lemma Trip__expenses_on oid f d :
  Trip.expenses (Trip_ oid (on_expenses f d)) = map Expense_ (f (TripDoc.expenses d)).
Proof. reflexivity. Qed.

Lemma Trip__packing_items_on oid f d :
  Trip.packing_items (Trip_ oid (on_packing_items f d))
  = map PackingItem_ (f (TripDoc.packing_items d)).
Proof. reflexivity. Qed.

Lemma access_denied_on_activities oid f d u :
  access_denied (Trip_ oid (on_activities f d)) u = access_denied (Trip_ oid d) u.
Proof. reflexivity. Qed.

Lemma access_denied_on_expenses oid f d u :
  access_denied (Trip_ oid (on_expenses f d)) u = access_denied (Trip_ oid d) u.
Proof. reflexivity. Qed.

Lemma access_denied_on_packing_items oid f d u :
  access_denied (Trip_ oid (on_packing_items f d)) u = access_denied (Trip_ oid d) u.
Proof. reflexivity. Qed.

(** X9. Updating by an identifier the collection holds: the element is
    replaced by the value sent, whole, under the same identifier, and the
    other elements stay. *)
Lemma update_present_replaces trip_id x current_user db trip :
  ObjectId.is_valid trip_id = true →
  ObjectId.is_valid x = true →
  trips db !! ObjectId.of_string trip_id = Some trip →
  canAccess (Trip_ (ObjectId.of_string trip_id) trip) (User.id current_user) →
  let oid := ObjectId.of_string trip_id in
  let X := ObjectId.of_string x in
  (∀ v, NoDup (map _id (TripDoc.activities trip)) →
        ∃ db', update_activity trip_id x v current_user db
               = (Ok (Activity.with_id X v), db')
               ∧ get_trip_activities trip_id current_user db'
                 = (Ok (map (fun a => if bool_decide (Activity.id a = X)
                                      then Activity.with_id X v else a)
                            (Trip.activities (Trip_ oid trip))), db'))
  ∧ (∀ v, NoDup (map _id (TripDoc.expenses trip)) →
          ∃ db', update_expense trip_id x v current_user db
                 = (Ok (Expense.with_id X v), db')
                 ∧ get_trip_expenses trip_id current_user db'
                   = (Ok (map (fun e => if bool_decide (Expense.id e = X)
                                        then Expense.with_id X v else e)
                              (Trip.expenses (Trip_ oid trip))), db'))
  ∧ (∀ v, NoDup (map _id (TripDoc.packing_items trip)) →
          ∃ db', update_packing_item trip_id x v current_user db
                 = (Ok (PackingItem.with_id X v), db')
                 ∧ get_trip_packing_items trip_id current_user db'
                   = (Ok (map (fun p => if bool_decide (PackingItem.id p = X)
                                        then PackingItem.with_id X v else p)
                              (Trip.packing_items (Trip_ oid trip))), db')).
Proof.
  intros Hvalid Hx Hfind Hacc%access_denied_false_iff. cbv zeta.
  split; [|split]; intros v Hnd; eexists;
    (split;
     [ unfold update_activity, update_expense, update_packing_item,
         bind, raise_if, find_one_trip, raise, ret;
       rewrite Hvalid, Hx; cbn [negb orb]; rewrite Hfind, Hacc;
       unfold update_one_trip; reflexivity
     | unfold get_trip_activities, get_trip_expenses, get_trip_packing_items,
         bind, raise_if, find_one_trip, raise, ret;
       rewrite Hvalid; cbn [negb trips with_trips];
       rewrite lookup_alter_eq, Hfind; cbn [fmap option_fmap option_map];
       rewrite ?access_denied_on_activities, ?access_denied_on_expenses,
         ?access_denied_on_packing_items, Hacc;
       rewrite ?Trip__activities_on, ?Trip__expenses_on, ?Trip__packing_items_on;
       rewrite (positional_NoDup _ _ _ Hnd);
       cbn [Trip.activities Trip.expenses Trip.packing_items Trip_];
       rewrite !map_map;
       do 2 f_equal; apply map_ext; intros e;
       unfold set_element, Activity_, Expense_, PackingItem_, ObjectId.str;
       cbn [Activity.id Activity.with_id Expense.id Expense.with_id
              PackingItem.id PackingItem.with_id _id dumped];
       destruct (bool_decide _); reflexivity ]).
Qed.

(** C3. The failure the specification describes does not happen: on
    Ana's trip, an update of an expense under a well-formed identifier
    that none of the trip's expenses carries answers with the expense it
    was sent, as a success, and leaves the database as it was, where the
    specification has a "not found" error.  ([toggle_packing_item], on
    the same trip and identifier, does answer 404.) *)
Theorem update_absent_expense_not_rejected :
  let x := "64b7f3a2c9e1d4f5a6b7c8ff" in
  let sent := Expense.mk "64b7f3a2c9e1d4f5a6b7c8a9" "taxi" 25%float "transport" 4 None in
  ObjectId.is_valid x = true
  ∧ (ObjectId.of_string x
       ∉ map Expense.id
             (Trip.expenses (Trip_ (ObjectId.of_string Sample.trip_id) Sample.trip)))
  ∧ update_expense Sample.trip_id x sent Sample.ana Sample.db
    = (Ok (Expense.with_id x sent), Sample.db)
  ∧ toggle_packing_item Sample.trip_id x Sample.ana Sample.db
    = (HTTPException 404 "Packing item not found", Sample.db).
Proof.
  cbv zeta. split; [vm_compute; reflexivity|]. split.
  - intros H. vm_compute in H.
    repeat (apply elem_of_cons in H as [H|H]; [discriminate H|]).
    inversion H.
  - split; vm_compute; reflexivity.
Qed.

(** ** Reordering activities *)

Lemma paired_order_snoc os o x :
  paired_order (os ++ [o])%list x
  = if names o x then Some (order o) else paired_order os x.
Proof. unfold paired_order. rewrite fold_left_app. reflexivity. Qed.

Lemma paired_order_unnamed os x :
  (∀ o, o ∈ os → names o x = false) → paired_order os x = None.
Proof.
  induction os as [|o os IH] using rev_ind; intros H; [reflexivity|].
  rewrite paired_order_snoc, H by (apply elem_of_app; right; apply list_elem_of_here).
  apply IH. intros o' Ho'. apply H. apply elem_of_app. left. exact Ho'.
Qed.

Lemma paired_order_last before o after x :
  names o x = true →
  (∀ o', o' ∈ after → names o' x = false) →
  paired_order (before ++ o :: after)%list x = Some (order o).
Proof.
  intros Ho. induction after as [|o' after IH] using rev_ind; intros H.
  - rewrite paired_order_snoc, Ho. reflexivity.
  - replace (before ++ o :: after ++ [o'])%list
      with ((before ++ o :: after) ++ [o'])%list
      by (rewrite <- app_assoc; reflexivity).
    rewrite paired_order_snoc, H by (apply elem_of_app; right; apply list_elem_of_here).
    apply IH. intros o'' Ho''. apply H. apply elem_of_app. left. exact Ho''.
Qed.

Lemma map_id_reordered os l : map _id (map (reordered os) l) = map _id l.
Proof.
  rewrite map_map. apply map_ext. intros e. unfold reordered.
  destruct (paired_order os (_id e)); reflexivity.
Qed.

Lemma apply_orders_snoc os o l :
  apply_orders (os ++ [o])%list l = apply_order (apply_orders os l) o.
Proof. unfold apply_orders. rewrite fold_left_app. reflexivity. Qed.

(** With distinct identifiers in the array, the loop comes to: each
    element takes the order the request pairs with its identifier. *)
Lemma apply_orders_reordered os l :
  NoDup (map _id l) → apply_orders os l = map (reordered os) l.
Proof.
  intros Hnd. induction os as [|o os IH] using rev_ind.
  - unfold apply_orders, reordered. cbn [fold_left paired_order].
    symmetry. apply map_id.
  - rewrite apply_orders_snoc, IH. unfold apply_order.
    assert (Hmap : map (reordered (os ++ [o])%list) l
                   = map (fun e => if names o (_id e)
                                   then set_key (Activity.with_order (order o)) e
                                   else e) (map (reordered os) l)).
    { rewrite map_map. apply map_ext. intros e. unfold reordered at 1.
      rewrite paired_order_snoc.
      replace (_id (reordered os e)) with (_id e)
        by (unfold reordered; destruct (paired_order os (_id e)); reflexivity).
      destruct (names o (_id e)); [|reflexivity].
      unfold reordered. destruct (paired_order os (_id e)); reflexivity. }
    rewrite Hmap. unfold names.
    destruct (activity_id o) as [s|].
    + destruct (ObjectId.is_valid s).
      * rewrite positional_NoDup by (rewrite map_id_reordered; exact Hnd).
        apply map_ext. intros e. cbn [andb]. reflexivity.
      * cbn [andb]. symmetry. apply map_id.
    + symmetry. apply map_id.
Qed.

(** C5. On a trip the user may access, whose activities carry distinct
    identifiers, [reorder_activities] succeeds whatever the entries of
    the request, and the trip's activities afterwards are the same
    activities in the same positions, each equal to what it was in every
    field but [order]; an activity that no entry names (entries with a
    missing, malformed or unknown identifier name none) keeps its order,
    and an activity that some entry names takes the order of the last
    entry naming it. *)
Theorem reorder_activities_spec trip_id activity_orders current_user db trip :
  ObjectId.is_valid trip_id = true →
  trips db !! ObjectId.of_string trip_id = Some trip →
  let oid := ObjectId.of_string trip_id in
  canAccess (Trip_ oid trip) (User.id current_user) →
  NoDup (map Activity.id (Trip.activities (Trip_ oid trip))) →
  ∃ db' trip',
    reorder_activities trip_id activity_orders current_user db
    = (Ok "Activities reordered successfully", db')
    ∧ trips db' !! oid = Some trip'
    ∧ Forall2
        (fun a a' =>
           same_but_order a a'
           ∧ ((∀ o, o ∈ activity_orders → names o (Activity.id a) = false) →
              Activity.order a' = Activity.order a)
           ∧ (∀ before o after,
                activity_orders = (before ++ o :: after)%list →
                names o (Activity.id a) = true →
                (∀ o', o' ∈ after → names o' (Activity.id a) = false) →
                Activity.order a' = order o))
        (Trip.activities (Trip_ oid trip))
        (Trip.activities (Trip_ oid trip')).
Proof.
  intros Hvalid Hfind oid Hacc%access_denied_false_iff Hnd. subst oid.
  cbn [Trip.activities Trip_] in Hnd. rewrite map_Activity_id in Hnd.
  eexists. eexists. split; [|split].
  - unfold reorder_activities, bind, raise_if, find_one_trip, raise.
    rewrite Hvalid. cbn [negb]. unfold ret at 1. rewrite Hfind, Hacc.
    unfold ret at 1. rewrite reorder_loop_result. unfold ret. reflexivity.
  - cbn [trips with_trips]. rewrite lookup_alter_eq, Hfind. reflexivity.
  - rewrite Trip__activities_on, (apply_orders_reordered _ _ Hnd).
    cbn [Trip.activities Trip_]. rewrite map_map.
    apply Forall2_fmap, Forall_Forall2_diag, Forall_forall. intros e _.
    unfold reordered, Activity_, ObjectId.str.
    cbn [Activity.id Activity.with_id].
    split; [|split].
    + destruct (paired_order activity_orders (_id e)); repeat split.
    + intros Hno. rewrite (paired_order_unnamed _ _ Hno). reflexivity.
    + intros before o after -> Ho Hafter.
      rewrite (paired_order_last _ _ _ _ Ho Hafter). reflexivity.
Qed.

Lemma reorder_activities_spec_witness :
  fst (reorder_activities Sample.trip_id sample_orders Sample.ben Sample.db)
  = Ok "Activities reordered successfully".
Proof.
  destruct (reorder_activities_spec Sample.trip_id sample_orders Sample.ben
              Sample.db Sample.trip) as (db' & trip' & Hrun & _).
  - vm_compute. reflexivity.
  - vm_compute. reflexivity.
  - right. apply list_elem_of_here.
  - apply (bool_decide_unpack _). vm_compute. exact I.
  - rewrite Hrun. reflexivity.
Defined.

Example reorder_sample :
  let db' := snd (reorder_activities Sample.trip_id sample_orders Sample.ben Sample.db) in
  fst (get_trip_activities Sample.trip_id Sample.ana db')
  = Ok [ Activity.with_order 1 (Activity_ Sample.museum);
         Activity.with_order 0 (Activity_ Sample.dinner) ].
Proof. vm_compute. reflexivity. Qed.

(** ** Creating an activity and reading it back *)

(** C9, as amended.  On a trip the user may access, creating an
    activity [A] returns [A] with its identifier replaced by [new_id],
    the value [ObjectId()] has drawn, whatever identifier [A] came with,
    and a read of the trip's activities then returns the former list
    followed by exactly that element; the element agrees with [A] on
    every field but the identifier.  The handler compares [new_id] with
    nothing, neither with the identifier the client sent nor with those
    of the trip's activities: the identifier of the created element
    differs from them exactly when the value drawn does. *)
Theorem create_activity_roundtrip trip_id (A : Activity.t) current_user db trip new_id :
  ObjectId.is_valid trip_id = true →
  trips db !! ObjectId.of_string trip_id = Some trip →
  let T := Trip_ (ObjectId.of_string trip_id) trip in
  canAccess T (User.id current_user) →
  ∃ created db',
    create_activity trip_id A current_user new_id db = (Ok created, db')
    ∧ get_trip_activities trip_id current_user db'
      = (Ok (Trip.activities T ++ [created])%list, db')
    ∧ Activity.id created = ObjectId.str new_id
    ∧ Activity.title created = Activity.title A
    ∧ Activity.time created = Activity.time A
    ∧ Activity.location created = Activity.location A
    ∧ Activity.activity_type created = Activity.activity_type A
    ∧ Activity.notes created = Activity.notes A
    ∧ Activity.cost created = Activity.cost A
    ∧ Activity.day created = Activity.day A
    ∧ Activity.order created = Activity.order A.
Proof.
  intros Hvalid Hfind T Hacc%access_denied_false_iff.
  exists (Activity_ (mkSubDoc new_id A)). eexists. split; [|split].
  - unfold create_activity, bind, raise_if, find_one_trip, raise, ret.
    rewrite Hvalid. cbn [negb]. rewrite Hfind. fold T. rewrite Hacc.
    unfold update_one_trip. reflexivity.
  - unfold get_trip_activities, bind, raise_if, find_one_trip, raise, ret.
    rewrite Hvalid. cbn [negb trips with_trips].
    rewrite lookup_alter_eq, Hfind. cbn [fmap option_fmap option_map].
    rewrite access_denied_on_activities. fold T. rewrite Hacc.
    rewrite Trip__activities_on. unfold push. rewrite map_app. reflexivity.
  - repeat split.
Qed.

Lemma create_activity_roundtrip_witness :
  let A := Activity.mk "64b7f3a2c9e1d4f5a6b7c8b3" "Tram 28" "15:00" "Graca" "transport"
                       None (Some 3%float) 2 0 in
  ∃ created db',
    create_activity Sample.trip_id A Sample.ben "64b7f3a2c9e1d4f5a6b7c823" Sample.db
    = (Ok created, db')
    ∧ fst (get_trip_activities Sample.trip_id Sample.ana db')
      = Ok [Activity_ Sample.museum; Activity_ Sample.dinner; created]
    ∧ Activity.id created = "64b7f3a2c9e1d4f5a6b7c823".
Proof.
  intros A.
  destruct (create_activity_roundtrip Sample.trip_id A Sample.ben Sample.db Sample.trip
              "64b7f3a2c9e1d4f5a6b7c823")
    as (created & db' & Hcreate & Hread & Hid & _).
  - vm_compute. reflexivity.
  - vm_compute. reflexivity.
  - right. apply list_elem_of_here.
  - exists created, db'. split; [exact Hcreate|]. split; [|exact Hid].
    injection Hcreate as <- <-. vm_compute. reflexivity.
Defined.

(** C9 as the specification words it fails on two counts.  Ben creates
    an activity in the sample trip.  When the identifier he sends is the
    one [ObjectId()] then draws, the created element carries the
    identifier the client supplied.  When [ObjectId()] draws the
    identifier of the museum, which the trip holds, the created element
    carries an identifier already present, and the read that follows
    shows two activities under it. *)
Lemma create_activity_identifier_clash :
  let T := Trip_ (ObjectId.of_string Sample.trip_id) Sample.trip in
  let sent := Activity.mk "64b7f3a2c9e1d4f5a6b7c823" "Tram 28" "15:00" "Graca" "transport"
                          None (Some 3%float) 2 0 in
  (∃ created db',
     create_activity Sample.trip_id sent Sample.ben "64b7f3a2c9e1d4f5a6b7c823" Sample.db
     = (Ok created, db')
     ∧ Activity.id created = Activity.id sent)
  ∧ (∃ created db',
       create_activity Sample.trip_id sent Sample.ben (_id Sample.museum) Sample.db
       = (Ok created, db')
       ∧ Activity.id created ∈ map Activity.id (Trip.activities T)
       ∧ fst (get_trip_activities Sample.trip_id Sample.ben db')
         = Ok [Activity_ Sample.museum; Activity_ Sample.dinner; created]
       ∧ Activity.id created = Activity.id (Activity_ Sample.museum)).
Proof.
  cbv zeta. split.
  - eexists. eexists. split; [vm_compute; reflexivity|]. reflexivity.
  - eexists. eexists. split; [vm_compute; reflexivity|].
    split; [left|]. split; [vm_compute; reflexivity|reflexivity].
Qed.

(** * Further properties *)

(** ** Listing, creating, updating and deleting trips *)

Lemma insert_latest_first_sorted p l :
  StronglySorted (fun a b => TripDoc.created_at (snd b) <= TripDoc.created_at (snd a)) l →
  StronglySorted (fun a b => TripDoc.created_at (snd b) <= TripDoc.created_at (snd a))
                 (insert_latest_first p l).
Proof.
  induction l as [|q r IH]; intros Hs; cbn [insert_latest_first].
  - repeat constructor.
  - apply StronglySorted_inv in Hs as [Hr Hq].
    destruct (Z.leb_spec (TripDoc.created_at (snd q)) (TripDoc.created_at (snd p))) as [Hle|Hlt].
    + constructor; [constructor; assumption|].
      constructor; [exact Hle|].
      eapply Forall_impl; [exact Hq|]. cbv beta. intros x Hx. lia.
    + constructor; [apply IH, Hr|].
      apply Forall_forall. intros x Hx.
      apply elem_of_insert_latest_first in Hx as [->|Hx].
      * lia.
      * rewrite Forall_forall in Hq. apply Hq, Hx.
Qed.

Lemma sort_latest_first_sorted l :
  StronglySorted (fun a b => TripDoc.created_at (snd b) <= TripDoc.created_at (snd a))
                 (sort_latest_first l).
Proof.
  induction l as [|p r IH]; cbn [sort_latest_first fold_right]; [constructor|].
  apply insert_latest_first_sorted, IH.
Qed.

Lemma insert_latest_first_Permutation p l : insert_latest_first p l ≡ₚ p :: l.
Proof.
  induction l as [|q r IH]; cbn [insert_latest_first]; [reflexivity|].
  destruct (_ <=? _); [reflexivity|].
  rewrite IH. apply Permutation_swap.
Qed.

Lemma sort_latest_first_Permutation l : sort_latest_first l ≡ₚ l.
Proof.
  induction l as [|p r IH]; cbn [sort_latest_first fold_right]; [reflexivity|].
  rewrite insert_latest_first_Permutation. unfold sort_latest_first in IH.
  rewrite IH. reflexivity.
Qed.

Lemma NoDup_fst_filter {K A} (q : K * A → bool) (l : list (K * A)) :
  NoDup (map fst l) → NoDup (map fst (List.filter q l)).
Proof.
  induction l as [|p r IH]; intros Hnd; [exact Hnd|].
  cbn [map] in Hnd. apply NoDup_cons in Hnd as [Hp Hr].
  cbn [List.filter]. destruct (q p); [|apply IH, Hr].
  cbn [map]. apply NoDup_cons. split; [|apply IH, Hr].
  intros Hin. apply Hp.
  apply list_elem_of_fmap in Hin as (x & -> & Hx).
  apply list_elem_of_In, filter_In in Hx as [Hx _].
  apply list_elem_of_fmap. exists x. split; [reflexivity|]. apply list_elem_of_In, Hx.
Qed.

(** X1. [get_user_trips] never fails and never writes; it returns the
    stored trips the user owns or collaborates on, every one of them and
    each once (no two entries of the answer carry the same identifier),
    the latest created first. *)
Theorem get_user_trips_latest_first current_user db :
  ∃ listed,
    get_user_trips current_user db = (Ok listed, db)
    ∧ (∀ T, T ∈ listed
            ↔ ∃ oid d, trips db !! oid = Some d ∧ T = Trip_ oid d
                       ∧ canAccess T (User.id current_user))
    ∧ NoDup (map Trip.id listed)
    ∧ NoDup listed
    ∧ StronglySorted (fun T T' => Trip.created_at T' <= Trip.created_at T) listed.
Proof.
  destruct (get_user_trips_lists current_user db) as (listed & Hrun & Hlisted).
  exists listed. split; [exact Hrun|]. split; [exact Hlisted|].
  unfold get_user_trips, bind, find_trips_latest_first, ret in Hrun.
  injection Hrun as <-. clear Hlisted.
  assert (Hids : NoDup (map Trip.id
                          (map (fun trip => Trip_ (fst trip) (snd trip))
                               (sort_latest_first
                                  (List.filter
                                     (fun p => owner_or_collaborator (User.id current_user)
                                                                     (snd p))
                                     (map_to_list (trips db))))))).
  { rewrite map_map.
    rewrite (map_ext _ fst) by (intros [oid d]; reflexivity).
    change (map fst ?l) with (fst <$> l).
    rewrite sort_latest_first_Permutation.
    apply NoDup_fst_filter. apply NoDup_fst_map_to_list. }
  split; [exact Hids|]. split.
  { apply (NoDup_fmap_1 Trip.id). exact Hids. }
  clear Hids.
  pose proof (sort_latest_first_sorted
                (List.filter (fun p => owner_or_collaborator (User.id current_user) (snd p))
                             (map_to_list (trips db)))) as Hs.
  induction Hs as [|p l Hs IH Hp]; cbn [map]; constructor.
  - exact IH.
  - apply Forall_forall. intros T HT. apply list_elem_of_fmap in HT as (q & -> & Hq).
    rewrite Forall_forall in Hp. exact (Hp q Hq).
Qed.

(** X2. [create_trip] answers with the trip under the identifier the
    store reported: the request's title, destination and budget, the
    caller as owner, no collaborators, no activities, expenses or
    packing items, and empty notes.  Read back by its creator, the trip
    agrees with the answer on all of these; its four datetimes are the
    request's two and the two readings of the clock, as the store keeps
    them.  The trip is closed to every other user, and the other trips
    are as they were.  [inserted_id] is an object identifier in its
    canonical spelling. *)
Theorem create_trip_roundtrip trip current_user now1 now2 inserted_id db :
  ObjectId.is_valid inserted_id = true →
  ObjectId.of_string inserted_id = inserted_id →
  ∃ T T' db',
    create_trip trip current_user now1 now2 inserted_id db = (Ok T, db')
    ∧ get_trip (Trip.id T) current_user db' = (Ok T', db')
    ∧ Trip.id T = ObjectId.str inserted_id
    ∧ Trip.title T = TripCreate.title trip
    ∧ Trip.destination T = TripCreate.destination trip
    ∧ Trip.budget T = TripCreate.budget trip
    ∧ Trip.owner_id T = User.id current_user
    ∧ Trip.collaborators T = []
    ∧ Trip.activities T = [] ∧ Trip.expenses T = [] ∧ Trip.packing_items T = []
    ∧ Trip.notes T = Some EmptyString
    ∧ Trip.id T' = Trip.id T
    ∧ Trip.title T' = Trip.title T
    ∧ Trip.destination T' = Trip.destination T
    ∧ Trip.budget T' = Trip.budget T
    ∧ Trip.owner_id T' = Trip.owner_id T
    ∧ Trip.collaborators T' = Trip.collaborators T
    ∧ Trip.activities T' = Trip.activities T
    ∧ Trip.expenses T' = Trip.expenses T
    ∧ Trip.packing_items T' = Trip.packing_items T
    ∧ Trip.notes T' = Trip.notes T
    ∧ Trip.start_date T' = TripCreate.start_date trip
    ∧ Trip.end_date T' = TripCreate.end_date trip
    ∧ Trip.created_at T' = now1
    ∧ Trip.updated_at T' = now2
    ∧ (∀ other, User.id other ≠ User.id current_user →
                get_trip (Trip.id T) other db'
                = (HTTPException 403 "Access denied", db'))
    ∧ (∀ oid, oid ≠ inserted_id → trips db' !! oid = trips db !! oid).
Proof.
  intros Hvalid Hcanon. eexists. eexists. eexists. split; [reflexivity|].
  cbn [Trip.id Trip_]. unfold ObjectId.str.
  split.
  { unfold get_trip, bind, raise_if, find_one_trip, raise, ret.
    rewrite Hvalid, Hcanon. cbn [negb trips with_trips].
    rewrite lookup_insert_eq. unfold access_denied. cbn [Trip.owner_id Trip_ TripDoc.owner_id].
    rewrite bool_decide_eq_true_2 by reflexivity. reflexivity. }
  do 24 (split; [reflexivity|]).
  split.
  - intros other Hother.
    unfold get_trip, bind, raise_if, find_one_trip, raise, ret.
    rewrite Hvalid, Hcanon. cbn [negb trips with_trips].
    rewrite lookup_insert_eq. unfold access_denied.
    cbn [Trip.owner_id Trip.collaborators Trip_ TripDoc.owner_id TripDoc.collaborators].
    rewrite bool_decide_eq_false_2 by (intros H; apply Hother; symmetry; exact H).
    rewrite bool_decide_eq_false_2 by apply not_elem_of_nil. reflexivity.
  - intros oid Hoid. cbn [trips with_trips snd].
    apply lookup_insert_ne. intros H. apply Hoid. symmetry. exact H.
Qed.

Lemma create_trip_roundtrip_witness :
  ∃ T T' db',
    create_trip Sample.lisbon Sample.ana 5 6 "64b7f3a2c9e1d4f5a6b7c8d9" Sample.db0
    = (Ok T, db')
    ∧ get_trip "64b7f3a2c9e1d4f5a6b7c8d9" Sample.ana db' = (Ok T', db')
    ∧ Trip.title T' = "Lisbon"
    ∧ fst (get_trip "64b7f3a2c9e1d4f5a6b7c8d9" Sample.ben db')
      = HTTPException 403 "Access denied".
Proof.
  destruct (create_trip_roundtrip Sample.lisbon Sample.ana 5 6
              "64b7f3a2c9e1d4f5a6b7c8d9" Sample.db0)
    as (T & T' & db' & Hcreate & Hread & Hid & Htitle & Hrest).
  - vm_compute. reflexivity.
  - vm_compute. reflexivity.
  - destruct Hrest as (_ & _ & _ & _ & _ & _ & _ & _ & _ & Htitle' & Hrest).
    do 12 (destruct Hrest as (_ & Hrest)). destruct Hrest as (Hother & _).
    pose proof (Hother Sample.ben ltac:(discriminate)) as Hben.
    rewrite Hid in Hread, Hben.
    exists T, T', db'. split; [exact Hcreate|]. split; [exact Hread|].
    split; [rewrite Htitle', Htitle; reflexivity|].
    exact (f_equal fst Hben).
Defined.

(** X3. [update_trip] by the owner: the fields the request carries replace
    the stored ones, [updated_at] becomes the time of the call, and
    everything else (identifier, owner, collaborators, the three
    collections, [created_at]) stays; the updated trip is what is
    returned.  A request that carries no field writes nothing at all, so
    [updated_at] stays as well.  Notes can be replaced but not removed. *)
Theorem update_trip_effect trip_id trip_update current_user now db trip :
  ObjectId.is_valid trip_id = true →
  trips db !! ObjectId.of_string trip_id = Some trip →
  TripDoc.owner_id trip = User.id current_user →
  let oid := ObjectId.of_string trip_id in
  let T := Trip_ oid trip in
  ∃ T' db',
    update_trip trip_id trip_update current_user now db = (Ok T', db')
    ∧ get_trip trip_id current_user db' = (Ok T', db')
    ∧ (update_data_is_empty trip_update = true → db' = db ∧ T' = T)
    ∧ (update_data_is_empty trip_update = false → Trip.updated_at T' = now)
    ∧ Trip.title T' = default (Trip.title T) (TripUpdate.title trip_update)
    ∧ Trip.destination T' = default (Trip.destination T) (TripUpdate.destination trip_update)
    ∧ Trip.start_date T' = default (Trip.start_date T) (TripUpdate.start_date trip_update)
    ∧ Trip.end_date T' = default (Trip.end_date T) (TripUpdate.end_date trip_update)
    ∧ Trip.budget T' = default (Trip.budget T) (TripUpdate.budget trip_update)
    ∧ Trip.notes T' = match TripUpdate.notes trip_update with
                      | Some n => Some n
                      | None => Trip.notes T
                      end
    ∧ Trip.id T' = Trip.id T
    ∧ Trip.owner_id T' = Trip.owner_id T
    ∧ Trip.collaborators T' = Trip.collaborators T
    ∧ Trip.activities T' = Trip.activities T
    ∧ Trip.expenses T' = Trip.expenses T
    ∧ Trip.packing_items T' = Trip.packing_items T
    ∧ Trip.created_at T' = Trip.created_at T
    ∧ (∀ k, k ≠ oid → trips db' !! k = trips db !! k).
Proof.
  intros Hvalid Hfind Ho. cbv zeta.
  assert (Hden : access_denied (Trip_ (ObjectId.of_string trip_id) trip) current_user = false).
  { apply access_denied_false_iff. left. symmetry. exact Ho. }
  unfold update_trip, bind, raise_if, find_one_trip, raise, ret, not_owner.
  rewrite Hvalid. cbn [negb]. rewrite Hfind, Trip__owner_id.
  rewrite (bool_decide_eq_true_2 _ Ho). cbn [negb].
  destruct (update_data_is_empty trip_update) eqn:Hempty.
  - unfold reload_trip, bind, find_one_trip, ret. rewrite Hfind.
    eexists. eexists. split; [reflexivity|]. split.
    { unfold get_trip, bind, raise_if, find_one_trip, raise, ret.
      rewrite Hvalid. cbn [negb]. rewrite Hfind, Hden. reflexivity. }
    split; [intros _; split; reflexivity|]. split; [discriminate|].
    destruct trip_update as [[?|] [?|] [?|] [?|] [?|] [?|]]; try discriminate Hempty.
    repeat split.
  - unfold update_one_trip, reload_trip, bind, find_one_trip, ret.
    cbn [trips with_trips snd]. rewrite lookup_alter_eq, Hfind.
    cbn [fmap option_fmap option_map].
    eexists. eexists. split; [reflexivity|]. split.
    { unfold get_trip, bind, raise_if, find_one_trip, raise, ret.
      rewrite Hvalid. cbn [negb trips with_trips]. rewrite lookup_alter_eq, Hfind.
      cbn [fmap option_fmap option_map].
      replace (access_denied (Trip_ (ObjectId.of_string trip_id)
                                (set_update_data trip_update now trip)) current_user)
        with false by (symmetry; exact Hden).
      reflexivity. }
    split; [discriminate|]. split; [reflexivity|].
    repeat split. intros k Hk. cbn [trips with_trips]. apply lookup_alter_ne.
    intros H. apply Hk. symmetry. exact H.
Qed.

Lemma update_trip_effect_witness :
  ∃ T' db',
    update_trip Sample.trip_id (TripUpdate.mk (Some "Porto") None None None None None)
                Sample.ana 99 Sample.db = (Ok T', db')
    ∧ Trip.title T' = "Porto" ∧ Trip.destination T' = "Lisbon"
    ∧ Trip.updated_at T' = 99.
Proof.
  destruct (update_trip_effect Sample.trip_id
              (TripUpdate.mk (Some "Porto") None None None None None)
              Sample.ana 99 Sample.db Sample.trip)
    as (T' & db' & Hrun & _ & _ & Hnow & Htitle & Hdest & _).
  - vm_compute. reflexivity.
  - vm_compute. reflexivity.
  - reflexivity.
  - exists T', db'. split; [exact Hrun|]. split; [exact Htitle|].
    split; [exact Hdest|]. apply Hnow. reflexivity.
Defined.

(** Every handler of a trip answers 404 when the trip is not stored. *)
Lemma guarded_call_missing settings export_service c trip_id current_user db :
  ObjectId.is_valid trip_id = true →
  sub_id_well_formed c = true →
  export_enabled settings c = true →
  trips db !! ObjectId.of_string trip_id = None →
  run_guarded settings export_service c trip_id current_user db
  = (Some (404, "Trip not found"), db).
Proof.
  unfold sub_id_well_formed. intros Hvalid Hsub Hen Hfind.
  destruct c; cbn [path_sub_id] in Hsub; cbn [export_enabled] in Hen;
    cbn [run_guarded]; unfold_handlers;
    try rewrite Hen; enter_handler Hvalid Hsub Hfind; reflexivity.
Qed.

(** X4. [delete_trip] by the owner removes the trip and nothing else; from
    then on every handler of that trip, for every user, answers 404: the
    trip's activities, expenses and packing items are gone with it. *)
Theorem delete_trip_removes trip_id current_user db trip :
  ObjectId.is_valid trip_id = true →
  trips db !! ObjectId.of_string trip_id = Some trip →
  TripDoc.owner_id trip = User.id current_user →
  ∃ db',
    delete_trip trip_id current_user db = (Ok "Trip deleted successfully", db')
    ∧ trips db' !! ObjectId.of_string trip_id = None
    ∧ (∀ k, k ≠ ObjectId.of_string trip_id → trips db' !! k = trips db !! k)
    ∧ users db' = users db
    ∧ (∀ settings export_service c anyone,
         sub_id_well_formed c = true →
         export_enabled settings c = true →
         run_guarded settings export_service c trip_id anyone db'
         = (Some (404, "Trip not found"), db'))
    ∧ (∀ c anyone,
         run_owner_only c trip_id anyone db' = (Some (404, "Trip not found"), db'))
    ∧ (∀ anyone,
         join_trip trip_id anyone db' = (HTTPException 404 "Trip not found", db')).
Proof.
  intros Hvalid Hfind Ho.
  eexists. split.
  { unfold delete_trip, bind, raise_if, find_one_trip, raise, ret, not_owner.
    rewrite Hvalid. cbn [negb]. rewrite Hfind, Trip__owner_id.
    rewrite (bool_decide_eq_true_2 _ Ho). cbn [negb].
    unfold delete_one_trip. reflexivity. }
  assert (Hgone : trips (with_trips (delete (ObjectId.of_string trip_id) (trips db)) db)
                    !! ObjectId.of_string trip_id = None)
    by apply lookup_delete_eq.
  split; [exact Hgone|]. split; [|split; [reflexivity|split; [|split]]].
  - intros k Hk. cbn [trips with_trips]. apply lookup_delete_ne.
    intros H. apply Hk. symmetry. exact H.
  - intros settings export_service c anyone Hsub Hen.
    apply guarded_call_missing; assumption.
  - intros c anyone.
    destruct c; cbn [run_owner_only]; unfold_handlers;
      unfold bind, raise_if, find_one_trip, raise, ret;
      rewrite Hvalid; cbn [negb]; rewrite Hgone; reflexivity.
  - intros anyone. unfold join_trip, bind, raise_if, find_one_trip, raise, ret.
    rewrite Hvalid. cbn [negb]. rewrite Hgone. reflexivity.
Qed.

Lemma delete_trip_removes_witness :
  ∃ db',
    delete_trip Sample.trip_id Sample.ana Sample.db
    = (Ok "Trip deleted successfully", db')
    ∧ fst (get_trip_activities Sample.trip_id Sample.ana db')
      = HTTPException 404 "Trip not found".
Proof.
  destruct (delete_trip_removes Sample.trip_id Sample.ana Sample.db Sample.trip)
    as (db' & Hrun & _).
  - vm_compute. reflexivity.
  - vm_compute. reflexivity.
  - reflexivity.
  - exists db'. split; [exact Hrun|]. injection Hrun as <-. vm_compute. reflexivity.
Defined.

Lemma join_trip_appends trip_id current_user db trip :
  ObjectId.is_valid trip_id = true →
  trips db !! ObjectId.of_string trip_id = Some trip →
  User.id current_user ≠ TripDoc.owner_id trip →
  User.id current_user ∉ TripDoc.collaborators trip →
  let oid := ObjectId.of_string trip_id in
  let updated :=
    TripDoc.with_collaborators (TripDoc.collaborators trip ++ [User.id current_user]) trip in
  join_trip trip_id current_user db
  = (Ok (Trip_ oid updated), with_trips (<[oid := updated]> (trips db)) db).
Proof.
  intros Hvalid Hfind Ho Hc. cbv zeta.
  unfold join_trip, bind, raise_if, find_one_trip, raise, ret.
  rewrite Hvalid. cbn [negb]. rewrite Hfind.
  rewrite Trip__owner_id, Trip__collaborators.
  rewrite bool_decide_eq_false_2 by (intros H; apply Ho; symmetry; exact H).
  rewrite (bool_decide_eq_false_2 _ Hc).
  unfold update_one_trip, reload_trip, bind, find_one_trip, ret.
  cbn [trips with_trips]. rewrite lookup_alter_eq, Hfind. cbn [fmap option_fmap option_map].
  unfold on_collaborators, push_id.
  rewrite <- (insert_id _ _ _ Hfind) at 1. rewrite alter_insert_eq.
  destruct db; reflexivity.
Qed.

(** X5. Joining is open: a user who is neither the owner nor a collaborator
    of a stored trip is refused by [get_trip], joins by the trip's
    identifier alone, and from then on is let in, by [get_trip] and by
    the test every sub-resource handler makes. *)
Theorem join_trip_opens_access trip_id current_user db trip :
  ObjectId.is_valid trip_id = true →
  trips db !! ObjectId.of_string trip_id = Some trip →
  User.id current_user ≠ TripDoc.owner_id trip →
  User.id current_user ∉ TripDoc.collaborators trip →
  ∃ T' db',
    get_trip trip_id current_user db = (HTTPException 403 "Access denied", db)
    ∧ join_trip trip_id current_user db = (Ok T', db')
    ∧ get_trip trip_id current_user db' = (Ok T', db')
    ∧ canAccess T' (User.id current_user)
    ∧ (∀ settings export_service c,
         sub_id_well_formed c = true →
         export_enabled settings c = true →
         fst (run_guarded settings export_service c trip_id current_user db')
         ≠ Some (403, "Access denied")).
Proof.
  intros Hvalid Hfind Hno Hnc.
  pose proof (join_trip_appends trip_id current_user db trip Hvalid Hfind Hno Hnc) as Hjoin.
  cbv zeta in Hjoin.
  eexists. eexists. split; [|split; [exact Hjoin|]].
  { unfold get_trip, bind, raise_if, find_one_trip, raise, ret.
    rewrite Hvalid. cbn [negb]. rewrite Hfind.
    replace (access_denied (Trip_ (ObjectId.of_string trip_id) trip) current_user)
      with true; [reflexivity|].
    symmetry. apply access_denied_true_iff. unfold canAccess.
    rewrite Trip__owner_id, Trip__collaborators. intros [H|H]; tauto. }
  assert (Hacc : canAccess
                   (Trip_ (ObjectId.of_string trip_id)
                      (TripDoc.with_collaborators
                         (TripDoc.collaborators trip ++ [User.id current_user]) trip))
                   (User.id current_user)).
  { right. rewrite Trip__collaborators. cbn [TripDoc.collaborators TripDoc.with_collaborators].
    apply elem_of_app. right. apply list_elem_of_here. }
  assert (Hfind' : trips (with_trips
                            (<[ObjectId.of_string trip_id :=
                                 TripDoc.with_collaborators
                                   (TripDoc.collaborators trip ++ [User.id current_user])
                                   trip]> (trips db)) db)
                     !! ObjectId.of_string trip_id
                   = Some (TripDoc.with_collaborators
                             (TripDoc.collaborators trip ++ [User.id current_user]) trip))
    by apply lookup_insert_eq.
  split; [|split; [exact Hacc|]].
  - unfold get_trip, bind, raise_if, find_one_trip, raise, ret.
    rewrite Hvalid. cbn [negb]. rewrite Hfind'.
    apply access_denied_false_iff in Hacc. rewrite Hacc. reflexivity.
  - intros settings export_service c Hsub Hen Herr.
    apply access_denied_false_iff in Hacc.
    exact (guarded_call_granted settings export_service trip_id current_user
             _ _ Hvalid Hfind' c Hsub Hen Hacc Herr).
Qed.

Lemma join_trip_opens_access_witness :
  get_trip Sample.trip_id Sample.cy Sample.db
  = (HTTPException 403 "Access denied", Sample.db)
  ∧ ∃ T' db', join_trip Sample.trip_id Sample.cy Sample.db = (Ok T', db')
              ∧ get_trip Sample.trip_id Sample.cy db' = (Ok T', db').
Proof.
  destruct (join_trip_opens_access Sample.trip_id Sample.cy Sample.db Sample.trip)
    as (T' & db' & Hbefore & Hjoin & Hafter & _).
  - vm_compute. reflexivity.
  - vm_compute. reflexivity.
  - discriminate.
  - intros H. apply list_elem_of_singleton in H. discriminate H.
  - split; [exact Hbefore|]. exists T', db'. split; assumption.
Defined.

(** X6. [add_collaborator] by the owner: an e-mail address no user has is
    answered 404 and nothing is written; an address that resolves to a
    user lets that user in from then on, whether the user was listed
    before or not. *)
Theorem add_collaborator_grants_access trip_id user_email current_user db trip :
  ObjectId.is_valid trip_id = true →
  trips db !! ObjectId.of_string trip_id = Some trip →
  TripDoc.owner_id trip = User.id current_user →
  match List.find (fun u => bool_decide (User.email u = user_email)) (users db) with
  | None =>
      add_collaborator trip_id user_email current_user db
      = (HTTPException 404 "User not found", db)
  | Some V =>
      ∃ db' T',
        add_collaborator trip_id user_email current_user db
        = (Ok "Collaborator added successfully", db')
        ∧ get_trip trip_id V db' = (Ok T', db')
        ∧ User.id V ∈ Trip.collaborators T'
        ∧ Trip.owner_id T' = TripDoc.owner_id trip
  end.
Proof.
  intros Hvalid Hfind Ho.
  destruct (List.find _ (users db)) as [V|] eqn:Hu.
  - destruct (decide (User.id V ∈ TripDoc.collaborators trip)) as [Hin|Hin].
    + rewrite (add_collaborator_member _ _ _ _ _ _ Hvalid Hfind Ho Hu Hin).
      eexists. eexists. split; [reflexivity|].
      unfold get_trip, bind, raise_if, find_one_trip, raise, ret.
      rewrite Hvalid. cbn [negb]. rewrite Hfind.
      replace (access_denied (Trip_ (ObjectId.of_string trip_id) trip) V) with false.
      * split; [reflexivity|]. split; [exact Hin | reflexivity].
      * symmetry. apply access_denied_false_iff. right. exact Hin.
    + rewrite (add_collaborator_new _ _ _ _ _ _ Hvalid Hfind Ho Hu Hin).
      eexists. eexists. split; [reflexivity|].
      unfold get_trip, bind, raise_if, find_one_trip, raise, ret.
      rewrite Hvalid. cbn [negb trips with_trips]. rewrite lookup_insert_eq.
      assert (Hnow : User.id V ∈ (TripDoc.collaborators trip ++ [User.id V])%list)
        by (apply elem_of_app; right; apply list_elem_of_here).
      replace (access_denied _ V) with false.
      * split; [reflexivity|]. split; [exact Hnow | reflexivity].
      * symmetry. apply access_denied_false_iff. right. exact Hnow.
  - unfold add_collaborator, bind, raise_if, find_one_trip, find_one_user_by_email,
      raise, ret, not_owner.
    rewrite Hvalid. cbn [negb]. rewrite Hfind, Trip__owner_id.
    rewrite (bool_decide_eq_true_2 _ Ho). cbn [negb]. rewrite Hu. reflexivity.
Qed.

Lemma add_collaborator_grants_access_witness :
  add_collaborator Sample.trip_id "dora@example.org" Sample.ana Sample.db
  = (HTTPException 404 "User not found", Sample.db)
  ∧ ∃ db' T',
      add_collaborator Sample.trip_id "cy@example.org" Sample.ana Sample.db
      = (Ok "Collaborator added successfully", db')
      ∧ get_trip Sample.trip_id Sample.cy db' = (Ok T', db').
Proof.
  split.
  - exact (add_collaborator_grants_access Sample.trip_id "dora@example.org" Sample.ana
             Sample.db Sample.trip eq_refl eq_refl eq_refl).
  - destruct (add_collaborator_grants_access Sample.trip_id "cy@example.org" Sample.ana
                Sample.db Sample.trip eq_refl eq_refl eq_refl)
      as (db' & T' & Hadd & Hget & _).
    exists db', T'. split; assumption.
Defined.

(** ** Witnesses for the invariants and the update lemma *)

Lemma owner_id_immutable_witness :
  ∃ d', trips (run_sequence
                 [ OpJoinTrip Sample.trip_id Sample.cy;
                   OpUpdateTrip Sample.trip_id
                     (TripUpdate.mk (Some "Porto") None None None None None) Sample.ana 99;
                   OpAddCollaborator Sample.trip_id "ana@example.org" Sample.ana ]
                 Sample.db) !! ObjectId.of_string Sample.trip_id = Some d'
        ∧ TripDoc.owner_id d' = User.id Sample.ana.
Proof.
  apply (owner_id_immutable _ Sample.db (ObjectId.of_string Sample.trip_id) Sample.trip).
  vm_compute. reflexivity.
Defined.

Lemma distinct_ids_kept_witness :
  ∃ d',
    trips (snd (run_guarded Sample.settings Sample.export_service
                  (CreateActivity (dumped Sample.museum) "64b7f3a2c9e1d4f5a6b7c823")
                  Sample.trip_id Sample.ben Sample.db))
      !! ObjectId.of_string Sample.trip_id = Some d'
    ∧ distinct_ids d'.
Proof.
  eexists. split; [vm_compute; reflexivity|].
  apply (distinct_ids_kept Sample.settings Sample.export_service
           (CreateActivity (dumped Sample.museum) "64b7f3a2c9e1d4f5a6b7c823")
           Sample.trip_id Sample.ben Sample.db)
    with (oid := ObjectId.of_string Sample.trip_id);
    [|vm_compute; reflexivity].
  intros oid d Hd.
  destruct (decide (oid = ObjectId.of_string Sample.trip_id)) as [->|Hne].
  - vm_compute in Hd. injection Hd as <-. split.
    + cbn [draws_fresh]. apply (bool_decide_unpack _). vm_compute. exact I.
    + repeat split; apply (bool_decide_unpack _); vm_compute; exact I.
  - unfold Sample.db in Hd. cbn [trips] in Hd.
    rewrite lookup_singleton_ne in Hd by (intros H; apply Hne; symmetry; exact H).
    discriminate Hd.
Defined.

Lemma update_present_replaces_witness :
  let sent := Expense.mk "64b7f3a2c9e1d4f5a6b7c8a9" "dinner" 60%float "food" 4 None in
  ∃ db',
    update_expense Sample.trip_id "64b7f3a2c9e1d4f5a6b7c812" sent Sample.ben Sample.db
    = (Ok (Expense.with_id "64b7f3a2c9e1d4f5a6b7c812" sent), db')
    ∧ fst (get_trip_expenses Sample.trip_id Sample.ana db')
      = Ok [ Expense_ (mkSubDoc "64b7f3a2c9e1d4f5a6b7c811"
                         (Expense.mk "64b7f3a2c9e1d4f5a6b7c8a1" "lunch" 100%float "food" 1
                                     (Some EmptyString)));
             Expense.with_id "64b7f3a2c9e1d4f5a6b7c812" sent;
             Expense_ (mkSubDoc "64b7f3a2c9e1d4f5a6b7c813"
                         (Expense.mk "64b7f3a2c9e1d4f5a6b7c8a3" "bus" 30%float "transport" 3
                                     None)) ].
Proof.
  intros sent.
  destruct (update_present_replaces Sample.trip_id "64b7f3a2c9e1d4f5a6b7c812" Sample.ben
              Sample.db Sample.trip) as (_ & He & _).
  - vm_compute. reflexivity.
  - vm_compute. reflexivity.
  - vm_compute. reflexivity.
  - right. apply list_elem_of_here.
  - destruct (He sent) as (db' & Hrun & _).
    + apply (bool_decide_unpack _). vm_compute. exact I.
    + exists db'. split; [exact Hrun|]. injection Hrun as <-. vm_compute. reflexivity.
Defined.

(** ** Deleting, and creating then deleting *)

Lemma pull_pull {A} x (l : list (SubDoc A)) : pull x (pull x l) = pull x l.
Proof.
  unfold pull. induction l as [|e r IH]; [reflexivity|].
  cbn [List.filter]. destruct (negb (bool_decide (_id e = x))) eqn:He.
  - cbn [List.filter]. rewrite He, IH. reflexivity.
  - exact IH.
Qed.

Lemma map_pull {A B} (view : SubDoc A → B) (id_of : B → PyObjectId) x (l : list (SubDoc A)) :
  (∀ e, id_of (view e) = _id e) →
  map view (pull x l)
  = List.filter (fun b => negb (bool_decide (id_of b = x))) (map view l).
Proof.
  intros Hid. unfold pull. induction l as [|e r IH]; [reflexivity|].
  cbn [List.filter map]. rewrite Hid.
  destruct (decide (_id e = x)) as [He|He].
  - rewrite !(bool_decide_eq_true_2 _ He). cbn [negb]. exact IH.
  - rewrite !(bool_decide_eq_false_2 _ He). cbn [negb map]. rewrite IH. reflexivity.
Qed.

(** X10. Deleting a sub-resource, in each of the three collections: the
    handler answers success, the collection read afterwards is the
    former one without the elements that carried the identifier, in the
    same order, and a second deletion changes nothing more. *)
Theorem delete_sub_resource trip_id x current_user db trip :
  ObjectId.is_valid trip_id = true →
  ObjectId.is_valid x = true →
  trips db !! ObjectId.of_string trip_id = Some trip →
  canAccess (Trip_ (ObjectId.of_string trip_id) trip) (User.id current_user) →
  let T := Trip_ (ObjectId.of_string trip_id) trip in
  let X := ObjectId.of_string x in
  (∃ db', delete_activity trip_id x current_user db
          = (Ok "Activity deleted successfully", db')
          ∧ get_trip_activities trip_id current_user db'
            = (Ok (List.filter (fun a => negb (bool_decide (Activity.id a = X)))
                               (Trip.activities T)), db')
          ∧ delete_activity trip_id x current_user db'
            = (Ok "Activity deleted successfully", db'))
  ∧ (∃ db', delete_expense trip_id x current_user db
            = (Ok "Expense deleted successfully", db')
            ∧ get_trip_expenses trip_id current_user db'
              = (Ok (List.filter (fun e => negb (bool_decide (Expense.id e = X)))
                                 (Trip.expenses T)), db')
            ∧ delete_expense trip_id x current_user db'
              = (Ok "Expense deleted successfully", db'))
  ∧ (∃ db', delete_packing_item trip_id x current_user db
            = (Ok "Packing item deleted successfully", db')
            ∧ get_trip_packing_items trip_id current_user db'
              = (Ok (List.filter (fun p => negb (bool_decide (PackingItem.id p = X)))
                                 (Trip.packing_items T)), db')
            ∧ delete_packing_item trip_id x current_user db'
              = (Ok "Packing item deleted successfully", db')).
Proof.
  intros Hvalid Hx Hfind Hacc%access_denied_false_iff. cbv zeta.
  assert (Hsame : ∀ f, (∀ d, f (f d) = f d) →
            with_trips (alter f (ObjectId.of_string trip_id)
                          (trips (with_trips (alter f (ObjectId.of_string trip_id)
                                                (trips db)) db)))
                       (with_trips (alter f (ObjectId.of_string trip_id) (trips db)) db)
            = with_trips (alter f (ObjectId.of_string trip_id) (trips db)) db).
  { intros f Hf. cbn [trips with_trips]. unfold with_trips at 1. cbn [users activities expenses].
    unfold with_trips. f_equal. apply alter_id. intros d Hd.
    rewrite lookup_alter_eq, Hfind in Hd. injection Hd as <-. apply Hf. }
  split; [|split].
  - exists (with_trips (alter (on_activities (pull (ObjectId.of_string x)))
                         (ObjectId.of_string trip_id) (trips db)) db).
    split; [|split].
    + unfold delete_activity, bind, raise_if, find_one_trip, raise, ret.
      rewrite Hvalid, Hx. cbn [negb orb]. rewrite Hfind, Hacc. reflexivity.
    + unfold get_trip_activities, bind, raise_if, find_one_trip, raise, ret.
      rewrite Hvalid. cbn [negb trips with_trips]. rewrite lookup_alter_eq, Hfind.
      cbn [fmap option_fmap option_map].
      rewrite access_denied_on_activities, Hacc, Trip__activities_on.
      cbn [Trip.activities Trip_]. do 2 f_equal. apply map_pull. reflexivity.
    + unfold delete_activity, bind, raise_if, find_one_trip, raise, ret.
      rewrite Hvalid, Hx. cbn [negb orb trips with_trips].
      rewrite lookup_alter_eq, Hfind. cbn [fmap option_fmap option_map].
      rewrite access_denied_on_activities, Hacc. unfold update_one_trip.
      rewrite Hsame; [reflexivity|]. intros d. unfold on_activities.
      cbn [TripDoc.activities TripDoc.with_activities]. rewrite pull_pull. reflexivity.
  - exists (with_trips (alter (on_expenses (pull (ObjectId.of_string x)))
                         (ObjectId.of_string trip_id) (trips db)) db).
    split; [|split].
    + unfold delete_expense, bind, raise_if, find_one_trip, raise, ret.
      rewrite Hvalid, Hx. cbn [negb orb]. rewrite Hfind, Hacc. reflexivity.
    + unfold get_trip_expenses, bind, raise_if, find_one_trip, raise, ret.
      rewrite Hvalid. cbn [negb trips with_trips]. rewrite lookup_alter_eq, Hfind.
      cbn [fmap option_fmap option_map].
      rewrite access_denied_on_expenses, Hacc, Trip__expenses_on.
      cbn [Trip.expenses Trip_]. do 2 f_equal. apply map_pull. reflexivity.
    + unfold delete_expense, bind, raise_if, find_one_trip, raise, ret.
      rewrite Hvalid, Hx. cbn [negb orb trips with_trips].
      rewrite lookup_alter_eq, Hfind. cbn [fmap option_fmap option_map].
      rewrite access_denied_on_expenses, Hacc. unfold update_one_trip.
      rewrite Hsame; [reflexivity|]. intros d. unfold on_expenses.
      cbn [TripDoc.expenses TripDoc.with_expenses]. rewrite pull_pull. reflexivity.
  - exists (with_trips (alter (on_packing_items (pull (ObjectId.of_string x)))
                         (ObjectId.of_string trip_id) (trips db)) db).
    split; [|split].
    + unfold delete_packing_item, bind, raise_if, find_one_trip, raise, ret.
      rewrite Hvalid, Hx. cbn [negb orb]. rewrite Hfind, Hacc. reflexivity.
    + unfold get_trip_packing_items, bind, raise_if, find_one_trip, raise, ret.
      rewrite Hvalid. cbn [negb trips with_trips]. rewrite lookup_alter_eq, Hfind.
      cbn [fmap option_fmap option_map].
      rewrite access_denied_on_packing_items, Hacc, Trip__packing_items_on.
      cbn [Trip.packing_items Trip_]. do 2 f_equal. apply map_pull. reflexivity.
    + unfold delete_packing_item, bind, raise_if, find_one_trip, raise, ret.
      rewrite Hvalid, Hx. cbn [negb orb trips with_trips].
      rewrite lookup_alter_eq, Hfind. cbn [fmap option_fmap option_map].
      rewrite access_denied_on_packing_items, Hacc. unfold update_one_trip.
      rewrite Hsame; [reflexivity|]. intros d. unfold on_packing_items.
      cbn [TripDoc.packing_items TripDoc.with_packing_items]. rewrite pull_pull. reflexivity.
Qed.

Lemma delete_sub_resource_witness :
  ∃ db',
    delete_expense Sample.trip_id "64b7f3a2c9e1d4f5a6b7c812" Sample.ben Sample.db
    = (Ok "Expense deleted successfully", db')
    ∧ fst (get_trip_expenses Sample.trip_id Sample.ana db')
      = Ok [ Expense_ (mkSubDoc "64b7f3a2c9e1d4f5a6b7c811"
                         (Expense.mk "64b7f3a2c9e1d4f5a6b7c8a1" "lunch" 100%float "food" 1
                                     (Some EmptyString)));
             Expense_ (mkSubDoc "64b7f3a2c9e1d4f5a6b7c813"
                         (Expense.mk "64b7f3a2c9e1d4f5a6b7c8a3" "bus" 30%float "transport" 3
                                     None)) ].
Proof.
  destruct (delete_sub_resource Sample.trip_id "64b7f3a2c9e1d4f5a6b7c812" Sample.ben
              Sample.db Sample.trip) as (_ & (db' & Hrun & _) & _).
  - vm_compute. reflexivity.
  - vm_compute. reflexivity.
  - vm_compute. reflexivity.
  - right. apply list_elem_of_here.
  - exists db'. split; [exact Hrun|]. injection Hrun as <-. vm_compute. reflexivity.
Defined.

Lemma pull_push_fresh {A} (d : SubDoc A) (l : list (SubDoc A)) :
  _id d ∉ map _id l → pull (_id d) (push d l) = l.
Proof.
  intros Hfresh. unfold pull, push. rewrite List.filter_app. cbn [List.filter].
  rewrite bool_decide_eq_true_2 by reflexivity. cbn [negb].
  rewrite app_nil_r. apply (pull_absent _ _ Hfresh).
Qed.

Lemma with_trips_alter_undo f g k db d :
  trips db !! k = Some d → g (f d) = d →
  with_trips (alter g k (trips (with_trips (alter f k (trips db)) db)))
             (with_trips (alter f k (trips db)) db) = db.
Proof.
  intros Hk Hgf. destruct db as [t u a e]. unfold with_trips. cbn in *. f_equal.
  rewrite alter_alter_eq. apply alter_id.
  intros d' Hd'. rewrite Hk in Hd'. injection Hd' as <-. exact Hgf.
Qed.

(** X11. Creating a sub-resource and then deleting it under the identifier
    it was given puts the database back as it was, in each of the three
    collections.  [new_id] is an object identifier in its canonical
    spelling, and is not in use in the collection. *)
Theorem create_then_delete trip_id current_user db trip new_id :
  ObjectId.is_valid trip_id = true →
  trips db !! ObjectId.of_string trip_id = Some trip →
  canAccess (Trip_ (ObjectId.of_string trip_id) trip) (User.id current_user) →
  ObjectId.is_valid new_id = true →
  ObjectId.of_string new_id = new_id →
  (∀ activity,
     new_id ∉ map _id (TripDoc.activities trip) →
     let created := create_activity trip_id activity current_user new_id db in
     delete_activity trip_id (ObjectId.str new_id) current_user (snd created)
     = (Ok "Activity deleted successfully", db))
  ∧ (∀ expense,
       new_id ∉ map _id (TripDoc.expenses trip) →
       let created := create_expense trip_id expense current_user new_id db in
       delete_expense trip_id (ObjectId.str new_id) current_user (snd created)
       = (Ok "Expense deleted successfully", db))
  ∧ (∀ item,
       new_id ∉ map _id (TripDoc.packing_items trip) →
       let created := create_packing_item trip_id item current_user new_id db in
       delete_packing_item trip_id (ObjectId.str new_id) current_user (snd created)
       = (Ok "Packing item deleted successfully", db)).
Proof.
  intros Hvalid Hfind Hacc%access_denied_false_iff Hnew Hcanon.
  unfold ObjectId.str.
  split; [|split]; intros v Hfresh; cbv zeta;
    unfold create_activity, create_expense, create_packing_item,
      delete_activity, delete_expense, delete_packing_item,
      bind, raise_if, find_one_trip, raise, ret;
    rewrite Hvalid, Hnew; cbn [negb orb]; rewrite Hfind, Hacc;
    unfold update_one_trip; cbn [snd trips with_trips];
    rewrite lookup_alter_eq, Hfind; cbn [fmap option_fmap option_map];
    rewrite ?access_denied_on_activities, ?access_denied_on_expenses,
      ?access_denied_on_packing_items, Hacc, Hcanon;
    f_equal; apply (with_trips_alter_undo _ _ _ _ trip Hfind);
    unfold on_activities, on_expenses, on_packing_items;
    cbn [TripDoc.activities TripDoc.expenses TripDoc.packing_items
           TripDoc.with_activities TripDoc.with_expenses TripDoc.with_packing_items];
    rewrite (pull_push_fresh (mkSubDoc new_id v)) by exact Hfresh;
    destruct trip; reflexivity.
Qed.

Lemma create_then_delete_witness :
  let created :=
    create_packing_item Sample.trip_id (dumped Sample.passport) Sample.ben
                        "64b7f3a2c9e1d4f5a6b7c832" Sample.db in
  delete_packing_item Sample.trip_id "64b7f3a2c9e1d4f5a6b7c832" Sample.ben (snd created)
  = (Ok "Packing item deleted successfully", Sample.db).
Proof.
  refine (proj2 (proj2 (create_then_delete Sample.trip_id Sample.ben Sample.db Sample.trip
                          "64b7f3a2c9e1d4f5a6b7c832" _ _ _ _ _))
            (dumped Sample.passport) _).
  - vm_compute. reflexivity.
  - vm_compute. reflexivity.
  - right. apply list_elem_of_here.
  - vm_compute. reflexivity.
  - vm_compute. reflexivity.
  - intros H. apply list_elem_of_In in H. cbn in H.
    destruct H as [H|[]]. discriminate H.
Defined.

(** ** Ticking a packing item *)

Lemma find_PackingItem_ x (l : list (SubDoc PackingItem.t)) :
  List.find (fun item => bool_decide (PackingItem.id item = x)) (map PackingItem_ l)
  = PackingItem_ <$> List.find (fun d => bool_decide (_id d = x)) l.
Proof.
  induction l as [|d r IH]; [reflexivity|].
  cbn [map List.find]. unfold PackingItem_ at 1, PackingItem.with_id at 1.
  cbn [PackingItem.id]. unfold ObjectId.str at 1. rewrite IH.
  destruct (decide (_id d = x)) as [Hx|Hx].
  - rewrite !bool_decide_eq_true_2 by exact Hx. reflexivity.
  - rewrite !bool_decide_eq_false_2 by exact Hx. reflexivity.
Qed.

Lemma positional_toggle_back x (l : list (SubDoc PackingItem.t)) d :
  List.find (fun d => bool_decide (_id d = x)) l = Some d →
  let b := PackingItem.packed (dumped d) in
  let ticked := positional x (set_key (PackingItem.with_packed (negb b))) l in
  List.find (fun d => bool_decide (_id d = x)) ticked
  = Some (set_key (PackingItem.with_packed (negb b)) d)
  ∧ positional x (set_key (PackingItem.with_packed b)) ticked = l.
Proof.
  cbv zeta. induction l as [|e r IH]; [discriminate|].
  cbn [List.find positional]. case_bool_decide as He.
  - intros [= <-]. cbn [List.find positional set_key _id].
    rewrite !bool_decide_eq_true_2 by exact He. split; [reflexivity|].
    f_equal. destruct e as [i [? ? ? ? ?]]. reflexivity.
  - intros Hfind. destruct (IH Hfind) as [IH1 IH2].
    cbn [List.find positional]. rewrite !bool_decide_eq_false_2 by exact He.
    split; [exact IH1|]. f_equal. exact IH2.
Qed.

(** X12. [toggle_packing_item] on a stored item, named by its identifier in
    canonical spelling: the call answers the negation of the item's
    [packed], the listing that follows shows that item with [packed]
    negated and every other item as it was, and a second call answers
    the former value and puts the database back as it was. *)
Theorem toggle_packing_item_flips trip_id item_id current_user db trip d :
  ObjectId.is_valid trip_id = true →
  ObjectId.is_valid item_id = true →
  ObjectId.of_string item_id = item_id →
  trips db !! ObjectId.of_string trip_id = Some trip →
  canAccess (Trip_ (ObjectId.of_string trip_id) trip) (User.id current_user) →
  NoDup (map _id (TripDoc.packing_items trip)) →
  List.find (fun d => bool_decide (_id d = item_id)) (TripDoc.packing_items trip) = Some d →
  let b := PackingItem.packed (dumped d) in
  ∃ db',
    toggle_packing_item trip_id item_id current_user db = (Ok (negb b), db')
    ∧ get_trip_packing_items trip_id current_user db'
      = (Ok (map (fun item => if bool_decide (PackingItem.id item = item_id)
                              then PackingItem.with_packed (negb (PackingItem.packed item)) item
                              else item)
                 (Trip.packing_items (Trip_ (ObjectId.of_string trip_id) trip))),
         db')
    ∧ toggle_packing_item trip_id item_id current_user db' = (Ok b, db).
Proof.
  intros Hvalid Hitem Hcanon Hfind Hacc%access_denied_false_iff Hnd Hd. cbv zeta.
  destruct (positional_toggle_back _ _ _ Hd) as [Hd' Hback]. cbv zeta in Hd', Hback.
  exists (with_trips
            (alter (on_packing_items
                      (positional item_id
                         (set_key (PackingItem.with_packed
                                     (negb (PackingItem.packed (dumped d)))))))
                   (ObjectId.of_string trip_id) (trips db)) db).
  split; [|split].
  - unfold toggle_packing_item, bind, raise_if, find_one_trip, raise, ret.
    rewrite Hvalid, Hitem. cbn [negb orb]. rewrite Hfind, Hacc.
    unfold Trip_ at 1. cbn [Trip.packing_items]. rewrite find_PackingItem_, Hd.
    cbn [fmap option_fmap option_map]. unfold update_one_trip.
    unfold PackingItem_ at 1, PackingItem.with_id at 1. cbn [PackingItem.packed].
    rewrite Hcanon. reflexivity.
  - unfold get_trip_packing_items, bind, raise_if, find_one_trip, raise, ret.
    rewrite Hvalid. cbn [negb trips with_trips].
    rewrite lookup_alter_eq, Hfind. cbn [fmap option_fmap option_map].
    rewrite access_denied_on_packing_items, Hacc.
    f_equal. f_equal. unfold Trip_. cbn [Trip.packing_items].
    unfold on_packing_items. cbn [TripDoc.packing_items TripDoc.with_packing_items].
    rewrite (positional_NoDup _ _ _ Hnd), !map_map. apply map_ext_in.
    intros e He.
    change (PackingItem.id (PackingItem_ e)) with (_id e).
    destruct (decide (_id e = item_id)) as [Hx|Hx];
      [|rewrite !bool_decide_eq_false_2 by exact Hx; reflexivity].
    rewrite !bool_decide_eq_true_2 by exact Hx.
    apply list_elem_of_In in He.
    assert (Hfirst : e = d).
    { clear -Hnd He Hx Hd. induction (TripDoc.packing_items trip) as [|e' r IH];
        [inversion He|].
      cbn [map] in Hnd. apply NoDup_cons in Hnd as [Hnotin Hnd].
      cbn [List.find] in Hd. case_bool_decide as He'.
      - injection Hd as <-. apply elem_of_cons in He as [He|He]; [exact He|].
        exfalso. apply Hnotin. rewrite He', <- Hx.
        apply list_elem_of_fmap. exists e. split; [reflexivity|exact He].
      - apply elem_of_cons in He as [He|He]; [congruence|]. apply IH; assumption. }
    subst e. unfold PackingItem_, set_key, PackingItem.with_id, PackingItem.with_packed.
    cbn. reflexivity.
  - unfold toggle_packing_item, bind, raise_if, find_one_trip, raise, ret.
    rewrite Hvalid, Hitem. cbn [negb orb trips with_trips].
    rewrite lookup_alter_eq, Hfind. cbn [fmap option_fmap option_map].
    rewrite access_denied_on_packing_items, Hacc.
    unfold Trip_ at 1. cbn [Trip.packing_items]. rewrite find_PackingItem_.
    unfold on_packing_items at 1. cbn [TripDoc.packing_items TripDoc.with_packing_items].
    rewrite Hd'. cbn [fmap option_fmap option_map]. unfold update_one_trip.
    change (PackingItem.packed
              (PackingItem_
                 (set_key (PackingItem.with_packed (negb (PackingItem.packed (dumped d)))) d)))
      with (negb (PackingItem.packed (dumped d))).
    rewrite negb_involutive, Hcanon.
    f_equal. apply (with_trips_alter_undo _ _ _ _ trip Hfind).
    unfold on_packing_items. cbn [TripDoc.packing_items TripDoc.with_packing_items].
    rewrite Hback. destruct trip; reflexivity.
Qed.

Lemma toggle_packing_item_flips_witness :
  ∃ db',
    toggle_packing_item Sample.trip_id (_id Sample.passport) Sample.ben Sample.db
    = (Ok (negb (PackingItem.packed (dumped Sample.passport))), db')
    ∧ toggle_packing_item Sample.trip_id (_id Sample.passport) Sample.ben db'
      = (Ok (PackingItem.packed (dumped Sample.passport)), Sample.db).
Proof.
  destruct (toggle_packing_item_flips Sample.trip_id (_id Sample.passport) Sample.ben
              Sample.db Sample.trip Sample.passport) as (db' & Hone & _ & Htwo).
  - vm_compute. reflexivity.
  - vm_compute. reflexivity.
  - vm_compute. reflexivity.
  - vm_compute. reflexivity.
  - right. apply list_elem_of_here.
  - cbn. apply NoDup_singleton.
  - vm_compute. reflexivity.
  - exists db'. split; assumption.
Defined.

(** X13. The comparison [toggle_packing_item] makes is between [str(item.id)]
    and the path parameter as it was sent, so an identifier written with
    a capital hexadecimal digit, which [ObjectId.is_valid] accepts and
    [ObjectId(...)] reads, names no item there: the call answers 404 and
    writes nothing, whatever the trip holds, while [delete_packing_item]
    given the same spelling goes through.  Stored identifiers are in the
    spelling [str] gives them. *)
Theorem toggle_packing_item_spelling trip_id item_id current_user db trip :
  ObjectId.is_valid trip_id = true →
  ObjectId.is_valid item_id = true →
  ObjectId.of_string item_id ≠ item_id →
  trips db !! ObjectId.of_string trip_id = Some trip →
  canAccess (Trip_ (ObjectId.of_string trip_id) trip) (User.id current_user) →
  Forall (fun d => ObjectId.of_string (_id d) = _id d) (TripDoc.packing_items trip) →
  toggle_packing_item trip_id item_id current_user db
  = (HTTPException 404 "Packing item not found", db)
  ∧ fst (delete_packing_item trip_id item_id current_user db)
    = Ok "Packing item deleted successfully".
Proof.
  intros Hvalid Hitem Hspell Hfind Hacc%access_denied_false_iff Hstored.
  unfold toggle_packing_item, delete_packing_item, bind, raise_if, find_one_trip, raise, ret.
  rewrite Hvalid, Hitem. cbn [negb orb]. rewrite Hfind, Hacc.
  split; [|reflexivity].
  unfold Trip_ at 1. cbn [Trip.packing_items]. rewrite find_PackingItem_.
  replace (List.find (fun d => bool_decide (_id d = item_id)) (TripDoc.packing_items trip))
    with (@None (SubDoc PackingItem.t)); [reflexivity|].
  symmetry. induction Hstored as [|d r Hd _ IH]; [reflexivity|].
  cbn [List.find]. rewrite bool_decide_eq_false_2; [exact IH|].
  intros He. apply Hspell. rewrite <- He. exact Hd.
Qed.

Lemma toggle_packing_item_spelling_witness :
  toggle_packing_item Sample.trip_id "64B7F3A2C9E1D4F5A6B7C831" Sample.ana Sample.db
  = (HTTPException 404 "Packing item not found", Sample.db)
  ∧ fst (delete_packing_item Sample.trip_id "64B7F3A2C9E1D4F5A6B7C831" Sample.ana Sample.db)
    = Ok "Packing item deleted successfully".
Proof.
  apply (toggle_packing_item_spelling Sample.trip_id "64B7F3A2C9E1D4F5A6B7C831" Sample.ana
           Sample.db Sample.trip).
  - vm_compute. reflexivity.
  - vm_compute. reflexivity.
  - vm_compute. discriminate.
  - vm_compute. reflexivity.
  - left. reflexivity.
  - repeat constructor.
Defined.

(** ** Packing items by category *)

Lemma fold_add_to_group l categories c :
  fold_left add_to_group l categories !! c
  = match in_category c l with
    | [] => categories !! c
    | g =>
        let group := default (mkPackingCategory [] 0 0) (categories !! c) in
        Some (mkPackingCategory
                (items group ++ g)%list
                (packed_count group + Z.of_nat (length (List.filter PackingItem.packed g)))
                (total_count group + Z.of_nat (length g)))
    end.
Proof.
  revert categories. induction l as [|item r IH]; intros categories; [reflexivity|].
  cbn [fold_left]. rewrite IH. clear IH. unfold in_category. cbn [List.filter].
  unfold add_to_group at 1 2 3 4.
  destruct (decide (PackingItem.category item = c)) as [Hc|Hc].
  - rewrite (bool_decide_eq_true_2 _ Hc). subst c.
    set (group := default (mkPackingCategory [] 0 0)
                          (categories !! PackingItem.category item)).
    rewrite !lookup_insert_eq.
    cbn [default from_option id items packed_count total_count].
    destruct (List.filter _ r) as [|i g] eqn:Hg.
    + cbn [List.filter length]. f_equal.
      destruct (PackingItem.packed item); cbn [List.filter length]; f_equal; lia.
    + cbv zeta. f_equal. rewrite <- app_assoc. cbn [app].
      destruct (PackingItem.packed item); cbn [List.filter length]; f_equal; lia.
  - rewrite (bool_decide_eq_false_2 _ Hc).
    rewrite !lookup_insert_ne by exact Hc. reflexivity.
Qed.

(** X14. [get_packing_categories] groups what the trip holds: a category no
    item carries is not a key of the answer, and a category some item
    carries is mapped to its items in the trip's order, the number of
    them that are packed, and their number.  Nothing is written. *)
Theorem packing_categories_spec trip_id current_user db trip :
  ObjectId.is_valid trip_id = true →
  trips db !! ObjectId.of_string trip_id = Some trip →
  canAccess (Trip_ (ObjectId.of_string trip_id) trip) (User.id current_user) →
  ∃ categories,
    get_packing_categories trip_id current_user db = (Ok categories, db)
    ∧ ∀ c,
        let group := in_category c (Trip.packing_items (Trip_ (ObjectId.of_string trip_id) trip)) in
        categories !! c
        = if bool_decide (group = [])
          then None
          else Some (mkPackingCategory
                       group
                       (Z.of_nat (length (List.filter PackingItem.packed group)))
                       (Z.of_nat (length group))).
Proof.
  intros Hvalid Hfind Hacc%access_denied_false_iff.
  eexists. split.
  - unfold get_packing_categories, bind, raise_if, find_one_trip, raise, ret.
    rewrite Hvalid. cbn [negb]. rewrite Hfind, Hacc. reflexivity.
  - intros c. cbv zeta. rewrite fold_add_to_group, lookup_empty.
    destruct (in_category c _) as [|i g]; [reflexivity|].
    rewrite bool_decide_eq_false_2 by discriminate.
    cbn [default items packed_count total_count app]. rewrite !Z.add_0_l. reflexivity.
Qed.

Lemma packing_categories_spec_witness :
  ∃ categories,
    get_packing_categories Sample.trip_id Sample.ben Sample.db = (Ok categories, Sample.db)
    ∧ categories !! "documents"
      = Some (mkPackingCategory [PackingItem_ Sample.passport] 0 1)
    ∧ categories !! "clothes" = None.
Proof.
  destruct (packing_categories_spec Sample.trip_id Sample.ben Sample.db Sample.trip)
    as (categories & Hrun & Hcat).
  - vm_compute. reflexivity.
  - vm_compute. reflexivity.
  - right. apply list_elem_of_here.
  - exists categories. split; [exact Hrun|].
    split; [rewrite (Hcat "documents")|rewrite (Hcat "clothes")]; reflexivity.
Defined.

(** ** What a refused call leaves behind *)

Lemma reorder_activities_result trip_id activity_orders current_user db :
  reorder_activities trip_id activity_orders current_user db
  = if negb (ObjectId.is_valid trip_id) then (HTTPException 400 "Invalid trip ID", db)
    else match trips db !! ObjectId.of_string trip_id with
         | None => (HTTPException 404 "Trip not found", db)
         | Some trip =>
             if access_denied (Trip_ (ObjectId.of_string trip_id) trip) current_user
             then (HTTPException 403 "Access denied", db)
             else (Ok "Activities reordered successfully",
                   with_trips (alter (on_activities (apply_orders activity_orders))
                                     (ObjectId.of_string trip_id) (trips db)) db)
         end.
Proof.
  unfold reorder_activities, bind, raise_if, find_one_trip, raise.
  destruct (negb (ObjectId.is_valid trip_id)); [reflexivity|].
  unfold ret at 1.
  destruct (trips db !! ObjectId.of_string trip_id); [|reflexivity].
  destruct (access_denied _ _); [reflexivity|].
  unfold ret at 1. rewrite reorder_loop_result. reflexivity.
Qed.

(** X15. Every handler makes its checks before its first write: a call that
    is answered with an error, whichever it is, leaves the database as
    it was.  This holds for the twenty handlers on a trip and its
    embedded collections, for the three owner-only handlers, and for
    [join_trip].  The handlers served under [GET] write nothing in any
    case. *)
Theorem refused_call_writes_nothing settings export_service trip_id current_user db :
  (∀ c, fst (run_guarded settings export_service c trip_id current_user db) ≠ None →
        snd (run_guarded settings export_service c trip_id current_user db) = db)
  ∧ (∀ c, fst (run_owner_only c trip_id current_user db) ≠ None →
          snd (run_owner_only c trip_id current_user db) = db)
  ∧ (error_of (join_trip trip_id current_user db) ≠ None →
     snd (join_trip trip_id current_user db) = db)
  ∧ (∀ c, is_get c = true →
          snd (run_guarded settings export_service c trip_id current_user db) = db).
Proof.
  split; [|split; [|split]].
  - intros c. destruct c; cbn [run_guarded observe fst snd]; unfold error_of;
      try (handler_paths; intros Herr; first [reflexivity | exfalso; apply Herr; reflexivity]).
    rewrite reorder_activities_result.
    destruct (negb (ObjectId.is_valid trip_id)); [reflexivity|].
    destruct (trips db !! ObjectId.of_string trip_id); [|reflexivity].
    destruct (access_denied _ _); [reflexivity|].
    cbn [fst snd]. intros Herr. exfalso. apply Herr. reflexivity.
  - intros c. destruct c; cbn [run_owner_only observe fst snd]; unfold error_of;
      handler_paths; intros Herr;
      first [ reflexivity
            | exfalso; apply Herr; reflexivity
            | exfalso; cbn [trips with_trips] in *;
              match goal with
              | H : alter _ _ _ !! _ = None |- _ =>
                  rewrite lookup_alter_eq in H;
                  match goal with
                  | H' : _ !! _ = Some _ |- _ => rewrite H' in H; discriminate H
                  end
              end ].
  - unfold error_of. handler_paths; intros Herr;
      first [ reflexivity
            | exfalso; apply Herr; reflexivity
            | exfalso; cbn [trips with_trips] in *;
              match goal with
              | H : alter _ _ _ !! _ = None |- _ =>
                  rewrite lookup_alter_eq in H;
                  match goal with
                  | H' : _ !! _ = Some _ |- _ => rewrite H' in H; discriminate H
                  end
              end ].
  - intros c Hget. destruct c; try discriminate Hget; cbn [run_guarded observe snd];
      handler_paths; reflexivity.
Qed.

Lemma refused_call_writes_nothing_witness :
  fst (run_guarded Sample.settings Sample.export_service
         (DeleteActivity (_id Sample.museum)) Sample.trip_id Sample.cy Sample.db)
  = Some (403, "Access denied")
  ∧ snd (run_guarded Sample.settings Sample.export_service
           (DeleteActivity (_id Sample.museum)) Sample.trip_id Sample.cy Sample.db)
    = Sample.db.
Proof.
  split; [vm_compute; reflexivity|].
  apply (proj1 (refused_call_writes_nothing Sample.settings Sample.export_service
                  Sample.trip_id Sample.cy Sample.db)).
  vm_compute. discriminate.
Defined.

(** ** The summary after a new expense *)

(** X16. Creating an expense moves the summary by that expense: the total
    becomes the former total plus the amount (one floating-point
    addition, the new expense being last in the sum), [remaining] is the
    budget minus the new total, the budget is as it was, and in the
    breakdown only the expense's own category changes, to its former
    total plus the amount, or to the amount where the category is new. *)
Theorem create_expense_moves_summary trip_id expense current_user new_id db trip :
  ObjectId.is_valid trip_id = true →
  trips db !! ObjectId.of_string trip_id = Some trip →
  canAccess (Trip_ (ObjectId.of_string trip_id) trip) (User.id current_user) →
  ∃ s s' db',
    get_expense_summary trip_id current_user db = (Ok s, db)
    ∧ snd (create_expense trip_id expense current_user new_id db) = db'
    ∧ get_expense_summary trip_id current_user db' = (Ok s', db')
    ∧ summary_budget s' = summary_budget s
    ∧ total_spent s' = (total_spent s + Expense.amount expense)%float
    ∧ remaining s' = (summary_budget s - total_spent s')%float
    ∧ category_breakdown s'
      = <[Expense.category expense :=
            match category_breakdown s !! Expense.category expense with
            | Some total => (total + Expense.amount expense)%float
            | None => Expense.amount expense
            end]> (category_breakdown s).
Proof.
  intros Hvalid Hfind Hacc%access_denied_false_iff.
  eexists. eexists. eexists. split; [|split; [reflexivity|split]].
  - unfold get_expense_summary, bind, raise_if, find_one_trip, raise, ret.
    rewrite Hvalid. cbn [negb]. rewrite Hfind, Hacc. reflexivity.
  - unfold create_expense, get_expense_summary, bind, raise_if, find_one_trip, raise, ret,
      update_one_trip.
    rewrite Hvalid. cbn [negb]. rewrite Hfind, Hacc. cbn [snd trips with_trips].
    rewrite lookup_alter_eq, Hfind. cbn [fmap option_fmap option_map].
    rewrite access_denied_on_expenses, Hacc. reflexivity.
  - cbn [summary_budget total_spent remaining category_breakdown].
    unfold Trip_, on_expenses, push.
    cbn [Trip.budget Trip.expenses TripDoc.budget TripDoc.expenses TripDoc.with_expenses].
    rewrite map_app. cbn [map].
    unfold sum_amounts, category_totals. rewrite !fold_left_app. cbn [fold_left].
    change (Expense.amount (Expense_ {| _id := new_id; dumped := expense |}))
      with (Expense.amount expense).
    split; [reflexivity|]. split; [reflexivity|]. split; [reflexivity|].
    unfold add_to_category at 1.
    change (Expense.category (Expense_ {| _id := new_id; dumped := expense |}))
      with (Expense.category expense).
    change (Expense.amount (Expense_ {| _id := new_id; dumped := expense |}))
      with (Expense.amount expense).
    destruct (_ !! Expense.category expense); reflexivity.
Qed.

Lemma create_expense_moves_summary_witness :
  ∃ s',
    fst (get_expense_summary SummaryExample.trip_id SummaryExample.owner
           (snd (create_expense SummaryExample.trip_id
                   (Expense.mk "64b7f3a2c9e1d4f5a6b7c8a4" "tram" 20%float "transport" 4 None)
                   SummaryExample.owner "64b7f3a2c9e1d4f5a6b7c814" SummaryExample.db)))
    = Ok s'
    ∧ total_spent s' = 200%float
    ∧ remaining s' = 300%float
    ∧ category_breakdown s' !! "transport" = Some 50%float
    ∧ category_breakdown s' !! "food" = Some 150%float.
Proof.
  destruct (create_expense_moves_summary SummaryExample.trip_id
              (Expense.mk "64b7f3a2c9e1d4f5a6b7c8a4" "tram" 20%float "transport" 4 None)
              SummaryExample.owner "64b7f3a2c9e1d4f5a6b7c814" SummaryExample.db
              SummaryExample.trip)
    as (s & s' & db' & Hs & Hdb' & Hs' & _ & Htotal & Hrem & Hbreak).
  - vm_compute. reflexivity.
  - vm_compute. reflexivity.
  - left. reflexivity.
  - exists s'. rewrite Hdb', Hs'. split; [reflexivity|].
    vm_compute in Hs. injection Hs as <-.
    rewrite Hrem, Hbreak, Htotal. vm_compute. repeat split; reflexivity.
Defined.

(** ** What an export is given *)





(** ** The spelling of identifiers *)

Lemma lower_hex_lower_hex c : ObjectId.lower_hex (ObjectId.lower_hex c) = ObjectId.lower_hex c.
Proof.
  destruct c as [[] [] [] [] [] [] [] []]; vm_compute; reflexivity.
Qed.

Lemma is_hex_digit_lower_hex c :
  ObjectId.is_hex_digit (ObjectId.lower_hex c) = ObjectId.is_hex_digit c.
Proof.
  destruct c as [[] [] [] [] [] [] [] []]; vm_compute; reflexivity.
Qed.

Lemma is_space_lower_hex c : ObjectId.is_space (ObjectId.lower_hex c) = ObjectId.is_space c.
Proof.
  destruct c as [[] [] [] [] [] [] [] []]; vm_compute; reflexivity.
Qed.


Lemma fromhex_lower s : ObjectId.fromhex (ObjectId.lower s) = ObjectId.fromhex s.
Proof.
  assert (H : ∀ n s, (String.length s < n)%nat →
                     ObjectId.fromhex (ObjectId.lower s) = ObjectId.fromhex s).
  { clear s. induction n as [|n IH]; intros s Hn; [lia|].
    destruct s as [|c r]; [reflexivity|]. cbn [String.length] in Hn.
    cbn [ObjectId.lower ObjectId.fromhex].
    rewrite is_space_lower_hex, is_hex_digit_lower_hex, lower_hex_lower_hex.
    destruct (ObjectId.is_space c); [apply IH; lia|].
    destruct (ObjectId.is_hex_digit c); [|reflexivity].
    destruct r as [|d r']; [reflexivity|]. cbn [String.length] in Hn.
    cbn [ObjectId.lower]. rewrite is_hex_digit_lower_hex, lower_hex_lower_hex.
    destruct (ObjectId.is_hex_digit d); [|reflexivity].
    rewrite IH by lia. reflexivity. }
  apply (H (S (String.length s))). lia.
Qed.

Lemma length_lower s : String.length (ObjectId.lower s) = String.length s.
Proof.
  induction s as [|c r IH]; [reflexivity|].
  cbn [ObjectId.lower String.length]. rewrite IH. reflexivity.
Qed.

Lemma is_valid_lower s : ObjectId.is_valid (ObjectId.lower s) = ObjectId.is_valid s.
Proof.
  unfold ObjectId.is_valid. rewrite length_lower, fromhex_lower. reflexivity.
Qed.

Lemma of_string_lower s : ObjectId.of_string (ObjectId.lower s) = ObjectId.of_string s.
Proof.
  unfold ObjectId.of_string. rewrite fromhex_lower. reflexivity.
Qed.




(** X19. The trip identifier of a path is read through [ObjectId.is_valid]
    and [ObjectId(...)] alone, so its capital hexadecimal digits may be
    written small and the call is answered the same and writes the same,
    for each of the twenty handlers on a trip and its collections, the
    three owner-only handlers and [join_trip]. *)
Theorem trip_id_spelling settings export_service trip_id current_user db :
  (∀ c, run_guarded settings export_service c (ObjectId.lower trip_id) current_user db
        = run_guarded settings export_service c trip_id current_user db)
  ∧ (∀ c, run_owner_only c (ObjectId.lower trip_id) current_user db
          = run_owner_only c trip_id current_user db)
  ∧ join_trip (ObjectId.lower trip_id) current_user db = join_trip trip_id current_user db.
Proof.
  split; [|split]; [intros c; destruct c; cbn [run_guarded] | intros c; destruct c;
    cbn [run_owner_only] | ];
    unfold_handlers; rewrite ?of_string_lower, ?is_valid_lower; reflexivity.
Qed.

(** ** The connection manager *)

Lemma remove_Some x l l' :
  ConnectionManager.remove x l = Some l' →
  ∃ l1 l2, l = (l1 ++ x :: l2)%list ∧ l' = (l1 ++ l2)%list ∧ x ∉ l1.
Proof.
  revert l'. induction l as [|y r IH]; intros l'; [discriminate|].
  cbn [ConnectionManager.remove]. case_bool_decide as Hy.
  - intros [= <-]. subst y. exists [], r. repeat split. apply not_elem_of_nil.
  - destruct (ConnectionManager.remove x r) as [r'|]; [|discriminate]. intros [= <-].
    destruct (IH r' eq_refl) as (l1 & l2 & -> & -> & Hx).
    exists (y :: l1), l2. repeat split.
    intros [H|H]%elem_of_cons; [apply Hy; symmetry; exact H | exact (Hx H)].
Qed.

Lemma remove_elem_of x l : x ∈ l → is_Some (ConnectionManager.remove x l).
Proof.
  induction l as [|y r IH]; [intros H; inversion H|].
  intros [H|H]%elem_of_cons; cbn [ConnectionManager.remove];
    case_bool_decide as Hy; try (eexists; reflexivity).
  - congruence.
  - destruct (IH H) as [r' ->]. eexists. reflexivity.
Qed.

Lemma remove_not_elem_of x l : x ∉ l → ConnectionManager.remove x l = None.
Proof.
  intros Hx. destruct (ConnectionManager.remove x l) as [l'|] eqn:Hr; [|reflexivity].
  apply remove_Some in Hr as (l1 & l2 & -> & _ & _).
  exfalso. apply Hx. apply elem_of_app. right. apply list_elem_of_here.
Qed.

Lemma remove_app_fresh c (done rest : list ConnectionManager.WebSocket) :
  c ∉ done → ConnectionManager.remove c (done ++ c :: rest) = Some (done ++ rest)%list.
Proof.
  induction done as [|y r IH]; intros Hc; cbn [app ConnectionManager.remove].
  - rewrite bool_decide_eq_true_2 by reflexivity. reflexivity.
  - rewrite bool_decide_eq_false_2.
    + rewrite IH; [reflexivity|]. intros H. apply Hc. right. exact H.
    + intros ->. apply Hc. left.
Qed.

(** The loop with the iterator past [done] and [rest] still ahead. *)
Lemma broadcast_loop_passes fails message fuel done rest sent :
  NoDup (done ++ rest) → (length rest < fuel)%nat →
  ConnectionManager.broadcast_loop fuel fails message (length done) (done ++ rest) sent
  = (ConnectionManager.Returned,
     (done ++ fst (ConnectionManager.passes fails rest))%list,
     (sent ++ map (fun c => (c, message)) (snd (ConnectionManager.passes fails rest)))%list).
Proof.
  revert done rest sent. induction fuel as [|fuel IH]; intros done rest sent Hnd Hfuel; [lia|].
  cbn [ConnectionManager.broadcast_loop].
  destruct rest as [|c r].
  { rewrite lookup_ge_None_2 by (rewrite length_app; cbn; lia).
    cbn. rewrite !app_nil_r. reflexivity. }
  rewrite list_lookup_middle by reflexivity.
  cbn [ConnectionManager.passes length] in *.
  assert (Hc : c ∉ done).
  { apply NoDup_app in Hnd as (_ & H & _). intros Hin. apply (H c Hin). left. }
  destruct (fails c).
  - rewrite (remove_app_fresh _ _ _ Hc).
    assert (Hnd' : NoDup (done ++ r)).
    { apply NoDup_app in Hnd as (H1 & H2 & H3). apply NoDup_cons in H3 as [_ H3].
      apply NoDup_app. repeat split; [exact H1| |exact H3].
      intros x Hx Hx'. apply (H2 x Hx). right. exact Hx'. }
    destruct r as [|n r'].
    + destruct fuel as [|fuel]; [lia|]. cbn [ConnectionManager.broadcast_loop].
      rewrite lookup_ge_None_2 by (rewrite length_app; cbn; lia).
      cbn. rewrite !app_nil_r. reflexivity.
    + replace (done ++ n :: r')%list with ((done ++ [n]) ++ r')%list in *
        by (rewrite <- app_assoc; reflexivity).
      replace (S (length done)) with (length (done ++ [n])%list)
        by (rewrite length_app; cbn; lia).
      rewrite IH by (try exact Hnd'; cbn [length] in Hfuel; lia).
      destruct (ConnectionManager.passes fails r') as [kept to].
      cbn [fst snd]. rewrite <- app_assoc. reflexivity.
  - replace (done ++ c :: r)%list with ((done ++ [c]) ++ r)%list in *
      by (rewrite <- app_assoc; reflexivity).
    replace (S (length done)) with (length (done ++ [c])%list)
      by (rewrite length_app; cbn; lia).
    rewrite IH by (try exact Hnd; lia).
    destruct (ConnectionManager.passes fails r) as [kept to].
    cbn [fst snd map]. rewrite <- !app_assoc. reflexivity.
Qed.

(** What [passes] keeps and sends to. *)
Lemma passes_spec fails l :
  let '(kept, to) := ConnectionManager.passes fails l in
  sublist kept l ∧ sublist to kept
  ∧ (∀ c, c ∈ to → fails c = false)
  ∧ (∀ c, c ∈ l → fails c = false → c ∈ kept).
Proof.
  assert (H : ∀ n l, (length l < n)%nat →
              let '(kept, to) := ConnectionManager.passes fails l in
              sublist kept l ∧ sublist to kept
              ∧ (∀ c, c ∈ to → fails c = false)
              ∧ (∀ c, c ∈ l → fails c = false → c ∈ kept)).
  { clear l. induction n as [|n IH]; intros l Hn; [lia|].
    destruct l as [|c r]; cbn [ConnectionManager.passes].
    { split; [constructor|]. split; [constructor|].
      split; intros c Hc; inversion Hc. }
    cbn [length] in Hn. destruct (fails c) eqn:Hc.
    - destruct r as [|x r'].
      { split; [apply sublist_nil_l|]. split; [constructor|].
        split; [intros y Hy; inversion Hy|].
        intros y [->|Hy]%elem_of_cons Hy'; [congruence|inversion Hy]. }
      cbn [length] in Hn. specialize (IH r' ltac:(lia)).
      destruct (ConnectionManager.passes fails r') as [kept to].
      destruct IH as (H1 & H2 & H3 & H4). split; [|split; [|split]].
      + apply sublist_cons. apply sublist_skip. exact H1.
      + apply sublist_cons. exact H2.
      + exact H3.
      + intros y [->|[->|Hy]%elem_of_cons]%elem_of_cons Hy'; [congruence|left|].
        right. apply H4; assumption.
    - specialize (IH r ltac:(lia)).
      destruct (ConnectionManager.passes fails r) as [kept to].
      destruct IH as (H1 & H2 & H3 & H4). split; [|split; [|split]].
      + apply sublist_skip. exact H1.
      + apply sublist_skip. exact H2.
      + intros y [->|Hy]%elem_of_cons; [exact Hc|apply H3, Hy].
      + intros y [->|Hy]%elem_of_cons Hy'; [left|right; apply H4; assumption]. }
  apply (H (S (length l))). lia.
Qed.

Lemma passes_working_prefix fails pre r :
  (∀ c, c ∈ pre → fails c = false) →
  ConnectionManager.passes fails (pre ++ r)
  = ((pre ++ fst (ConnectionManager.passes fails r))%list,
     (pre ++ snd (ConnectionManager.passes fails r))%list).
Proof.
  induction pre as [|c pre IH]; intros Hpre.
  - cbn [app]. destruct (ConnectionManager.passes fails r). reflexivity.
  - cbn [app ConnectionManager.passes]. rewrite (Hpre c) by left.
    rewrite IH by (intros x Hx; apply Hpre; right; exact Hx). reflexivity.
Qed.

Lemma passes_all_working fails l :
  (∀ c, c ∈ l → fails c = false) → ConnectionManager.passes fails l = (l, l).
Proof.
  intros Hl. rewrite <- (app_nil_r l) at 1. rewrite (passes_working_prefix _ _ _ Hl).
  cbn. rewrite app_nil_r. reflexivity.
Qed.

Lemma broadcast_to_trip_passes fails message trip_id self l :
  self !! trip_id = Some l → NoDup l →
  ConnectionManager.broadcast_to_trip fails message trip_id self
  = (ConnectionManager.Returned,
     <[trip_id := fst (ConnectionManager.passes fails l)]> self,
     map (fun c => (c, message)) (snd (ConnectionManager.passes fails l))).
Proof.
  intros Hl Hnd. unfold ConnectionManager.broadcast_to_trip. rewrite Hl.
  pose proof (broadcast_loop_passes fails message (S (length l)) [] l [] Hnd
                ltac:(lia)) as Hloop.
  cbn [app length] in Hloop. rewrite Hloop. reflexivity.
Qed.

(** X20. A broadcast over distinct connections returns, and what it does is
    within bounds: the message goes to connections of that trip only,
    each of them working, none twice, in the order they connected; the
    trip's list keeps its order and loses no working connection; and
    the lists of the other trips are as they were. *)
Theorem broadcast_within_bounds fails message trip_id self l :
  self !! trip_id = Some l → NoDup l →
  ∃ kept to,
    ConnectionManager.broadcast_to_trip fails message trip_id self
    = (ConnectionManager.Returned, <[trip_id := kept]> self,
       map (fun c => (c, message)) to)
    ∧ sublist to l ∧ NoDup to
    ∧ (∀ c, c ∈ to → fails c = false)
    ∧ sublist kept l
    ∧ (∀ c, c ∈ l → fails c = false → c ∈ kept)
    ∧ (∀ other, other ≠ trip_id → <[trip_id := kept]> self !! other = self !! other).
Proof.
  intros Hl Hnd.
  exists (fst (ConnectionManager.passes fails l)), (snd (ConnectionManager.passes fails l)).
  split; [apply broadcast_to_trip_passes; assumption|].
  pose proof (passes_spec fails l) as Hspec.
  destruct (ConnectionManager.passes fails l) as [kept to]. cbn [fst snd].
  destruct Hspec as (H1 & H2 & H3 & H4).
  assert (Hto : sublist to l) by (etransitivity; eassumption).
  split; [exact Hto|]. split; [eapply sublist_NoDup; eassumption|].
  split; [exact H3|]. split; [exact H1|]. split; [exact H4|].
  intros other Hother. apply lookup_insert_ne. congruence.
Qed.

Lemma broadcast_within_bounds_witness :
  let fails := fun c => bool_decide (c = 2%nat) in
  let self : ConnectionManager.t := {[ "lisbon" := [1; 2; 3; 4]%nat; "porto" := [5%nat] ]} in
  ∃ kept to,
    ConnectionManager.broadcast_to_trip fails "hello" "lisbon" self
    = (ConnectionManager.Returned, <["lisbon" := kept]> self,
       map (fun c => (c, "hello")) to)
    ∧ sublist to [1; 2; 3; 4]%nat
    ∧ (∀ c, c ∈ to → fails c = false)
    ∧ 1%nat ∈ kept.
Proof.
  cbv zeta.
  destruct (broadcast_within_bounds (fun c => bool_decide (c = 2%nat)) "hello" "lisbon"
              {[ "lisbon" := [1; 2; 3; 4]%nat; "porto" := [5%nat] ]} [1; 2; 3; 4]%nat)
    as (kept & to & Hrun & Hto & _ & Hworking & _ & Hkeep & _).
  - vm_compute. reflexivity.
  - repeat (apply NoDup_cons; split; [intros H%list_elem_of_In; cbn in H; lia|]).
    apply NoDup_nil_2.
  - exists kept, to. split; [exact Hrun|]. split; [exact Hto|]. split; [exact Hworking|].
    apply Hkeep; [left|reflexivity].
Defined.

Lemma broadcast_loop_working fails message fuel done rest sent :
  (∀ c, c ∈ rest → fails c = false) → (length rest < fuel)%nat →
  ConnectionManager.broadcast_loop fuel fails message (length done) (done ++ rest) sent
  = (ConnectionManager.Returned, (done ++ rest)%list,
     (sent ++ map (fun c => (c, message)) rest)%list).
Proof.
  revert done rest sent. induction fuel as [|fuel IH]; intros done rest sent Hrest Hfuel; [lia|].
  cbn [ConnectionManager.broadcast_loop].
  destruct rest as [|c r].
  { rewrite lookup_ge_None_2 by (rewrite length_app; cbn; lia).
    cbn. rewrite !app_nil_r. reflexivity. }
  rewrite list_lookup_middle by reflexivity.
  rewrite (Hrest c) by left. cbn [length] in Hfuel.
  replace (done ++ c :: r)%list with ((done ++ [c]) ++ r)%list
    by (rewrite <- app_assoc; reflexivity).
  replace (S (length done)) with (length (done ++ [c])%list)
    by (rewrite length_app; cbn; lia).
  rewrite IH by (try lia; intros x Hx; apply Hrest; right; exact Hx).
  cbn [map]. rewrite <- !app_assoc. reflexivity.
Qed.

(** X21. With every connection of the trip working, whether or not a socket
    is listed twice, a broadcast sends the message once for each entry
    of the trip's list, in the order of the list, and leaves the manager
    as it was; for a trip with no entry it sends nothing. *)
Theorem broadcast_reaches_all fails message trip_id self :
  (∀ l, self !! trip_id = Some l → (∀ c, c ∈ l → fails c = false) →
        ConnectionManager.broadcast_to_trip fails message trip_id self
        = (ConnectionManager.Returned, self, map (fun c => (c, message)) l))
  ∧ (self !! trip_id = None →
     ConnectionManager.broadcast_to_trip fails message trip_id self
     = (ConnectionManager.Returned, self, [])).
Proof.
  unfold ConnectionManager.broadcast_to_trip. split.
  - intros l Hl Hworking. rewrite Hl.
    pose proof (broadcast_loop_working fails message (S (length l)) [] l [] Hworking
                  ltac:(lia)) as Hloop.
    cbn [app length] in Hloop. rewrite Hloop, (insert_id _ _ _ Hl). reflexivity.
  - intros ->. reflexivity.
Qed.

Lemma broadcast_reaches_all_witness :
  let self : ConnectionManager.t := {[ "lisbon" := [1; 2; 1]%nat ]} in
  ConnectionManager.broadcast_to_trip (fun _ => false) "hello" "lisbon" self
  = (ConnectionManager.Returned, self, [(1, "hello"); (2, "hello"); (1, "hello")]%nat)
  ∧ ConnectionManager.broadcast_to_trip (fun _ => false) "hello" "porto" self
    = (ConnectionManager.Returned, self, []).
Proof.
  cbv zeta.
  destruct (broadcast_reaches_all (fun _ => false) "hello" "lisbon"
              {[ "lisbon" := [1; 2; 1]%nat ]}) as [Hsome _].
  destruct (broadcast_reaches_all (fun _ => false) "hello" "porto"
              {[ "lisbon" := [1; 2; 1]%nat ]}) as [_ Hnone].
  split.
  - apply (Hsome [1; 2; 1]%nat); [vm_compute; reflexivity|reflexivity].
  - apply Hnone. vm_compute. reflexivity.
Defined.

(** X22. A connection that fails, reached after working ones: it is taken off
    the list, and the [disconnect] the endpoint makes for it once its
    socket closes finds it gone and raises [ValueError].  The connection
    that came after it moved into its place under the iterator: it is
    passed over, gets no message though it may be working, and stays on
    the list though it may be failing. *)
Theorem broadcast_passes_over_next fails message trip_id self pre broken rest :
  self !! trip_id = Some (pre ++ broken :: rest)%list →
  NoDup (pre ++ broken :: rest) →
  (∀ c, c ∈ pre → fails c = false) →
  fails broken = true →
  ∃ kept sent,
    ConnectionManager.broadcast_to_trip fails message trip_id self
    = (ConnectionManager.Returned, <[trip_id := kept]> self, sent)
    ∧ (broken ∉ kept)
    ∧ ConnectionManager.disconnect broken trip_id (<[trip_id := kept]> self) = None
    ∧ ∀ next post, rest = next :: post → next ∈ kept ∧ next ∉ map fst sent.
Proof.
  intros Hl Hnd Hpre Hbroken.
  eexists. eexists. split; [apply (broadcast_to_trip_passes _ _ _ _ _ Hl Hnd)|].
  rewrite (passes_working_prefix _ _ _ Hpre). cbn [fst snd].
  apply NoDup_app in Hnd as (Hnd1 & Hnd2 & Hnd3).
  apply NoDup_cons in Hnd3 as [Hnd3 Hnd4].
  assert (Hgone : broken ∉ (pre ++ fst (ConnectionManager.passes fails (broken :: rest)))%list).
  { intros [Hin|Hin]%elem_of_app; [apply (Hnd2 broken Hin); left|].
    cbn [ConnectionManager.passes] in Hin. rewrite Hbroken in Hin.
    destruct rest as [|next post]; [inversion Hin|].
    pose proof (passes_spec fails post) as Hspec.
    destruct (ConnectionManager.passes fails post) as [kept to]. cbn [fst] in Hin.
    destruct Hspec as (H1 & _).
    apply Hnd3. apply elem_of_cons in Hin as [->|Hin]; [left|right].
    eapply elem_of_sublist; eassumption. }
  split; [exact Hgone|]. split.
  - unfold ConnectionManager.disconnect. rewrite lookup_insert_eq.
    rewrite (remove_not_elem_of _ _ Hgone). reflexivity.
  - intros next post ->. cbn [ConnectionManager.passes]. rewrite Hbroken.
    pose proof (passes_spec fails post) as Hspec.
    destruct (ConnectionManager.passes fails post) as [kept to]. cbn [fst snd].
    destruct Hspec as (H1 & H2 & _). split.
    + apply elem_of_app. right. left.
    + rewrite map_map. cbn [fst]. rewrite map_id.
      apply NoDup_cons in Hnd4 as [Hnext _].
      intros [Hin|Hin]%elem_of_app.
      * apply (Hnd2 next Hin). right. left.
      * apply Hnext. eapply elem_of_sublist; [|exact H1].
        eapply elem_of_sublist; [|exact H2]. exact Hin.
Qed.

Lemma broadcast_passes_over_next_witness :
  let fails := fun c => bool_decide (c = 2%nat) in
  let self : ConnectionManager.t := {[ "lisbon" := [1; 2; 3; 4]%nat ]} in
  ∃ kept sent,
    ConnectionManager.broadcast_to_trip fails "hello" "lisbon" self
    = (ConnectionManager.Returned, <["lisbon" := kept]> self, sent)
    ∧ (2%nat ∉ kept)
    ∧ 3%nat ∈ kept
    ∧ 3%nat ∉ map fst sent.
Proof.
  cbv zeta.
  destruct (broadcast_passes_over_next (fun c => bool_decide (c = 2%nat)) "hello" "lisbon"
              {[ "lisbon" := [1; 2; 3; 4]%nat ]} [1%nat] 2%nat [3; 4]%nat)
    as (kept & sent & Hrun & Hgone & _ & Hnext).
  - vm_compute. reflexivity.
  - repeat (apply NoDup_cons; split; [intros H%list_elem_of_In; cbn in H; lia|]).
    apply NoDup_nil_2.
  - intros c Hc%list_elem_of_singleton. subst c. reflexivity.
  - reflexivity.
  - exists kept, sent. destruct (Hnext 3%nat [4%nat] eq_refl) as [Hin Hout].
    split; [exact Hrun|]. split; [exact Hgone|]. split; assumption.
Defined.

(** X23. [connect] and [disconnect].  [connect] puts the socket at the end of
    the trip's list, opening the list if need be, and touches no other
    trip.  [disconnect] of a socket that is not on the list of a listed
    trip raises [ValueError]; for a trip that is not listed it does
    nothing.  And [disconnect] undoes [connect], provided the socket was
    not listed for the trip already and the trip was not listed with no
    connections left. *)
Theorem connect_disconnect websocket trip_id self :
  let l := default [] (self !! trip_id) in
  ConnectionManager.connect websocket trip_id self !! trip_id = Some (l ++ [websocket])%list
  ∧ (∀ other, other ≠ trip_id →
       ConnectionManager.connect websocket trip_id self !! other = self !! other)
  ∧ (self !! trip_id = None → ConnectionManager.disconnect websocket trip_id self = Some self)
  ∧ (self !! trip_id = Some l → websocket ∉ l →
     ConnectionManager.disconnect websocket trip_id self = None)
  ∧ (websocket ∉ l → self !! trip_id ≠ Some [] →
     ConnectionManager.disconnect websocket trip_id
       (ConnectionManager.connect websocket trip_id self) = Some self).
Proof.
  cbv zeta.
  assert (Hconnect : ConnectionManager.connect websocket trip_id self
                     = <[trip_id := (default [] (self !! trip_id) ++ [websocket])%list]> self).
  { unfold ConnectionManager.connect. apply map_eq. intros k.
    destruct (decide (k = trip_id)) as [->|Hk].
    - rewrite lookup_insert_eq. destruct (self !! trip_id) as [l|] eqn:Hl.
      + rewrite bool_decide_eq_false_2 by discriminate.
        rewrite lookup_alter_eq, Hl. reflexivity.
      + rewrite bool_decide_eq_true_2 by reflexivity.
        rewrite lookup_alter_eq, lookup_insert_eq. reflexivity.
    - rewrite lookup_insert_ne by congruence. rewrite lookup_alter_ne by congruence.
      case_bool_decide; [rewrite lookup_insert_ne by congruence|]; reflexivity. }
  rewrite Hconnect. split; [apply lookup_insert_eq|].
  split; [intros other Hother; apply lookup_insert_ne; congruence|].
  split; [intros Hl; unfold ConnectionManager.disconnect; rewrite Hl; reflexivity|].
  split.
  - intros Hl Hout. unfold ConnectionManager.disconnect. rewrite Hl.
    rewrite (remove_not_elem_of _ _ Hout). reflexivity.
  - intros Hout Hopen. unfold ConnectionManager.disconnect. rewrite lookup_insert_eq.
    rewrite <- (app_nil_r [websocket]). cbn [app].
    rewrite (remove_app_fresh _ _ _ Hout), app_nil_r.
    destruct (self !! trip_id) as [l|] eqn:Hl; cbn [default from_option id].
    + rewrite bool_decide_eq_false_2 by congruence.
      rewrite insert_insert_eq. rewrite (insert_id _ _ _ Hl). reflexivity.
    + rewrite bool_decide_eq_true_2 by reflexivity.
      rewrite delete_insert_eq. rewrite (delete_id _ _ Hl). reflexivity.
Qed.

Lemma connect_disconnect_witness :
  ConnectionManager.disconnect 7%nat "lisbon"
    (ConnectionManager.connect 7%nat "lisbon" ConnectionManager.init)
  = Some ConnectionManager.init
  ∧ ConnectionManager.disconnect 7%nat "lisbon" {[ "lisbon" := [1%nat] ]} = None.
Proof.
  split.
  - apply (connect_disconnect 7%nat "lisbon" ConnectionManager.init).
    + cbn. apply not_elem_of_nil.
    + discriminate.
  - apply (connect_disconnect 7%nat "lisbon" {[ "lisbon" := [1%nat] ]}).
    + vm_compute. reflexivity.
    + intros H%list_elem_of_singleton. discriminate H.
Defined.

(** ** Accounts *)

Lemma find_app_None {A} (p : A → bool) l d :
  List.find p l = None → List.find p (l ++ [d]) = if p d then Some d else None.
Proof.
  induction l as [|x r IH]; [reflexivity|].
  cbn [List.find app]. destruct (p x); [discriminate|exact IH].
Qed.

Lemma find_app_Some {A} (p : A → bool) l k d :
  List.find p l = Some d → List.find p (l ++ k) = Some d.
Proof.
  induction l as [|x r IH]; [discriminate|].
  cbn [List.find app]. destruct (p x); [intros H; exact H|exact IH].
Qed.

(** X24. Registering and signing in.  For an address no stored user has,
    [create_user] stores the user and returns it, under the identifier
    the driver drew; [authenticate_user] with the same address and
    password then returns that user; and a second [create_user] with the
    address, whatever else it carries, is answered 400 and stores
    nothing.  The password context is such that a password verifies
    against its own hash. *)
Theorem register_then_login pwd_context user salt now inserted_id store :
  (∀ p s, AuthService.verify pwd_context p (AuthService.hash pwd_context p s) = true) →
  List.find (AuthService.by_email (AuthService.create_email user)) (AuthService.users store)
  = None →
  ∃ u store',
    AuthService.create_user pwd_context user salt now inserted_id store = (AuthService.Returns u, store')
    ∧ User.id u = ObjectId.str inserted_id
    ∧ User.email u = AuthService.create_email user
    ∧ AuthService.authenticate_user pwd_context (AuthService.create_email user)
        (AuthService.create_password user) store' = AuthService.Returns (Some u)
    ∧ ∀ other salt' now' inserted_id',
        AuthService.create_email other = AuthService.create_email user →
        AuthService.create_user pwd_context other salt' now' inserted_id' store'
        = (AuthService.Raises (AuthService.HTTP 400 "Email already registered"), store').
Proof.
  intros Hverify Hnew. unfold AuthService.create_user. rewrite Hnew.
  eexists. eexists. split; [reflexivity|]. split; [reflexivity|]. split; [reflexivity|].
  assert (Hfound : ∀ e, e = AuthService.create_email user →
            List.find (AuthService.by_email e)
              (AuthService.users store ++
               [AuthService.mkUserDoc (OfObjectId inserted_id) (AuthService.create_email user)
                  (AuthService.create_username user) (AuthService.create_name user)
                  (AuthService.hash pwd_context (AuthService.create_password user) salt)
                  now [] None])
            = Some (AuthService.mkUserDoc (OfObjectId inserted_id)
                      (AuthService.create_email user)
                      (AuthService.create_username user) (AuthService.create_name user)
                      (AuthService.hash pwd_context (AuthService.create_password user) salt)
                      now [] None)).
  { intros e ->. rewrite (find_app_None _ _ _ Hnew). unfold AuthService.by_email at 1.
    cbn [AuthService.user_email]. rewrite bool_decide_eq_true_2 by reflexivity.
    reflexivity. }
  split.
  - unfold AuthService.authenticate_user. cbn [AuthService.users].
    rewrite (Hfound _ eq_refl). cbn [AuthService.user_hashed_password].
    rewrite Hverify. reflexivity.
  - intros other salt' now' inserted_id' Hsame. cbn [AuthService.users].
    rewrite (Hfound _ Hsame). reflexivity.
Qed.

Lemma register_then_login_witness :
  let pwd_context :=
    AuthService.mkCryptContext (fun p s => "salt" ++ p)
      (fun p h => bool_decide (h = "salt" ++ p)) in
  let dora := AuthService.mkUserCreate "dora@example.org" "dora" None "secret" in
  ∃ u store',
    AuthService.create_user pwd_context dora "salt" 7 "64b7f3a2c9e1d4f5a6b7c804"
      (AuthService.mkStore [] [])
    = (AuthService.Returns u, store')
    ∧ AuthService.authenticate_user pwd_context "dora@example.org" "secret" store'
      = AuthService.Returns (Some u).
Proof.
  cbv zeta.
  destruct (register_then_login
              (AuthService.mkCryptContext (fun p s => "salt" ++ p)
                 (fun p h => bool_decide (h = "salt" ++ p)))
              (AuthService.mkUserCreate "dora@example.org" "dora" None "secret")
              "salt" 7 "64b7f3a2c9e1d4f5a6b7c804" (AuthService.mkStore [] []))
    as (u & store' & Hcreate & _ & _ & Hlogin & _).
  - intros p s. cbn. apply bool_decide_eq_true_2. reflexivity.
  - reflexivity.
  - exists u, store'. split; [exact Hcreate|exact Hlogin].
Defined.

Lemma map_email_update_one query update (l : list AuthService.UserDoc) :
  (∀ d, AuthService.user_email (update d) = AuthService.user_email d) →
  map AuthService.user_email (AuthService.update_one query update l)
  = map AuthService.user_email l.
Proof.
  intros Hupdate. induction l as [|d r IH]; [reflexivity|].
  cbn [AuthService.update_one]. destruct (query d); cbn [map].
  - rewrite Hupdate. reflexivity.
  - rewrite IH. reflexivity.
Qed.

Lemma Forall_update_one {A} (P : A → Prop) query update (l : list A) :
  (∀ d, P d → P (update d)) → Forall P l → Forall P (AuthService.update_one query update l).
Proof.
  intros Hupdate. induction 1 as [|d r Hd Hr IH]; [constructor|].
  cbn [AuthService.update_one]. destruct (query d); constructor; auto.
Qed.

Lemma find_by_email_None email (l : list AuthService.UserDoc) :
  List.find (AuthService.by_email email) l = None → email ∉ map AuthService.user_email l.
Proof.
  induction l as [|d r IH]; [intros _ H; inversion H|].
  cbn [List.find map]. unfold AuthService.by_email at 1. case_bool_decide as Hd; [discriminate|].
  intros Hr [H|H]%elem_of_cons; [congruence|exact (IH Hr H)].
Qed.

(** X25. No two stored users come to share an address, and a stored
    identifier stays an [ObjectId], whichever function of the service
    runs and however it ends. *)
Theorem users_stay_distinct pwd_context store :
  let good store' :=
    NoDup (map AuthService.user_email (AuthService.users store'))
    ∧ Forall (fun d => ∃ oid, AuthService.user_id d = OfObjectId oid)
             (AuthService.users store') in
  good store →
  (∀ user salt now inserted_id,
     good (snd (AuthService.create_user pwd_context user salt now inserted_id store)))
  ∧ (∀ email username provider provider_id now inserted_id,
       good (snd (AuthService.create_oauth_user email username provider provider_id
                    now inserted_id store)))
  ∧ (∀ email token now1 now2,
       good (snd (AuthService.create_password_reset_request email token now1 now2 store)))
  ∧ (∀ token new_password now salt,
       good (snd (AuthService.reset_password pwd_context token new_password now salt store)))
  ∧ (∀ user_id update_data,
       good (snd (AuthService.update_user_profile user_id update_data store)))
  ∧ (∀ user_id new_password salt,
       good (snd (AuthService.update_user_password pwd_context user_id new_password salt
                    store))).
Proof.
  cbv zeta. intros [Hemails Hids].
  assert (Hupdated : ∀ query update,
            (∀ d, AuthService.user_email (update d) = AuthService.user_email d) →
            (∀ d, AuthService.user_id (update d) = AuthService.user_id d) →
            NoDup (map AuthService.user_email
                     (AuthService.update_one query update (AuthService.users store)))
            ∧ Forall (fun d => ∃ oid, AuthService.user_id d = OfObjectId oid)
                     (AuthService.update_one query update (AuthService.users store))).
  { intros query update H1 H2. split.
    - rewrite (map_email_update_one _ _ _ H1). exact Hemails.
    - apply Forall_update_one; [|exact Hids].
      intros d [oid Hd]. exists oid. rewrite H2. exact Hd. }
  assert (Hadded : ∀ d oid,
            AuthService.user_id d = OfObjectId oid →
            List.find (AuthService.by_email (AuthService.user_email d))
                      (AuthService.users store) = None →
            NoDup (map AuthService.user_email (AuthService.users store ++ [d]))
            ∧ Forall (fun d => ∃ oid, AuthService.user_id d = OfObjectId oid)
                     (AuthService.users store ++ [d])).
  { intros d oid Hd Hnew. split.
    - rewrite map_app. cbn [map]. apply NoDup_app. split; [exact Hemails|]. split.
      + intros e He He'%list_elem_of_singleton. subst e.
        exact (find_by_email_None _ _ Hnew He).
      + apply NoDup_singleton.
    - apply Forall_app. split; [exact Hids|]. apply Forall_singleton. exists oid. exact Hd. }
  split; [|split; [|split; [|split; [|split]]]].
  - intros user salt now inserted_id. unfold AuthService.create_user.
    destruct (List.find _ _) eqn:Hfind; cbn [snd AuthService.users]; [split; assumption|].
    eapply Hadded; [reflexivity|exact Hfind].
  - intros email username provider provider_id now inserted_id.
    unfold AuthService.create_oauth_user.
    destruct (List.find _ _) eqn:Hfind; cbn [snd AuthService.users]; [split; assumption|].
    eapply Hadded; [reflexivity|exact Hfind].
  - intros email token now1 now2. unfold AuthService.create_password_reset_request.
    destruct (AuthService.get_user_by_email email store) as [[?|]|];
      cbn [snd AuthService.users]; split; assumption.
  - intros token new_password now salt. unfold AuthService.reset_password.
    destruct (List.find _ _); cbn [snd AuthService.users]; [|split; assumption].
    apply Hupdated; intros d; reflexivity.
  - intros user_id update_data. unfold AuthService.update_user_profile.
    destruct update_data as [[?|] [?|]]; try (cbn [snd]; split; assumption);
      destruct (List.find _ _); cbn [snd AuthService.users]; try (split; assumption);
      apply Hupdated; intros d; reflexivity.
  - intros user_id new_password salt. unfold AuthService.update_user_password.
    destruct (List.find _ _); cbn [snd AuthService.users]; [|split; assumption].
    apply Hupdated; intros d; reflexivity.
Qed.

Lemma users_stay_distinct_witness :
  let pwd_context :=
    AuthService.mkCryptContext (fun p s => "salt" ++ p)
      (fun p h => bool_decide (h = "salt" ++ p)) in
  let dora := AuthService.mkUserCreate "dora@example.org" "dora" None "secret" in
  let store :=
    AuthService.mkStore
      [AuthService.mkUserDoc (OfObjectId "64b7f3a2c9e1d4f5a6b7c801") "ana@example.org" "ana"
         None "saltold" 1 [] None;
       AuthService.mkUserDoc (OfObjectId "64b7f3a2c9e1d4f5a6b7c802") "ben@example.org" "ben"
         (Some "Ben") "saltben" 2 [] None] [] in
  NoDup (map AuthService.user_email
           (AuthService.users
              (snd (AuthService.create_user pwd_context dora "salt" 7
                      "64b7f3a2c9e1d4f5a6b7c804" store))))
  ∧ length (AuthService.users
              (snd (AuthService.create_user pwd_context dora "salt" 7
                      "64b7f3a2c9e1d4f5a6b7c804" store))) = 3%nat.
Proof.
  cbv zeta. split; [|reflexivity].
  apply (users_stay_distinct
           (AuthService.mkCryptContext (fun p s => "salt" ++ p)
              (fun p h => bool_decide (h = "salt" ++ p)))
           (AuthService.mkStore
              [AuthService.mkUserDoc (OfObjectId "64b7f3a2c9e1d4f5a6b7c801")
                 "ana@example.org" "ana" None "saltold" 1 [] None;
               AuthService.mkUserDoc (OfObjectId "64b7f3a2c9e1d4f5a6b7c802")
                 "ben@example.org" "ben" (Some "Ben") "saltben" 2 [] None] [])).
  split.
  - cbn [map AuthService.users AuthService.user_email].
    apply NoDup_cons. split; [intros H%list_elem_of_singleton; discriminate H|].
    apply NoDup_singleton.
  - repeat constructor; eexists; reflexivity.
Defined.

(** X26. Signing in through a provider.  For an address that is stored,
    [create_oauth_user] returns the stored user, whatever the provider
    and the name sent and whether or not the account has a password, and
    stores nothing.  For a new address it stores a user with an empty
    password hash, and a later call with the address, from whichever
    provider, returns that same user. *)
Theorem oauth_sign_in email username provider provider_id now inserted_id store :
  (∀ doc oid,
     List.find (AuthService.by_email email) (AuthService.users store) = Some doc →
     AuthService.user_id doc = OfObjectId oid →
     ∃ u, AuthService.User_ doc = Some u
          ∧ User.id u = ObjectId.str oid
          ∧ User.hashed_password u = AuthService.user_hashed_password doc
          ∧ AuthService.create_oauth_user email username provider provider_id now
              inserted_id store = (AuthService.Returns u, store))
  ∧ (List.find (AuthService.by_email email) (AuthService.users store) = None →
     ∃ u store',
       AuthService.create_oauth_user email username provider provider_id now
         inserted_id store = (AuthService.Returns u, store')
       ∧ User.id u = ObjectId.str inserted_id
       ∧ User.email u = email
       ∧ User.hashed_password u = EmptyString
       ∧ ∀ username' provider' provider_id' now' inserted_id',
           AuthService.create_oauth_user email username' provider' provider_id' now'
             inserted_id' store' = (AuthService.Returns u, store')).
Proof.
  unfold AuthService.create_oauth_user. split.
  - intros doc oid Hfind Hid. rewrite Hfind. unfold AuthService.User_. rewrite Hid.
    eexists. split; [reflexivity|]. repeat split; reflexivity.
  - intros Hnew. rewrite Hnew. eexists. eexists.
    split; [reflexivity|]. split; [reflexivity|]. split; [reflexivity|].
    split; [reflexivity|].
    intros username' provider' provider_id' now' inserted_id'. cbn [AuthService.users].
    rewrite (find_app_None _ _ _ Hnew). unfold AuthService.by_email at 1.
    cbn [AuthService.user_email]. rewrite bool_decide_eq_true_2 by reflexivity.
    reflexivity.
Qed.

Lemma oauth_sign_in_witness :
  let store :=
    AuthService.mkStore
      [AuthService.mkUserDoc (OfObjectId "64b7f3a2c9e1d4f5a6b7c801") "ana@example.org" "ana"
         None "h1" 1 [] None] [] in
  ∃ u, AuthService.create_oauth_user "ana@example.org" "someone" "google" "g-17" 9
         "64b7f3a2c9e1d4f5a6b7c805" store = (AuthService.Returns u, store)
       ∧ User.hashed_password u = "h1".
Proof.
  cbv zeta.
  destruct (oauth_sign_in "ana@example.org" "someone" "google" "g-17" 9
              "64b7f3a2c9e1d4f5a6b7c805"
              (AuthService.mkStore
                 [AuthService.mkUserDoc (OfObjectId "64b7f3a2c9e1d4f5a6b7c801")
                    "ana@example.org" "ana" None "h1" 1 [] None] [])) as [Hold _].
  destruct (Hold _ "64b7f3a2c9e1d4f5a6b7c801" eq_refl eq_refl) as (u & _ & _ & Hhash & Hrun).
  exists u. split; [exact Hrun|exact Hhash].
Defined.

Lemma find_update_one_by_email email update (l : list AuthService.UserDoc) doc :
  (∀ d, AuthService.user_email (update d) = AuthService.user_email d) →
  List.find (AuthService.by_email email) l = Some doc →
  List.find (AuthService.by_email email)
            (AuthService.update_one (AuthService.by_email email) update l)
  = Some (update doc).
Proof.
  intros Hupdate. induction l as [|d r IH]; [discriminate|].
  cbn [List.find AuthService.update_one].
  destruct (AuthService.by_email email d) eqn:Hd.
  - intros [= <-]. cbn [List.find]. unfold AuthService.by_email in *.
    rewrite Hupdate, Hd. reflexivity.
  - intros Hr. cbn [List.find]. rewrite Hd. exact (IH Hr).
Qed.

Lemma delete_one_fresh token (l : list AuthService.PasswordReset) r :
  (∀ x, x ∈ l → AuthService.reset_token x ≠ token) →
  AuthService.reset_token r = token →
  AuthService.delete_one (fun x => bool_decide (AuthService.reset_token x = token)) (l ++ [r])
  = l.
Proof.
  intros Hl Hr. induction l as [|x l IH]; cbn [app AuthService.delete_one].
  - rewrite bool_decide_eq_true_2 by exact Hr. reflexivity.
  - rewrite bool_decide_eq_false_2 by (apply Hl; left).
    rewrite IH; [reflexivity|]. intros y Hy. apply Hl. right. exact Hy.
Qed.

Lemma find_reset_fresh token now (l : list AuthService.PasswordReset) :
  (∀ x, x ∈ l → AuthService.reset_token x ≠ token) →
  List.find (fun r => bool_decide (AuthService.reset_token r = token)
                      && bool_decide (now < AuthService.reset_expires_at r)) l
  = None.
Proof.
  induction l as [|x l IH]; intros Hl; [reflexivity|].
  cbn [List.find]. rewrite bool_decide_eq_false_2 by (apply Hl; left).
  cbn [andb]. apply IH. intros y Hy. apply Hl. right. exact Hy.
Qed.

(** X27. A password reset from request to use.  For the address of a stored
    user and a token not in use, the request stores the token with an
    expiry 24 hours after the clock's reading.  Used before that, the
    token sets the user's password, so that signing in with the new
    password succeeds, and the token is taken out, so that a second use
    is answered 400.  Used at the expiry or later, it is answered 400
    and nothing is changed.  The password context is such that a
    password verifies against its own hash. *)
Theorem password_reset_lifecycle pwd_context email token now1 now2 store doc oid :
  (∀ p s, AuthService.verify pwd_context p (AuthService.hash pwd_context p s) = true) →
  List.find (AuthService.by_email email) (AuthService.users store) = Some doc →
  AuthService.user_id doc = OfObjectId oid →
  (∀ r, r ∈ AuthService.password_resets store → AuthService.reset_token r ≠ token) →
  ∃ store1,
    AuthService.create_password_reset_request email token now1 now2 store = (AuthService.Returns token, store1)
    ∧ AuthService.users store1 = AuthService.users store
    ∧ (∀ now new_password salt,
         now < now1 + 86400000 →
         ∃ u store2,
           AuthService.reset_password pwd_context token new_password now salt store1
           = (AuthService.Returns true, store2)
           ∧ AuthService.password_resets store2 = AuthService.password_resets store
           ∧ AuthService.authenticate_user pwd_context email new_password store2
             = AuthService.Returns (Some u)
           ∧ User.id u = ObjectId.str oid
           ∧ ∀ now' new_password' salt',
               AuthService.reset_password pwd_context token new_password' now' salt' store2
               = (AuthService.Raises (AuthService.HTTP 400 "Invalid or expired reset token"), store2))
    ∧ (∀ now new_password salt,
         now1 + 86400000 ≤ now →
         AuthService.reset_password pwd_context token new_password now salt store1
         = (AuthService.Raises (AuthService.HTTP 400 "Invalid or expired reset token"), store1)).
Proof.
  intros Hverify Hfind Hid Hfresh.
  unfold AuthService.create_password_reset_request, AuthService.get_user_by_email.
  rewrite Hfind. unfold AuthService.User_ at 1. rewrite Hid. cbn [validate mbind option_bind].
  eexists. split; [reflexivity|]. split; [reflexivity|].
  change AuthService.hours_24 with 86400000.
  split.
  - intros now new_password salt Hnow. unfold AuthService.reset_password at 1.
    cbn [AuthService.password_resets AuthService.users].
    rewrite (find_app_None _ _ _ (find_reset_fresh token now _ Hfresh)).
    cbn [AuthService.reset_token AuthService.reset_expires_at AuthService.reset_email].
    rewrite bool_decide_eq_true_2 by reflexivity.
    rewrite bool_decide_eq_true_2 by exact Hnow. cbn [andb].
    rewrite (delete_one_fresh token _
               (AuthService.mkPasswordReset email token now2 (now1 + 86400000))
               Hfresh eq_refl).
    eexists. eexists. split; [reflexivity|]. split; [reflexivity|].
    assert (Hupdated := find_update_one_by_email email
                          (AuthService.with_hashed_password
                             (AuthService.hash pwd_context new_password salt))
                          _ _ (fun d => eq_refl) Hfind).
    split; [|split].
    + unfold AuthService.authenticate_user. cbn [AuthService.users AuthService.reset_email].
      rewrite Hupdated.
      cbn [AuthService.with_hashed_password AuthService.user_hashed_password].
      rewrite Hverify. cbn [negb]. unfold AuthService.User_.
      cbn [AuthService.with_hashed_password AuthService.user_id]. rewrite Hid.
      reflexivity.
    + reflexivity.
    + intros now' new_password' salt'. unfold AuthService.reset_password.
      cbn [AuthService.password_resets].
      rewrite (find_reset_fresh token now' _ Hfresh). reflexivity.
  - intros now new_password salt Hnow. unfold AuthService.reset_password.
    cbn [AuthService.password_resets].
    rewrite (find_app_None _ _ _ (find_reset_fresh token now _ Hfresh)).
    cbn [AuthService.reset_token AuthService.reset_expires_at].
    rewrite bool_decide_eq_true_2 by reflexivity.
    rewrite bool_decide_eq_false_2 by lia. reflexivity.
Qed.

Lemma password_reset_lifecycle_witness :
  let pwd_context :=
    AuthService.mkCryptContext (fun p s => "salt" ++ p)
      (fun p h => bool_decide (h = "salt" ++ p)) in
  let store :=
    AuthService.mkStore
      [AuthService.mkUserDoc (OfObjectId "64b7f3a2c9e1d4f5a6b7c801") "ana@example.org" "ana"
         None "saltold" 1 [] None] [] in
  ∃ store1,
    AuthService.create_password_reset_request "ana@example.org" "token" 1000 1001 store
    = (AuthService.Returns "token", store1)
    ∧ fst (AuthService.reset_password pwd_context "token" "new" 86400999 "salt" store1)
      = AuthService.Returns true
    ∧ fst (AuthService.reset_password pwd_context "token" "new" 86401000 "salt" store1)
      = AuthService.Raises (AuthService.HTTP 400 "Invalid or expired reset token").
Proof.
  cbv zeta.
  destruct (password_reset_lifecycle
              (AuthService.mkCryptContext (fun p s => "salt" ++ p)
                 (fun p h => bool_decide (h = "salt" ++ p)))
              "ana@example.org" "token" 1000 1001
              (AuthService.mkStore
                 [AuthService.mkUserDoc (OfObjectId "64b7f3a2c9e1d4f5a6b7c801")
                    "ana@example.org" "ana" None "saltold" 1 [] None] [])
              (AuthService.mkUserDoc (OfObjectId "64b7f3a2c9e1d4f5a6b7c801")
                 "ana@example.org" "ana" None "saltold" 1 [] None)
              "64b7f3a2c9e1d4f5a6b7c801")
    as (store1 & Hrequest & _ & Hbefore & Hafter).
  - intros p s. cbn. apply bool_decide_eq_true_2. reflexivity.
  - reflexivity.
  - reflexivity.
  - intros r Hr. inversion Hr.
  - exists store1. split; [exact Hrequest|]. split.
    + destruct (Hbefore 86400999 "new" "salt" ltac:(lia)) as (u & store2 & Hrun & _).
      rewrite Hrun. reflexivity.
    + rewrite (Hafter 86401000 "new" "salt" ltac:(lia)). reflexivity.
Defined.

(** X28. The two functions that look a user up by [{"_id": user_id}] are
    given the identifier as a string, and a stored ["_id"] that is an
    [ObjectId] is no string: with every stored identifier an [ObjectId],
    as those the service stores are, [update_user_profile] is answered
    400 for no data and 404 otherwise, [update_user_password] returns
    [False], and neither changes anything. *)
Theorem update_by_id_matches_nothing pwd_context store :
  Forall (fun d => ∃ oid, AuthService.user_id d = OfObjectId oid) (AuthService.users store) →
  (∀ user_id update_data,
     AuthService.update_user_profile user_id update_data store
     = (match update_data with
        | AuthService.mkUpdateData None None =>
            AuthService.Raises (AuthService.HTTP 400 "No data to update")
        | _ => AuthService.Raises (AuthService.HTTP 404 "User not found")
        end, store))
  ∧ (∀ user_id new_password salt,
       AuthService.update_user_password pwd_context user_id new_password salt store
       = (false, store)).
Proof.
  intros Hids.
  assert (Hnone : ∀ user_id,
            List.find (AuthService.by_id user_id) (AuthService.users store) = None).
  { intros user_id. induction Hids as [|d r [oid Hd] _ IH]; [reflexivity|].
    cbn [List.find]. unfold AuthService.by_id at 1. rewrite Hd.
    rewrite bool_decide_eq_false_2 by discriminate. exact IH. }
  split.
  - intros user_id update_data. unfold AuthService.update_user_profile.
    rewrite Hnone. destruct update_data as [[?|] [?|]]; reflexivity.
  - intros user_id new_password salt. unfold AuthService.update_user_password.
    rewrite Hnone. reflexivity.
Qed.

Lemma update_by_id_matches_nothing_witness :
  let store :=
    AuthService.mkStore
      [AuthService.mkUserDoc (OfObjectId "64b7f3a2c9e1d4f5a6b7c801") "ana@example.org" "ana"
         None "h1" 1 [] None] [] in
  AuthService.update_user_profile "64b7f3a2c9e1d4f5a6b7c801"
    (AuthService.mkUpdateData (Some "Ana") None) store
  = (AuthService.Raises (AuthService.HTTP 404 "User not found"), store).
Proof.
  cbv zeta.
  apply (update_by_id_matches_nothing
           (AuthService.mkCryptContext (fun p s => p) (fun p h => true))
           (AuthService.mkStore
              [AuthService.mkUserDoc (OfObjectId "64b7f3a2c9e1d4f5a6b7c801")
                 "ana@example.org" "ana" None "h1" 1 [] None] [])).
  apply Forall_singleton. exists "64b7f3a2c9e1d4f5a6b7c801". reflexivity.
Defined.

(** X29. Behind the two routes that change a signed-in user's own record:
    with every stored identifier an [ObjectId], [update_profile] and
    [change_password] are answered 400 whatever they are sent, the right
    current password included, and nothing is changed. *)
Theorem own_record_routes_refuse pwd_context str_of store :
  Forall (fun d => ∃ oid, AuthService.user_id d = OfObjectId oid) (AuthService.users store) →
  (∀ user_update current_user,
     ∃ detail,
       AuthService.update_profile str_of user_update current_user store
       = (AuthService.Raises (AuthService.HTTP 400 detail), store))
  ∧ (∀ password_data current_user salt,
       ∃ detail,
         AuthService.change_password pwd_context str_of password_data current_user salt store
         = (AuthService.Raises (AuthService.HTTP 400 detail), store)).
Proof.
  intros Hids.
  assert (Hnone : ∀ user_id,
            List.find (AuthService.by_id user_id) (AuthService.users store) = None).
  { intros user_id. induction Hids as [|d r [oid Hd] _ IH]; [reflexivity|].
    cbn [List.find]. unfold AuthService.by_id at 1. rewrite Hd.
    rewrite bool_decide_eq_false_2 by discriminate. exact IH. }
  split.
  - intros user_update current_user.
    unfold AuthService.update_profile, AuthService.update_user_profile.
    rewrite Hnone. destruct user_update as [[?|] [?|]]; eexists; reflexivity.
  - intros password_data current_user salt.
    unfold AuthService.change_password, AuthService.update_user_password,
      AuthService.authenticate_user.
    rewrite Hnone.
    destruct (List.find _ _) as [user|]; [|eexists; reflexivity].
    destruct (negb _); [eexists; reflexivity|].
    destruct (AuthService.User_ user); eexists; reflexivity.
Qed.

Lemma own_record_routes_refuse_witness :
  let pwd_context :=
    AuthService.mkCryptContext (fun p s => "salt" ++ p)
      (fun p h => bool_decide (h = "salt" ++ p)) in
  let ana := User.mk "64b7f3a2c9e1d4f5a6b7c801" "ana@example.org" "ana" None "saltold" 1 None in
  let store :=
    AuthService.mkStore
      [AuthService.mkUserDoc (OfObjectId "64b7f3a2c9e1d4f5a6b7c801") "ana@example.org" "ana"
         None "saltold" 1 [] None] [] in
  AuthService.change_password pwd_context (fun _ => EmptyString)
    (AuthService.mkPasswordChangeRequest "old" "new") ana "salt" store
  = (AuthService.Raises (AuthService.HTTP 400 "Failed to update password"), store).
Proof.
  cbv zeta.
  destruct (own_record_routes_refuse
              (AuthService.mkCryptContext (fun p s => "salt" ++ p)
                 (fun p h => bool_decide (h = "salt" ++ p)))
              (fun _ => EmptyString)
              (AuthService.mkStore
                 [AuthService.mkUserDoc (OfObjectId "64b7f3a2c9e1d4f5a6b7c801")
                    "ana@example.org" "ana" None "saltold" 1 [] None] []))
    as [_ Hchange].
  - apply Forall_singleton. exists "64b7f3a2c9e1d4f5a6b7c801". reflexivity.
  - destruct (Hchange (AuthService.mkPasswordChangeRequest "old" "new")
                (User.mk "64b7f3a2c9e1d4f5a6b7c801" "ana@example.org" "ana" None "saltold" 1
                   None) "salt") as [detail Hrun].
    rewrite Hrun. vm_compute in Hrun. injection Hrun as <-. reflexivity.
Defined.

(** ** The weather route *)

(** X30. [get_weather_forecast] raises its 404 inside the [try] whose
    [except Exception] turns every exception into a 500: the handler
    returns the forecast the service gave when that is a dictionary with
    an item, and is answered 500 otherwise, never 404. *)
Theorem weather_never_not_found {V} str_of (forecast : option (list (string * V))) :
  (∀ status_code detail,
     get_weather_forecast str_of forecast = HTTPException status_code detail →
     status_code = 500
     ∧ (forecast = None ∨ forecast = Some [])
     ∧ detail = "Failed to get weather forecast: "
                ++ str_of 404 "Weather forecast not available for this location")
  ∧ (∀ f, get_weather_forecast str_of forecast = Ok f → forecast = Some f ∧ f ≠ []).
Proof.
  unfold get_weather_forecast, try_except_Exception.
  destruct forecast as [[|item items]|]; split.
  - intros status_code detail [= <- <-]. split; [reflexivity|]. split; [right|]; reflexivity.
  - intros f Hf. discriminate Hf.
  - intros status_code detail H. discriminate H.
  - intros f [= <-]. split; [reflexivity|discriminate].
  - intros status_code detail [= <- <-]. split; [reflexivity|]. split; [left|]; reflexivity.
  - intros f Hf. discriminate Hf.
Qed.

Lemma weather_never_not_found_witness :
  get_weather_forecast (fun s d => d) (@None (list (string * string)))
  = HTTPException 500
      "Failed to get weather forecast: Weather forecast not available for this location".
Proof.
  destruct (get_weather_forecast (fun s d => d) (@None (list (string * string))))
    as [f|status_code detail] eqn:Hrun.
  - vm_compute in Hrun. discriminate Hrun.
  - destruct (weather_never_not_found (fun s d => d) (@None (list (string * string))))
      as [Herr _].
    destruct (Herr status_code detail Hrun) as (-> & _ & ->). reflexivity.
Defined.
